(** * landlab: structured-grid connectivity and the D8 flow director

    A shallow embedding of
      - [landlab/utils/structured_grid.py] (node / link index arithmetic,
        active links, halo tables, diagonal tables), and
      - [landlab/components/flow_director/flow_director_d8.py]
        (the [FlowDirectorD8] component).

    Conventions.
      - Python integers and numpy integer arrays are [Z] and [list Z];
        a grid shape is a pair of naturals (numbers of node rows and node
        columns), the arithmetic on it is done in [Z] as in the source.
        A value handed in by the caller enters an array of 8-bit or 64-bit
        integers through [int8] or [int64].
      - A Python exception is [None] in the [option] monad.
      - numpy floating point arrays are lists of real numbers. *)

From Stdlib Require Import ZArith List Bool Lia.
From Stdlib Require Import Sorted.
From Stdlib Require Import Reals Lra.
Import ListNotations.

Set Implicit Arguments.

(** ** The error monad *)

Definition bind {A B : Type} (m : option A) (k : A -> option B) : option B :=
  match m with
  | Some a => k a
  | None => None
  end.

Notation "x <- m ;; k" := (bind m (fun x => k))
  (at level 61, m at next level, right associativity).

(** ** Python and numpy primitives used by the source *)

Module Py.

Open Scope Z_scope.

(** [xrange(start, stop, step)]; a zero step raises [ValueError]. *)
Definition xrange3 (start stop step : Z) : option (list Z) :=
  if step =? 0 then None
  else
    let n := if 0 <? step
             then (stop - start + step - 1) / step
             else (start - stop - step - 1) / (- step) in
    Some (map (fun k => start + Z.of_nat k * step) (seq 0 (Z.to_nat n))).

(** [xrange(start, stop)]: the step is 1, no error is possible. *)
Definition xrange (start stop : Z) : list Z :=
  map (fun k => start + Z.of_nat k) (seq 0 (Z.to_nat (stop - start))).

(** [numpy.arange(n)]. *)
Definition arange (n : Z) : list Z := xrange 0 n.

(** A slice bound [i] of a sequence of length [n]: negative bounds count
    from the end, everything is clamped to [0 .. n]. *)
Definition clamp (n i : Z) : Z :=
  if i <? 0 then Z.max 0 (n + i) else Z.min n i.

(** [l[lo:hi]], an omitted bound is [None]. *)
Definition slice {A : Type} (lo hi : option Z) (l : list A) : list A :=
  let n := Z.of_nat (length l) in
  let a := match lo with None => 0 | Some i => clamp n i end in
  let b := match hi with None => n | Some i => clamp n i end in
  firstn (Z.to_nat (b - a)) (skipn (Z.to_nat a) l).

(** [m[rlo:rhi, clo:chi]] for a two-dimensional array kept as its rows. *)
Definition slice2 {A : Type} (rlo rhi clo chi : option Z)
  (m : list (list A)) : list (list A) :=
  map (slice clo chi) (slice rlo rhi m).

(** [a.shape = (rows, cols)] on a flat array: the rows of the view. *)
Fixpoint reshape {A : Type} (rows cols : nat) (l : list A) : list (list A) :=
  match rows with
  | O => []
  | S r => firstn cols l :: reshape r cols (skipn cols l)
  end.

(** [m.flat] *)
Definition flat {A : Type} (m : list (list A)) : list A := concat m.

(** Position of index [i] in an array of length [n]: numpy wraps a negative
    index once and raises [IndexError] outside [-n .. n-1]. *)
Definition position (n : nat) (i : Z) : option nat :=
  if (0 <=? i) && (i <? Z.of_nat n) then Some (Z.to_nat i)
  else if (- Z.of_nat n <=? i) && (i <? 0) then Some (Z.to_nat (Z.of_nat n + i))
  else None.

(** [a[i]] *)
Definition item {A : Type} (a : list A) (i : Z) : option A :=
  p <- position (length a) i ;; nth_error a p.

(** [a[idx]] for an index array [idx]. *)
Fixpoint take {A : Type} (a : list A) (idx : list Z) : option (list A) :=
  match idx with
  | [] => Some []
  | i :: idx' =>
      x <- item a i ;;
      xs <- take a idx' ;;
      Some (x :: xs)
  end.

(** The list [l] with position [p] overwritten. *)
Fixpoint upd {A : Type} (l : list A) (p : nat) (x : A) : list A :=
  match l, p with
  | [], _ => []
  | _ :: t, O => x :: t
  | h :: t, S p' => h :: upd t p' x
  end.

(** [a[i] = x] *)
Definition setitem {A : Type} (a : list A) (i : Z) (x : A) : option (list A) :=
  p <- position (length a) i ;; Some (upd a p x).

(** [a[idx] = x] for an index array [idx] and a scalar [x]. *)
Fixpoint fill_at {A : Type} (a : list A) (idx : list Z) (x : A)
  : option (list A) :=
  match idx with
  | [] => Some a
  | i :: idx' => a' <- setitem a i x ;; fill_at a' idx' x
  end.

(** [a.flat[idx] = vals] for an index array and a sequence:
    [a[idx[k]] = vals[k]], the values being taken again from the start when
    they run out; no value at all raises [ValueError]. *)
Fixpoint put_from {A : Type} (k : nat) (a : list A) (idx : list Z)
  (vals : list A) : option (list A) :=
  match idx with
  | [] => Some a
  | i :: idx' =>
      v <- nth_error vals (k mod length vals) ;;
      a' <- setitem a i v ;;
      put_from (S k) a' idx' vals
  end.

Definition put {A : Type} (a : list A) (idx : list Z) (vals : list A)
  : option (list A) :=
  put_from 0 a idx vals.

(** [numpy.where(mask)] on a one-dimensional boolean array: the indices
    of its true entries, in increasing order. *)
Fixpoint where_from (k : Z) (mask : list bool) : list Z :=
  match mask with
  | [] => []
  | b :: mask' =>
      if b then k :: where_from (k + 1) mask' else where_from (k + 1) mask'
  end.

Definition where_ (mask : list bool) : list Z := where_from 0 mask.

(** An element-wise binary operation on two arrays of the same length
    (the shapes must agree; a mismatch raises [ValueError]). *)
Fixpoint map2 {A B C : Type} (f : A -> B -> C) (a : list A) (b : list B)
  : option (list C) :=
  match a, b with
  | [], [] => Some []
  | x :: a', y :: b' => r <- map2 f a' b' ;; Some (f x y :: r)
  | _, _ => None
  end.

(** An element-wise binary operation on two arrays under numpy's
    broadcasting: the lengths agree, or one of the arrays has a single
    element, which is used against every element of the other; any other
    mismatch raises [ValueError]. *)
Definition broadcast2 {A B C : Type} (f : A -> B -> C) (a : list A)
  (b : list B) : option (list C) :=
  if (length a =? length b)%nat then map2 f a b
  else match a, b with
       | [x], _ => Some (map (f x) b)
       | _, [y] => Some (map (fun x => f x y) a)
       | _, _ => None
       end.

(** A Python integer stored into an array of 64-bit integers: a value that
    does not fit raises [OverflowError]. *)
Definition int64 (x : Z) : option Z :=
  if (- 2 ^ 63 <=? x) && (x <? 2 ^ 63) then Some x else None.

(** A Python integer stored into an array of 8-bit integers: a value that
    does not fit a C long raises [OverflowError], a value that does is cut
    to its low eight bits (200 is stored as -56). *)
Definition int8 (x : Z) : option Z :=
  x <- int64 x ;; Some ((x + 128) mod 256 - 128).

(** [numpy.vstack((c0, c1, c2, c3)).T]: row [k] of the result holds the
    [k]-th entries of the four columns. *)
Fixpoint vstack4_T {A : Type} (c0 c1 c2 c3 : list A) : option (list (list A)) :=
  match c0, c1, c2, c3 with
  | [], [], [], [] => Some []
  | x0 :: t0, x1 :: t1, x2 :: t2, x3 :: t3 =>
      r <- vstack4_T t0 t1 t2 t3 ;; Some ([x0; x1; x2; x3] :: r)
  | _, _, _, _ => None
  end.

(** [x in a] for a scalar [x] and an integer array [a]:
    [(a == x).any()]. *)
Definition contains (x : Z) (a : list Z) : bool := existsb (Z.eqb x) a.

(** [b in a] for two integer arrays: [(a == b).any()], the comparison
    being element-wise, with broadcasting. *)
Definition contains_array (b a : list Z) : option bool :=
  eqs <- broadcast2 Z.eqb a b ;; Some (existsb (fun e => e) eqs).

End Py.

(** ** [landlab/utils/structured_grid.py] *)

Module structured_grid.

Import Py.
Open Scope Z_scope.

Definition INTERIOR_NODE : Z := 0.
Definition FIXED_VALUE_BOUNDARY : Z := 1.
Definition FIXED_GRADIENT_BOUNDARY : Z := 2.
Definition TRACKS_CELL_BOUNDARY : Z := 3.
Definition INACTIVE_BOUNDARY : Z := 4.

(** [numpy.iinfo(numpy.int).max] on a 64-bit platform. *)
Definition BAD_INDEX_VALUE : Z := 2 ^ 63 - 1.

(** A shape: number of node rows, number of node columns. *)
Definition shape_t : Type := (nat * nat)%type.

Definition nrows (shape : shape_t) : Z := Z.of_nat (fst shape).
Definition ncols (shape : shape_t) : Z := Z.of_nat (snd shape).

Definition node_count (shape : shape_t) : Z := nrows shape * ncols shape.

Definition interior_node_count (shape : shape_t) : Z :=
  (nrows shape - 2) * (ncols shape - 2).

Definition link_count (shape : shape_t) : Z :=
  ncols shape * (nrows shape - 1) + nrows shape * (ncols shape - 1).

Definition top_index_iter (shape : shape_t) : list Z :=
  xrange (ncols shape * (nrows shape - 1)) (nrows shape * ncols shape).

Definition bottom_index_iter (shape : shape_t) : list Z :=
  xrange 0 (ncols shape).

Definition left_index_iter (shape : shape_t) : option (list Z) :=
  xrange3 0 (nrows shape * ncols shape) (ncols shape).

Definition right_index_iter (shape : shape_t) : option (list Z) :=
  xrange3 (ncols shape - 1) (nrows shape * ncols shape) (ncols shape).

(** [left_right_iter(shape, *args)]: with more than three extra arguments
    [iter_rows] is never bound and the generator raises. *)
Definition left_right_iter (shape : shape_t) (args : list Z)
  : option (list Z) :=
  iter_rows <-
    match args with
    | [] => xrange3 0 (nrows shape) 1
    | [a0] => xrange3 0 a0 1
    | [a0; a1] => xrange3 a0 a1 1
    | [a0; a1; a2] => xrange3 a0 a1 a2
    | _ => None
    end ;;
  Some (flat_map
          (fun row => [row * ncols shape; row * ncols shape + ncols shape - 1])
          iter_rows).

Definition bottom_top_iter (shape : shape_t) : list Z :=
  bottom_index_iter shape ++ top_index_iter shape.

Definition boundary_iter (shape : shape_t) : option (list Z) :=
  lr <- left_right_iter shape [1; nrows shape - 1] ;;
  Some (bottom_index_iter shape ++ lr ++ top_index_iter shape).

Definition boundary_nodes (shape : shape_t) : option (list Z) :=
  boundary_iter shape.

Definition interior_iter (shape : shape_t) : option (list Z) :=
  let interiors_per_row := ncols shape - 2 in
  rows <- xrange3 (ncols shape + 1) (ncols shape * (nrows shape - 1))
                  (ncols shape) ;;
  Some (flat_map (fun row => xrange row (row + interiors_per_row)) rows).

Definition interior_nodes (shape : shape_t) : option (list Z) :=
  interior_iter shape.

(** [node_ids = numpy.arange(numpy.prod(shape)); node_ids.shape = shape] *)
Definition node_id_grid (shape : shape_t) : list (list Z) :=
  reshape (fst shape) (snd shape) (arange (node_count shape)).

Definition to_node_links (node_ids : list (list Z)) : list Z :=
  let vertical_links := slice2 (Some 1) None None None node_ids in
  let horizontal_links := slice2 None None (Some 1) None node_ids in
  flat vertical_links ++ flat horizontal_links.

Definition from_node_links (node_ids : list (list Z)) : list Z :=
  let vertical_links := slice2 None (Some (-1)) None None node_ids in
  let horizontal_links := slice2 None None None (Some (-1)) node_ids in
  flat vertical_links ++ flat horizontal_links.

Definition node_link_index (shape : shape_t) : list Z * list Z :=
  let node_ids := node_id_grid shape in
  (from_node_links node_ids, to_node_links node_ids).

Definition node_tolink_index (shape : shape_t) : list Z :=
  to_node_links (node_id_grid shape).

Definition node_fromlink_index (shape : shape_t) : list Z :=
  from_node_links (node_id_grid shape).

(** [node_status(shape, boundary_status)]. The array is a [numpy.int8]
    array; it starts as [numpy.empty], whose content is arbitrary:
    [junk]. *)
Definition node_status (junk : Z) (shape : shape_t) (boundary_status : Z)
  : option (list Z) :=
  let status := repeat junk (Z.to_nat (node_count shape)) in
  interiors <- interior_nodes shape ;;
  status <- fill_at status interiors INTERIOR_NODE ;;
  boundaries <- boundary_nodes shape ;;
  boundary_status <- int8 boundary_status ;;
  fill_at status boundaries boundary_status.

(** The boolean mask computed inside [active_links] for one link. *)
Definition is_active (from_node_status to_node_status : Z) : bool :=
  ((from_node_status =? INTERIOR_NODE)
     && negb (to_node_status =? INACTIVE_BOUNDARY))
  || ((to_node_status =? INTERIOR_NODE)
        && negb (from_node_status =? INACTIVE_BOUNDARY)).

(** [active_links(shape, node_status_array=None, link_nodes=None)] *)
Definition active_links (junk : Z) (shape : shape_t)
  (node_status_array : option (list Z))
  (link_nodes : option (list Z * list Z)) : option (list Z) :=
  node_status_array <-
    match node_status_array with
    | None => node_status junk shape FIXED_VALUE_BOUNDARY
    | Some a => Some a
    end ;;
  let '(link_from_node, link_to_node) :=
    match link_nodes with
    | None => node_link_index shape
    | Some p => p
    end in
  from_node_status <- take node_status_array link_from_node ;;
  to_node_status <- take node_status_array link_to_node ;;
  active_links <- broadcast2 is_active from_node_status to_node_status ;;
  Some (where_ active_links).

(** [node_index_with_halo(shape, halo_indices)], as the rows of the
    two-dimensional result, an array of 64-bit integers. *)
Definition node_index_with_halo (junk : Z) (shape : shape_t) (halo_indices : Z)
  : option (list (list Z)) :=
  let shape_with_halo : shape_t := (fst shape + 2, snd shape + 2)%nat in
  let ids := repeat junk (Z.to_nat (node_count shape_with_halo)) in
  interiors <- interior_nodes shape_with_halo ;;
  boundaries <- boundary_nodes shape_with_halo ;;
  ids <- put ids interiors
           (xrange 0 (interior_node_count shape_with_halo)) ;;
  halo_indices <- int64 halo_indices ;;
  ids <- fill_at ids boundaries halo_indices ;;
  Some (reshape (fst shape_with_halo) (snd shape_with_halo) ids).

(** [neighbor_array(shape, out_of_bounds)] *)
Definition neighbor_array (junk : Z) (shape : shape_t) (out_of_bounds : Z)
  : option (list (list Z)) :=
  ids <- node_index_with_halo junk shape out_of_bounds ;;
  vstack4_T
    (flat (slice2 (Some 1) (Some (nrows shape + 1)) None (Some (ncols shape)) ids))
    (flat (slice2 None (Some (nrows shape)) (Some 1) (Some (ncols shape + 1)) ids))
    (flat (slice2 (Some 1) (Some (nrows shape + 1)) (Some 2) None ids))
    (flat (slice2 (Some 2) None (Some 1) (Some (ncols shape + 1)) ids)).

(** [diagonal_array(shape, out_of_bounds)] *)
Definition diagonal_array (junk : Z) (shape : shape_t) (out_of_bounds : Z)
  : option (list (list Z)) :=
  ids <- node_index_with_halo junk shape out_of_bounds ;;
  vstack4_T
    (flat (slice2 None (Some (nrows shape)) None (Some (ncols shape)) ids))
    (flat (slice2 None (Some (nrows shape)) (Some 2) None ids))
    (flat (slice2 (Some 2) None (Some 2) None ids))
    (flat (slice2 (Some 2) None None (Some (ncols shape)) ids)).

(** [a[i, j] = x] on a two-dimensional array kept as its rows. *)
Definition setitem2 (a : list (list Z)) (i j : Z) (x : Z)
  : option (list (list Z)) :=
  row <- item a i ;;
  row <- setitem row j x ;;
  setitem a i row.

(** The body of the inner loop of [diagonal_array_slow]. *)
Definition diagonal_slow_body (ncols : Z) (r c : Z)
  (diagonal_cells : list (list Z)) : option (list (list Z)) :=
  let cell_id := r * ncols + c in
  d <- setitem2 diagonal_cells cell_id 2 (cell_id - ncols - 1) ;;
  d <- setitem2 d cell_id 0 (cell_id + ncols + 1) ;;
  d <- setitem2 d cell_id 3 (cell_id - ncols + 1) ;;
  setitem2 d cell_id 1 (cell_id + ncols - 1).

(** A [for] loop over a sequence, threading the loop state and stopping at
    the first exception. *)
Fixpoint for_each {S : Type} (xs : list Z) (body : Z -> S -> option S) (s : S)
  : option S :=
  match xs with
  | [] => Some s
  | x :: xs' => s' <- body x s ;; for_each xs' body s'
  end.

(** [diagonal_array_slow(shape, out_of_bounds)]; the source never reads
    [out_of_bounds], the table is initialised to [-1]. *)
Definition diagonal_array_slow (shape : shape_t) (out_of_bounds : Z)
  : option (list (list Z)) :=
  let nrows := nrows shape in
  let ncols := ncols shape in
  let ncells := nrows * ncols in
  let diagonal_cells := repeat (repeat (-1) 4) (Z.to_nat ncells) in
  for_each (xrange 1 (nrows - 1))
    (fun r => for_each (xrange 1 (ncols - 1)) (diagonal_slow_body ncols r))
    diagonal_cells.

(** [has_boundary_neighbor(neighbors, diagonals, out_of_bounds)]. The
    source expression
      [out_of_bounds in neighbors | out_of_bounds in diagonals]
    is a chained comparison around [neighbors | out_of_bounds], since [|]
    binds tighter than [in]:
      [(out_of_bounds in (neighbors | out_of_bounds))
         and ((neighbors | out_of_bounds) in diagonals)]. *)
Definition has_boundary_neighbor (neighbors diagonals : list Z)
  (out_of_bounds : Z) : option bool :=
  let middle := map (fun n => Z.lor n out_of_bounds) neighbors in
  if contains out_of_bounds middle
  then contains_array middle diagonals
  else Some false.

(** [while i < 4 and a[i] != out_of_bounds: i += 1], started at [i] with
    [left = 4 - i]; the result is the final value of [i]. *)
Fixpoint scan4 (a : list Z) (out_of_bounds : Z) (i : Z) (left : nat)
  : option Z :=
  match left with
  | O => Some i
  | S left' =>
      x <- item a i ;;
      if negb (x =? out_of_bounds)
      then scan4 a out_of_bounds (i + 1) left'
      else Some i
  end.

(** [has_boundary_neighbor_slow(neighbors, diagonals, out_of_bounds)] *)
Definition has_boundary_neighbor_slow (neighbors diagonals : list Z)
  (out_of_bounds : Z) : option bool :=
  i <- scan4 neighbors out_of_bounds 0 4 ;;
  if i <? 4 then Some true
  else
    r <- scan4 diagonals out_of_bounds 0 4 ;;
    if r <? 4 then Some true else Some false.

(** *** Counts, edges and cell tables *)

(** [cell_count(shape)]: the assertion [numpy.min(shape) > 2] fails for a
    grid without interior and the function returns 0. *)
Definition cell_count (shape : shape_t) : Z :=
  if 2 <? Z.min (nrows shape) (ncols shape)
  then (nrows shape - 2) * (ncols shape - 2)
  else 0.

Definition active_cell_count (shape : shape_t) : Z := cell_count shape.

Definition interior_cell_count (shape : shape_t) : Z := cell_count shape.

Definition active_link_count (shape : shape_t) : Z :=
  link_count shape - 2 * (nrows shape - 1) - 2 * (ncols shape - 1).

Definition boundary_cell_count (shape : shape_t) : Z :=
  2 * (nrows shape - 2) + 2 * (ncols shape - 2) + 4.

Definition face_count (shape : shape_t) : Z :=
  (nrows shape - 1) * (ncols shape - 2) + (nrows shape - 2) * (ncols shape - 1).

Definition bottom_edge_node_ids (shape : shape_t) : list Z :=
  bottom_index_iter shape.

Definition top_edge_node_ids (shape : shape_t) : list Z :=
  top_index_iter shape.

Definition left_edge_node_ids (shape : shape_t) : option (list Z) :=
  left_index_iter shape.

Definition right_edge_node_ids (shape : shape_t) : option (list Z) :=
  right_index_iter shape.

(** [a.shape = (n, )] on an array of [size] entries: a negative [n]
    stands for the size itself, any other mismatch raises [ValueError]. *)
Definition flat_shape_ok (n : Z) (size : nat) : bool :=
  (n <? 0) || (n =? Z.of_nat size).

(** [cell_node_index(shape)] *)
Definition cell_node_index (shape : shape_t) : option (list Z) :=
  let node_ids := node_id_grid shape in
  let cell_node :=
    flat (slice2 (Some 1) (Some (-1)) (Some 1) (Some (-1)) node_ids) in
  if flat_shape_ok ((nrows shape - 2) * (ncols shape - 2)) (length cell_node)
  then Some cell_node
  else None.

Definition active_cell_node (shape : shape_t) : option (list Z) :=
  cell_node_index shape.

Definition active_cells (shape : shape_t) : list Z :=
  arange (active_cell_count shape).

(** [a[idx] = vals] for an index array and an array of values: the shapes
    must agree, or there is one value, which is broadcast. *)
Definition put_array {A : Type} (a : list A) (idx : list Z) (vals : list A)
  : option (list A) :=
  if (length vals =? length idx)%nat then put a idx vals
  else match vals with
       | [x] => fill_at a idx x
       | _ => None
       end.

(** [node_active_cell(shape)] *)
Definition node_active_cell (junk : Z) (shape : shape_t) : option (list Z) :=
  let n_nodes := node_count shape in
  let node_ids := repeat junk (Z.to_nat n_nodes) in
  boundaries <- boundary_nodes shape ;;
  node_ids <- fill_at node_ids boundaries BAD_INDEX_VALUE ;;
  interiors <- interior_nodes shape ;;
  put_array node_ids interiors (arange (interior_node_count shape)).

(** [link_faces(shape, actives=None)]; [numpy.empty] of a negative size
    raises [ValueError]. *)
Definition link_faces (junk : Z) (shape : shape_t) (actives : option (list Z))
  : option (list Z) :=
  actives <-
    match actives with
    | None => active_links junk shape None None
    | Some a => Some a
    end ;;
  let num_links := link_count shape in
  if num_links <? 0 then None
  else
    let link_faces := repeat BAD_INDEX_VALUE (Z.to_nat num_links) in
    put_array link_faces actives (arange (Z.of_nat (length actives))).

(** [reshape_array(shape, u, flip_vertically)], as the rows of the result;
    [copy] only decides whether the rows share the buffer of [u]. *)
Definition reshape_array {A : Type} (shape : shape_t) (u : list A)
  (flip_vertically : bool) : option (list (list A)) :=
  if (length u =? fst shape * snd shape)%nat
  then
    let reshaped_u := reshape (fst shape) (snd shape) u in
    Some (if flip_vertically then rev reshaped_u else reshaped_u)
  else None.

(** *** Positions on the grid, to state properties *)

(** Row and column of node [n]. *)
Definition node_row (shape : shape_t) (n : Z) : Z := n / ncols shape.
Definition node_col (shape : shape_t) (n : Z) : Z := n mod ncols shape.

(** Node [n] lies strictly inside the grid. *)
Definition is_interior_node (shape : shape_t) (n : Z) : bool :=
  (1 <=? node_row shape n) && (node_row shape n <=? nrows shape - 2)
  && (1 <=? node_col shape n) && (node_col shape n <=? ncols shape - 2).

(** Node [n] lies on the first or last row, or on the first or last
    column. *)
Definition is_perimeter_node (shape : shape_t) (n : Z) : bool :=
  (node_row shape n =? 0) || (node_row shape n =? nrows shape - 1)
  || (node_col shape n =? 0) || (node_col shape n =? ncols shape - 1).

(** The ids of the links with an end node strictly inside a grid of at
    least three rows and three columns: in every row of vertical links all
    but the first and the last, and the horizontal links of every row but
    the first and the last. *)
Definition interior_link_ids (shape : shape_t) : list Z :=
  flat_map (fun i => xrange (i * ncols shape + 1)
                            (i * ncols shape + ncols shape - 1))
           (xrange 0 (nrows shape - 1))
  ++ flat_map (fun i => xrange ((nrows shape - 1) * ncols shape
                                + i * (ncols shape - 1))
                               ((nrows shape - 1) * ncols shape
                                + i * (ncols shape - 1)
                                + (ncols shape - 1)))
              (xrange 1 (nrows shape - 1)).


End structured_grid.

(** ** [landlab/components/flow_director/flow_director_d8.py] *)

Module flow_director.

Import Py structured_grid.
Open Scope Z_scope.

(** *** Exceptions *)

Inductive exn : Type :=
| NotImplementedError
| IndexError
| ValueError.

Inductive outcome (A : Type) : Type :=
| Ok (a : A)
| Raise (e : exn).

Arguments Ok {A} a.
Arguments Raise {A} e.

Definition obind {A B : Type} (m : outcome A) (k : A -> outcome B)
  : outcome B :=
  match m with
  | Ok a => k a
  | Raise e => Raise e
  end.

Notation "x <~ m ;; k" := (obind m (fun x => k))
  (at level 61, m at next level, right associativity).
Notation "' p <~ m ;; k" := (obind m (fun p => k))
  (at level 61, p pattern, m at next level, right associativity).

(** A numpy failure of [Py] raised as exception [e]. *)
Definition lift {A : Type} (e : exn) (o : option A) : outcome A :=
  match o with
  | Some a => Ok a
  | None => Raise e
  end.

(** [a < b] on floating point values. *)
Definition Rltb (a b : R) : bool := if Rlt_dec a b then true else false.

(** [field[:] = values]: the values are copied when the lengths agree, one
    value is broadcast, anything else raises [ValueError]. *)
Definition assign_all {A : Type} (field values : list A) : outcome (list A) :=
  if (length values =? length field)%nat then Ok values
  else match values with
       | [x] => Ok (repeat x (length field))
       | _ => Raise ValueError
       end.

(** *** The grid *)

(** Modelled from the spec: the classes of the grid collaborator
    ([RasterModelGrid], [VoronoiDelaunayGrid]) are not in the sources at
    hand. A grid is regular and rectangular, or irregular (section 9,
    "capability-tagged variant"). *)
Inductive grid_class : Type :=
| RasterModelGrid
| VoronoiDelaunayGrid.

(** The fields [grid['node'][...]] read and written by the component. *)
Record node_fields : Type := {
  topographic__elevation : list R;
  flow__receiver_node : list Z;
  topographic__steepest_slope : list R;
  flow__link_to_receiver_node : list Z;
  flow__sink_flag : list bool
}.

(** Modelled from the spec: the grid object (sections 3 and 6): per-node
    status codes, the boundary-version counter, for every D8 link
    (orthogonal and diagonal) its tail node, head node and length, and the
    per-node arrays. *)
Record ModelGrid : Type := {
  class_of : grid_class;
  status_at_node : list Z;
  bc_set_code : Z;
  d8_link_tail : list Z;
  d8_link_head : list Z;
  d8_link_length : list R;
  at_node : node_fields
}.

(** [isinstance(grid, VoronoiDelaunayGrid)] *)
Definition isinstance_VoronoiDelaunayGrid (g : ModelGrid) : bool :=
  match class_of g with
  | VoronoiDelaunayGrid => true
  | RasterModelGrid => false
  end.

(** Modelled from the spec: [grid._d8_active_links()], "a method returning
    the active-link set and its tail/head sub-tables, recomputed on demand"
    (section 6). The rule of section 4.2 is the mask of
    [structured_grid.active_links], applied here to the D8 link table. *)
Definition _d8_active_links (g : ModelGrid)
  : outcome (list Z * list Z * list Z) :=
  dal <~ lift IndexError
           (active_links 0 (0, 0)%nat (Some (status_at_node g))
              (Some (d8_link_tail g, d8_link_head g))) ;;
  d8t <~ lift IndexError (take (d8_link_tail g) dal) ;;
  d8h <~ lift IndexError (take (d8_link_head g) dal) ;;
  Ok (dal, d8t, d8h).

(** Modelled from the spec: [grid._calculate_gradients_at_d8_active_links],
    the gradient evaluator of section 2: "the elevation difference per unit
    edge length across each edge, signed by direction", positive uphill
    from tail to head (section 4.3). *)
Definition _calculate_gradients_at_d8_active_links (g : ModelGrid)
  (node_values : list R) : outcome (list R) :=
  '(dal, d8t, d8h) <~ _d8_active_links g ;;
  len <~ lift IndexError (take (d8_link_length g) dal) ;;
  zt <~ lift IndexError (take node_values d8t) ;;
  zh <~ lift IndexError (take node_values d8h) ;;
  diff <~ lift ValueError (map2 Rminus zh zt) ;;
  lift ValueError (map2 Rdiv diff len).

(** Modelled from the spec: a mutation of the boundary statuses; the
    version counter is "monotonically increasing" and "changes exactly
    when boundary status is mutated" (section 3). *)
Definition set_status_at_node (g : ModelGrid) (status : list Z) : ModelGrid :=
  {| class_of := class_of g;
     status_at_node := status;
     bc_set_code := bc_set_code g + 1;
     d8_link_tail := d8_link_tail g;
     d8_link_head := d8_link_head g;
     d8_link_length := d8_link_length g;
     at_node := at_node g |}.

(** *** The router [flow_direction_DN.flow_directions] *)

(** The value printed by the doctest of [FlowDirectorD8] in
    [flow__link_to_receiver_node] for a node without receiver link. *)
Definition UNDEFINED_INDEX : Z := -1.

(** An active link as the router sees it: its ID, end nodes, the slope
    handed in for it, and the elevations of its end nodes. *)
Record link : Type := {
  link_id : Z;
  tail : Z;
  head : Z;
  slope : R;
  z_tail : R;
  z_head : R
}.

(** A candidate outflow of a node: the link, the neighbour at its other
    end, and the downhill gradient magnitude. *)
Record candidate : Type := {
  via : Z;
  to : Z;
  drop : R
}.

(** [elev[n]] for a node ID; an ID outside the array is fatal. *)
Definition node_value (elev : list R) (n : Z) : option R :=
  if 0 <=? n then nth_error elev (Z.to_nat n) else None.

(** The four parallel link arrays as one list of links. *)
Fixpoint zip_links (elev : list R) (active_links tail_node head_node : list Z)
  (link_slope : list R) : outcome (list link) :=
  match active_links, tail_node, head_node, link_slope with
  | [], [], [], [] => Ok []
  | i :: ids, t :: ts, h :: hs, s :: ss =>
      zt <~ lift IndexError (node_value elev t) ;;
      zh <~ lift IndexError (node_value elev h) ;;
      rest <~ zip_links elev ids ts hs ss ;;
      Ok ({| link_id := i; tail := t; head := h; slope := s;
             z_tail := zt; z_head := zh |} :: rest)
  | _, _, _, _ => Raise ValueError
  end.

(** Steps 1 and 2 of section 4.3: link [l] leaves node [n] when [n] is its
    strictly higher end; the gradient magnitude is the slope handed in for
    the link, seen from [n]. *)
Definition outgoing (n : Z) (l : link) : option candidate :=
  if (tail l =? n) && Rltb (z_head l) (z_tail l)
  then Some {| via := link_id l; to := head l; drop := slope l |}
  else if (head l =? n) && Rltb (z_tail l) (z_head l)
  then Some {| via := link_id l; to := tail l; drop := (- slope l)%R |}
  else None.

Fixpoint candidates (n : Z) (links : list link) : list candidate :=
  match links with
  | [] => []
  | l :: links' =>
      match outgoing n l with
      | Some c => c :: candidates n links'
      | None => candidates n links'
      end
  end.

(** Step 3, as the router scans the links: the choice made so far is
    replaced when a link is strictly steeper, so that the first link met
    wins a tie. *)
Fixpoint steepest_from (best : candidate) (cs : list candidate) : candidate :=
  match cs with
  | [] => best
  | c :: cs' =>
      if Rltb (drop best) (drop c)
      then steepest_from c cs'
      else steepest_from best cs'
  end.

(** Step 4: the choice the router starts from, the node as its own
    receiver, with slope 0 and no link. *)
Definition no_outflow (n : Z) : candidate :=
  {| via := UNDEFINED_INDEX; to := n; drop := 0%R |}.

(** Steps 3 to 5 for one node: receiver, slope, link. The steepest slope
    found so far starts at 0, as in the router of landlab
    ([steepest_slope = numpy.zeros(num_nodes)], a link being taken when its
    slope is larger than [steepest_slope] of its higher end). *)
Definition route_node (links : list link) (n : Z) : Z * R * Z :=
  let c := steepest_from (no_outflow n) (candidates n links) in
  (to c, drop c, via c).

(** Modelled from the spec: [flow_direction_DN.flow_directions] is not in
    the sources at hand. Receiver, slope and link follow section 4.3, node
    by node. [direct_flow] hands the router the base-level nodes it has
    found in its step 2; as the router of landlab does with its
    [baselevel_nodes] argument, they are then made their own receivers,
    with slope 0 and no receiver link, whatever their links:
      [receiver[baselevel_nodes] = node_id[baselevel_nodes]],
      [receiver_link[baselevel_nodes] = UNDEFINED_INDEX],
      [steepest_slope[baselevel_nodes] = 0.].
    The returned [sink] array lists the nodes that are their own receiver,
    [numpy.where(node_id == receiver)]: section 4.3 leaves the base-level
    nodes out of it, but the doctest of [FlowDirectorD8] (a 3 by 3 grid
    with one open side) flags every boundary node, the open ones included.
    The result is [(receiver, steepest_slope, sink, receiver_link)]. *)
Definition flow_directions (elev : list R)
  (active_links tail_node head_node : list Z) (link_slope : list R)
  (baselevel_nodes : list Z)
  : outcome (list Z * list R * list Z * list Z) :=
  links <~ zip_links elev active_links tail_node head_node link_slope ;;
  let node_id := arange (Z.of_nat (length elev)) in
  let routed := map (route_node links) node_id in
  let receiver := map (fun r => fst (fst r)) routed in
  let steepest_slope := map (fun r => snd (fst r)) routed in
  let receiver_link := map (fun r => snd r) routed in
  (* base-level nodes are their own receivers *)
  baselevel_ids <~ lift IndexError (take node_id baselevel_nodes) ;;
  receiver <~ lift IndexError
                (put_array receiver baselevel_nodes baselevel_ids) ;;
  receiver_link <~ lift IndexError
                     (fill_at receiver_link baselevel_nodes UNDEFINED_INDEX) ;;
  steepest_slope <~ lift IndexError
                      (fill_at steepest_slope baselevel_nodes 0%R) ;;
  same <~ lift ValueError (map2 Z.eqb node_id receiver) ;;
  let sink := where_ same in
  Ok (receiver, steepest_slope, sink, receiver_link).

(** *** The component *)

(** The state of a [FlowDirectorD8] object. [_bc_set_code] is [None] as
    long as no boundary version has been recorded. *)
Record FlowDirectorD8 : Type := {
  _is_Voroni : bool;
  _bc_set_code : option Z;
  _active_links : list Z;
  _activelink_tail : list Z;
  _activelink_head : list Z;
  sink : list Z
}.

(** The component together with the grid object it refers to: the grid is
    shared with the caller, who mutates it between two steps. *)
Record World : Type := {
  grid : ModelGrid;
  self : FlowDirectorD8
}.

(** [self.elevs]: the surface field of the grid. *)
Definition elevs (w : World) : list R :=
  topographic__elevation (at_node (grid w)).

(** Modelled from the spec: [_FlowDirectorToOne.__init__] is not in the
    sources at hand. The orchestrator starts in state STALE, with no
    boundary version recorded (section 4.4). *)
Definition _FlowDirectorToOne__init__ (g : ModelGrid) : World :=
  {| grid := g;
     self := {| _is_Voroni := false;
                _bc_set_code := None;
                _active_links := [];
                _activelink_tail := [];
                _activelink_head := [];
                sink := [] |} |}.

Definition updated_boundary_conditions (w : World) : outcome World :=
  '(dal, d8t, d8h) <~ _d8_active_links (grid w) ;;
  Ok {| grid := grid w;
        self := {| _is_Voroni := _is_Voroni (self w);
                   _bc_set_code := _bc_set_code (self w);
                   _active_links := dal;
                   _activelink_tail := d8t;
                   _activelink_head := d8h;
                   sink := sink (self w) |} |}.

(** [FlowDirectorD8.__init__(grid, surface)] *)
Definition __init__ (g : ModelGrid) : outcome World :=
  let w := _FlowDirectorToOne__init__ g in
  let w := {| grid := grid w;
              self := {| _is_Voroni := isinstance_VoronoiDelaunayGrid (grid w);
                         _bc_set_code := _bc_set_code (self w);
                         _active_links := _active_links (self w);
                         _activelink_tail := _activelink_tail (self w);
                         _activelink_head := _activelink_head (self w);
                         sink := sink (self w) |} |} in
  if _is_Voroni (self w)
  then Raise NotImplementedError
  else updated_boundary_conditions w.

(** [self._bc_set_code != self.grid.bc_set_code] *)
Definition bc_set_code_differs (w : World) : bool :=
  match _bc_set_code (self w) with
  | Some c => negb (c =? bc_set_code (grid w))
  | None => true
  end.

Definition record_bc_set_code (w : World) : World :=
  {| grid := grid w;
     self := {| _is_Voroni := _is_Voroni (self w);
                _bc_set_code := Some (bc_set_code (grid w));
                _active_links := _active_links (self w);
                _activelink_tail := _activelink_tail (self w);
                _activelink_head := _activelink_head (self w);
                sink := sink (self w) |} |}.

(** The status mask of step 2 of [direct_flow]. *)
Definition is_baselevel (status : Z) : bool :=
  (status =? FIXED_VALUE_BOUNDARY) || (status =? FIXED_GRADIENT_BOUNDARY).

(** [FlowDirectorD8.direct_flow()]: the new state and the returned
    receiver array. *)
Definition direct_flow (w : World) : outcome (World * list Z) :=
  (* step 0. Check and update BCs *)
  w <~ (if bc_set_code_differs w
        then w <~ updated_boundary_conditions w ;; Ok (record_bc_set_code w)
        else Ok w) ;;
  (* step 1. Calculate link slopes. *)
  gradients <~ _calculate_gradients_at_d8_active_links (grid w) (elevs w) ;;
  let link_slope := map Ropp gradients in
  (* Step 2. Find and save base level nodes. *)
  let baselevel_nodes := where_ (map is_baselevel (status_at_node (grid w))) in
  (* Calculate flow directions by D8 method *)
  '(receiver, steepest_slope, sink_, recvr_link) <~
    flow_directions (elevs w) (_active_links (self w))
      (_activelink_tail (self w)) (_activelink_head (self w)) link_slope
      baselevel_nodes ;;
  (* Save the four ouputs of this component. *)
  let fields := at_node (grid w) in
  f_receiver <~ assign_all (flow__receiver_node fields) receiver ;;
  f_slope <~ assign_all (topographic__steepest_slope fields) steepest_slope ;;
  f_link <~ assign_all (flow__link_to_receiver_node fields) recvr_link ;;
  f_sink <~ assign_all (flow__sink_flag fields)
              (map (fun _ => false) receiver) ;;
  f_sink <~ lift IndexError (fill_at f_sink sink_ true) ;;
  Ok ({| grid := {| class_of := class_of (grid w);
                    status_at_node := status_at_node (grid w);
                    bc_set_code := bc_set_code (grid w);
                    d8_link_tail := d8_link_tail (grid w);
                    d8_link_head := d8_link_head (grid w);
                    d8_link_length := d8_link_length (grid w);
                    at_node :=
                      {| topographic__elevation := topographic__elevation fields;
                         flow__receiver_node := f_receiver;
                         topographic__steepest_slope := f_slope;
                         flow__link_to_receiver_node := f_link;
                         flow__sink_flag := f_sink |} |};
         self := {| _is_Voroni := _is_Voroni (self w);
                    _bc_set_code := _bc_set_code (self w);
                    _active_links := _active_links (self w);
                    _activelink_tail := _activelink_tail (self w);
                    _activelink_head := _activelink_head (self w);
                    sink := sink_ |} |},
      receiver).

(** [FlowDirectorD8.run_one_step()] *)
Definition run_one_step (w : World) : outcome World :=
  r <~ direct_flow w ;; Ok (fst r).

End flow_director.

(** ** [direct_flow] cut in stages, and the notions used to state its
    properties *)

Module stages.

Import Py structured_grid flow_director.
Open Scope Z_scope.

(** Step 0 of [direct_flow]. *)
Definition check_bcs (w : World) : outcome World :=
  if bc_set_code_differs w
  then w <~ updated_boundary_conditions w ;; Ok (record_bc_set_code w)
  else Ok w.

(** Steps 1 and 2 and the call of the router. *)
Definition route (w : World)
  : outcome (list Z * list R * list Z * list Z) :=
  gradients <~ _calculate_gradients_at_d8_active_links (grid w) (elevs w) ;;
  flow_directions (elevs w) (_active_links (self w))
    (_activelink_tail (self w)) (_activelink_head (self w))
    (map Ropp gradients)
    (where_ (map is_baselevel (status_at_node (grid w)))).

(** The end of [direct_flow]: the results are saved. *)
Definition publish (w : World) (res : list Z * list R * list Z * list Z)
  : outcome (World * list Z) :=
  let '(receiver, steepest_slope, sink_, recvr_link) := res in
  let fields := at_node (grid w) in
  f_receiver <~ assign_all (flow__receiver_node fields) receiver ;;
  f_slope <~ assign_all (topographic__steepest_slope fields) steepest_slope ;;
  f_link <~ assign_all (flow__link_to_receiver_node fields) recvr_link ;;
  f_sink <~ assign_all (flow__sink_flag fields)
              (map (fun _ => false) receiver) ;;
  f_sink <~ lift IndexError (fill_at f_sink sink_ true) ;;
  Ok ({| grid := {| class_of := class_of (grid w);
                    status_at_node := status_at_node (grid w);
                    bc_set_code := bc_set_code (grid w);
                    d8_link_tail := d8_link_tail (grid w);
                    d8_link_head := d8_link_head (grid w);
                    d8_link_length := d8_link_length (grid w);
                    at_node :=
                      {| topographic__elevation := topographic__elevation fields;
                         flow__receiver_node := f_receiver;
                         topographic__steepest_slope := f_slope;
                         flow__link_to_receiver_node := f_link;
                         flow__sink_flag := f_sink |} |};
         self := {| _is_Voroni := _is_Voroni (self w);
                    _bc_set_code := _bc_set_code (self w);
                    _active_links := _active_links (self w);
                    _activelink_tail := _activelink_tail (self w);
                    _activelink_head := _activelink_head (self w);
                    sink := sink_ |} |},
      receiver).

(** The four output arrays of the grid have one entry per node. *)
Definition sized (g : ModelGrid) : bool :=
  let n := length (topographic__elevation (at_node g)) in
  (length (flow__receiver_node (at_node g)) =? n)%nat
  && (length (topographic__steepest_slope (at_node g)) =? n)%nat
  && (length (flow__link_to_receiver_node (at_node g)) =? n)%nat
  && (length (flow__sink_flag (at_node g)) =? n)%nat.

(** The active links kept by the component are those of the current
    statuses of the grid. *)
Definition cache_fresh (w : World) : Prop :=
  _d8_active_links (grid w)
  = Ok (_active_links (self w), _activelink_tail (self w),
        _activelink_head (self w)).

(** State FRESH of section 4.4, or a version mismatch that the next step
    will see. *)
Definition cache_ok (w : World) : Prop :=
  bc_set_code_differs w = true \/ cache_fresh w.

(** Link [L] of the D8 table, from [t] to [h], is active under the
    current statuses. *)
Definition active_link (g : ModelGrid) (L t h : Z) : Prop :=
  item (d8_link_tail g) L = Some t /\
  item (d8_link_head g) L = Some h /\
  0 <= L /\
  exists st sh,
    item (status_at_node g) t = Some st /\
    item (status_at_node g) h = Some sh /\
    is_active st sh = true.

(** Node [n] has the active outgoing link [L] to its neighbour [m], with
    downhill gradient [d = (elev[n] - elev[m]) / length(L)]: [n] is the
    strictly higher end of [L]. *)
Definition outflow (g : ModelGrid) (n L m : Z) (d : R) : Prop :=
  exists t h zn zm len,
    active_link g L t h /\
    ((t = n /\ h = m) \/ (h = n /\ t = m)) /\
    node_value (topographic__elevation (at_node g)) n = Some zn /\
    node_value (topographic__elevation (at_node g)) m = Some zm /\
    (zm < zn)%R /\
    item (d8_link_length g) L = Some len /\
    d = ((zn - zm) / len)%R.

(** What [flow_directions] leaves for node [n]: a base-level node is its
    own receiver, with slope 0 and no link; any other node has the result
    of [route_node]. *)
Definition routed_node (links : list link) (baselevel_nodes : list Z) (n : Z)
  : Z * R * Z :=
  if contains n baselevel_nodes
  then (n, 0%R, UNDEFINED_INDEX)
  else route_node links n.

(** The base-level nodes found by step 2 of [direct_flow]. *)
Definition baselevel_nodes_of (g : ModelGrid) : list Z :=
  where_ (map is_baselevel (status_at_node g)).

(** The three per-node arrays and the sink list built from a list of
    links and the base-level nodes, as in [flow_directions]. *)
Definition routed_arrays (links : list link) (baselevel_nodes : list Z)
  (n : nat) (res : list Z * list R * list Z * list Z) : Prop :=
  let '(receiver, steepest_slope, sink_, recvr_link) := res in
  let routed :=
    map (routed_node links baselevel_nodes) (arange (Z.of_nat n)) in
  receiver = map (fun r => fst (fst r)) routed /\
  steepest_slope = map (fun r => snd (fst r)) routed /\
  recvr_link = map (fun r => snd r) routed /\
  exists same,
    map2 Z.eqb (arange (Z.of_nat n)) receiver = Some same /\
    sink_ = where_ same.

(** The links of a step whose cache is fresh. *)
Definition fresh_links (g : ModelGrid) (links : list link) : Prop :=
  (forall l, In l links ->
     exists len,
       active_link g (link_id l) (tail l) (head l) /\
       node_value (topographic__elevation (at_node g)) (tail l)
         = Some (z_tail l) /\
       node_value (topographic__elevation (at_node g)) (head l)
         = Some (z_head l) /\
       item (d8_link_length g) (link_id l) = Some len /\
       slope l = (- ((z_head l - z_tail l) / len))%R) /\
  (forall L t h, active_link g L t h ->
     exists l, In l links /\ link_id l = L /\ tail l = t /\ head l = h).

(** The link table of the grid is well formed: a tail and a head for every
    link, both nodes of the grid. *)
Definition tables_ok (g : ModelGrid) : bool :=
  let is_node i := (0 <=? i) && (i <? Z.of_nat (length (status_at_node g))) in
  forallb is_node (d8_link_tail g)
  && forallb is_node (d8_link_head g)
  && (length (d8_link_tail g) =? length (d8_link_head g))%nat.

(** A well-formed grid: a well-formed link table with a length for every
    link, an elevation for every node, output arrays sized to the node
    count. *)
Definition grid_ok (g : ModelGrid) : bool :=
  tables_ok g
  && sized g
  && (length (d8_link_length g) =? length (d8_link_tail g))%nat
  && (length (topographic__elevation (at_node g))
      =? length (status_at_node g))%nat.

(** The caller closes or opens boundaries between two steps. *)
Definition mutate_status (w : World) (status : list Z) : World :=
  {| grid := set_status_at_node (grid w) status; self := self w |}.

(** The caller changes the elevation field between two steps. *)
Definition set_elevation (w : World) (elevation : list R) : World :=
  {| grid := {| class_of := class_of (grid w);
                status_at_node := status_at_node (grid w);
                bc_set_code := bc_set_code (grid w);
                d8_link_tail := d8_link_tail (grid w);
                d8_link_head := d8_link_head (grid w);
                d8_link_length := d8_link_length (grid w);
                at_node :=
                  {| topographic__elevation := elevation;
                     flow__receiver_node :=
                       flow__receiver_node (at_node (grid w));
                     topographic__steepest_slope :=
                       topographic__steepest_slope (at_node (grid w));
                     flow__link_to_receiver_node :=
                       flow__link_to_receiver_node (at_node (grid w));
                     flow__sink_flag := flow__sink_flag (at_node (grid w)) |} |};
     self := self w |}.

(** The states of a component in use: constructed, then stepped, with
    boundary and elevation changes by the caller in between. *)
Inductive reachable : World -> Prop :=
| reach_init (g : ModelGrid) (w : World) :
    __init__ g = Ok w -> reachable w
| reach_step (w w' : World) (r : list Z) :
    reachable w -> direct_flow w = Ok (w', r) -> reachable w'
| reach_status (w : World) (status : list Z) :
    reachable w -> reachable (mutate_status w status)
| reach_elevation (w : World) (elevation : list R) :
    reachable w -> reachable (set_elevation w elevation).

(** The recorded boundary version is never ahead of the grid. *)
Definition version_behind (w : World) : Prop :=
  match _bc_set_code (self w) with
  | Some c => c <= bc_set_code (grid w)
  | None => True
  end.

End stages.

(** ** Raster grids for the scenarios of the doctest *)

Module scenario.

Import Py structured_grid flow_director stages.
Open Scope Z_scope.

(** Modelled from the spec: the diagonal links of a raster grid are built
    by the grid collaborator. Every square of four nodes carries two of
    them, from its lower left to its upper right node and from its lower
    right to its upper left node; they are numbered square by square. *)
Definition diagonal_link_index (shape : shape_t) : list Z * list Z :=
  let squares :=
    flat_map (fun r => map (fun c => r * ncols shape + c)
                         (xrange 0 (ncols shape - 1)))
             (xrange 0 (nrows shape - 1)) in
  (flat_map (fun n => [n; n + 1]) squares,
   flat_map (fun n => [n + ncols shape + 1; n + ncols shape]) squares).

(** Modelled from the spec: a [RasterModelGrid] of the given shape and
    node spacing: the orthogonal links of [node_link_index] followed by the
    diagonal links, of lengths [spacing] and [sqrt 2 * spacing] (section
    3), the given statuses and elevations, and the four output arrays
    sized to the node count. *)
Definition raster_model_grid (shape : shape_t) (spacing : R)
  (status : list Z) (elevation : list R) : ModelGrid :=
  let orthogonal := node_link_index shape in
  let diagonal := diagonal_link_index shape in
  let n := Z.to_nat (node_count shape) in
  {| class_of := RasterModelGrid;
     status_at_node := status;
     bc_set_code := 0;
     d8_link_tail := fst orthogonal ++ fst diagonal;
     d8_link_head := snd orthogonal ++ snd diagonal;
     d8_link_length :=
       map (fun _ => spacing) (fst orthogonal)
       ++ map (fun _ => (sqrt 2 * spacing)%R) (fst diagonal);
     at_node :=
       {| topographic__elevation := elevation;
          flow__receiver_node := repeat 0 n;
          topographic__steepest_slope := repeat 0%R n;
          flow__link_to_receiver_node := repeat 0 n;
          flow__sink_flag := repeat false n |} |}.

(** Elevation [x + y] on the 3 by 3 grid with unit spacing. *)
Definition elevation_x_plus_y : list R :=
  [0; 1; 2; 1; 2; 3; 2; 3; 4]%R.

(** Three sides closed, the bottom side (nodes 0, 1, 2) open. *)
Definition status_bottom_open : list Z :=
  [FIXED_VALUE_BOUNDARY; FIXED_VALUE_BOUNDARY; FIXED_VALUE_BOUNDARY;
   INACTIVE_BOUNDARY; INTERIOR_NODE; INACTIVE_BOUNDARY;
   INACTIVE_BOUNDARY; INACTIVE_BOUNDARY; INACTIVE_BOUNDARY].

(** Three sides closed, the east side (nodes 2, 5, 8) open. *)
Definition status_east_open : list Z :=
  [INACTIVE_BOUNDARY; INACTIVE_BOUNDARY; FIXED_VALUE_BOUNDARY;
   INACTIVE_BOUNDARY; INTERIOR_NODE; FIXED_VALUE_BOUNDARY;
   INACTIVE_BOUNDARY; INACTIVE_BOUNDARY; FIXED_VALUE_BOUNDARY].

(** The same with the two corners of the east side closed. *)
Definition status_east_open_corners_closed : list Z :=
  [INACTIVE_BOUNDARY; INACTIVE_BOUNDARY; INACTIVE_BOUNDARY;
   INACTIVE_BOUNDARY; INTERIOR_NODE; FIXED_VALUE_BOUNDARY;
   INACTIVE_BOUNDARY; INACTIVE_BOUNDARY; INACTIVE_BOUNDARY].

Definition grid_3x3 (status : list Z) : ModelGrid :=
  raster_model_grid (3, 3)%nat 1%R status elevation_x_plus_y.

(** The four published arrays of a grid. *)
Definition outputs (g : ModelGrid)
  : list Z * list R * list Z * list bool :=
  (flow__receiver_node (at_node g),
   topographic__steepest_slope (at_node g),
   flow__link_to_receiver_node (at_node g),
   flow__sink_flag (at_node g)).

(** The arrays printed by the doctest of [FlowDirectorD8]. *)
Definition doctest_outputs : list Z * list R * list Z * list bool :=
  ([0; 1; 2; 3; 0; 5; 6; 7; 8],
   [0; 0; 0; 0; sqrt 2; 0; 0; 0; 0]%R,
   [-1; -1; -1; -1; 12; -1; -1; -1; -1],
   [true; true; true; true; false; true; true; true; true]).

(** The component before its first step, on the grid of the doctest. *)
Definition doctest_start : World :=
  _FlowDirectorToOne__init__ (grid_3x3 status_bottom_open).

(** The bottom left corner (node 0) closed after the first step. *)
Definition status_corner_closed : list Z :=
  [INACTIVE_BOUNDARY; FIXED_VALUE_BOUNDARY; FIXED_VALUE_BOUNDARY;
   INACTIVE_BOUNDARY; INTERIOR_NODE; INACTIVE_BOUNDARY;
   INACTIVE_BOUNDARY; INACTIVE_BOUNDARY; INACTIVE_BOUNDARY].

(** An irregular grid of three nodes. *)
Definition irregular_grid : ModelGrid :=
  {| class_of := VoronoiDelaunayGrid;
     status_at_node := [FIXED_VALUE_BOUNDARY; INTERIOR_NODE; FIXED_VALUE_BOUNDARY];
     bc_set_code := 0;
     d8_link_tail := [0; 1];
     d8_link_head := [1; 2];
     d8_link_length := [1; 1]%R;
     at_node :=
       {| topographic__elevation := [0; 1; 2]%R;
          flow__receiver_node := [0; 0; 0];
          topographic__steepest_slope := [0; 0; 0]%R;
          flow__link_to_receiver_node := [0; 0; 0];
          flow__sink_flag := [false; false; false] |} |}.

(** The second grid of the doctest: 5 by 4 nodes, unit spacing, a basin
    in the interior. *)
Definition elevation_basin : list R :=
  [ 0;  0;  0; 0;
    0; 21; 10; 0;
    0; 31; 20; 0;
    0; 32; 30; 0;
    0;  0;  0; 0]%R.

(** Three sides closed, the bottom side (nodes 0 to 3) open. *)
Definition status_5x4_bottom_open : list Z :=
  [FIXED_VALUE_BOUNDARY; FIXED_VALUE_BOUNDARY; FIXED_VALUE_BOUNDARY;
   FIXED_VALUE_BOUNDARY;
   INACTIVE_BOUNDARY; INTERIOR_NODE; INTERIOR_NODE; INACTIVE_BOUNDARY;
   INACTIVE_BOUNDARY; INTERIOR_NODE; INTERIOR_NODE; INACTIVE_BOUNDARY;
   INACTIVE_BOUNDARY; INTERIOR_NODE; INTERIOR_NODE; INACTIVE_BOUNDARY;
   INACTIVE_BOUNDARY; INACTIVE_BOUNDARY; INACTIVE_BOUNDARY;
   INACTIVE_BOUNDARY].

Definition grid_5x4 (status : list Z) : ModelGrid :=
  raster_model_grid (5, 4)%nat 1%R status elevation_basin.

(** The links handed to the router at the first step on a grid. *)
Definition first_step_links (g : ModelGrid) : outcome (list link) :=
  w <~ __init__ g ;;
  w <~ check_bcs w ;;
  gradients <~ _calculate_gradients_at_d8_active_links (grid w) (elevs w) ;;
  zip_links (elevs w) (_active_links (self w)) (_activelink_tail (self w))
    (_activelink_head (self w)) (map Ropp gradients).

Definition links_5x4 : list link :=
  Eval cbv -[IZR sqrt Rdiv Rminus Ropp Rmult Rplus Rinv] in
    match first_step_links (grid_5x4 status_5x4_bottom_open) with
    | Ok links => links
    | Raise _ => []
    end.

(** The same grid with the east side (nodes 3, 7, 11, 15, 19) open and
    the three other sides closed. *)
Definition status_5x4_east_open : list Z :=
  [INACTIVE_BOUNDARY; INACTIVE_BOUNDARY; INACTIVE_BOUNDARY;
   FIXED_VALUE_BOUNDARY;
   INACTIVE_BOUNDARY; INTERIOR_NODE; INTERIOR_NODE; FIXED_VALUE_BOUNDARY;
   INACTIVE_BOUNDARY; INTERIOR_NODE; INTERIOR_NODE; FIXED_VALUE_BOUNDARY;
   INACTIVE_BOUNDARY; INTERIOR_NODE; INTERIOR_NODE; FIXED_VALUE_BOUNDARY;
   INACTIVE_BOUNDARY; INACTIVE_BOUNDARY; INACTIVE_BOUNDARY;
   FIXED_VALUE_BOUNDARY].

Definition links_5x4_east_open : list link :=
  Eval cbv -[IZR sqrt Rdiv Rminus Ropp Rmult Rplus Rinv] in
    match first_step_links (grid_5x4 status_5x4_east_open) with
    | Ok links => links
    | Raise _ => []
    end.

(** Construct the component on a grid and run one step. *)
Definition construct_and_run (g : ModelGrid) : outcome World :=
  w <~ __init__ g ;; run_one_step w.

End scenario.

(** * Properties *)

Unset Implicit Arguments.

Section PyFacts.

Import Py.
Open Scope Z_scope.

Lemma bind_Some {A B : Type} (m : option A) (k : A -> option B) (b : B) :
  bind m k = Some b -> exists a, m = Some a /\ k a = Some b.
Proof. destruct m as [a|]; simpl; intros H; [eauto | discriminate]. Qed.

Lemma position_in_range (n : nat) (i : Z) :
  0 <= i < Z.of_nat n -> position n i = Some (Z.to_nat i).
Proof.
  intros H. unfold position.
  destruct (0 <=? i) eqn:E1; [| lia].
  destruct (i <? Z.of_nat n) eqn:E2; [reflexivity | lia].
Qed.

Lemma item_in_range {A : Type} (a : list A) (i : Z) :
  0 <= i < Z.of_nat (length a) -> exists x, item a i = Some x.
Proof.
  intros H. unfold item. rewrite position_in_range by exact H. simpl.
  destruct (nth_error a (Z.to_nat i)) eqn:E; [eauto |].
  apply nth_error_None in E. lia.
Qed.

Lemma take_total {A : Type} (a : list A) (idx : list Z) :
  (forall i, In i idx -> 0 <= i < Z.of_nat (length a)) ->
  exists xs, take a idx = Some xs.
Proof.
  induction idx as [|i idx IH]; intros H; simpl; [eauto |].
  destruct (item_in_range a i) as [x Hx]; [apply H; now left |].
  destruct IH as [xs Hxs]; [intros j Hj; apply H; now right |].
  rewrite Hx, Hxs. simpl. eauto.
Qed.

Lemma take_nth {A : Type} (a : list A) (idx : list Z) (xs : list A) :
  take a idx = Some xs ->
  forall k i, nth_error idx k = Some i ->
    exists x, item a i = Some x /\ nth_error xs k = Some x.
Proof.
  revert xs. induction idx as [|j idx IH]; intros xs H k i Hk.
  - destruct k; discriminate.
  - simpl in H. apply bind_Some in H as [x [Hx H]].
    apply bind_Some in H as [ys [Hys H]]. injection H as <-.
    destruct k as [|k]; simpl in *.
    + injection Hk as ->. eauto.
    + eapply IH; eauto.
Qed.

Lemma take_length {A : Type} (a : list A) (idx : list Z) (xs : list A) :
  take a idx = Some xs -> length xs = length idx.
Proof.
  revert xs. induction idx as [|j idx IH]; intros xs H; simpl in H.
  - now injection H as <-.
  - apply bind_Some in H as [x [Hx H]].
    apply bind_Some in H as [ys [Hys H]]. injection H as <-.
    simpl. f_equal. now apply IH.
Qed.

Lemma map2_total {A B C : Type} (f : A -> B -> C) (a : list A) (b : list B) :
  length a = length b -> exists r, map2 f a b = Some r.
Proof.
  revert b. induction a as [|x a IH]; intros [|y b] H; simpl in *;
    try discriminate; [eauto |].
  destruct (IH b) as [r Hr]; [lia |]. rewrite Hr. simpl. eauto.
Qed.

Lemma map2_nth {A B C : Type} (f : A -> B -> C) (a : list A) (b : list B)
  (r : list C) :
  map2 f a b = Some r ->
  forall k x y, nth_error a k = Some x -> nth_error b k = Some y ->
    nth_error r k = Some (f x y).
Proof.
  revert b r. induction a as [|x0 a IH]; intros [|y0 b] r H k x y Hx Hy;
    simpl in H; try discriminate; try (destruct k; discriminate).
  apply bind_Some in H as [r' [Hr' H]]. injection H as <-.
  destruct k as [|k]; simpl in *.
  - now injection Hx as ->; injection Hy as ->.
  - eapply IH; eauto.
Qed.

Lemma map2_length {A B C : Type} (f : A -> B -> C) (a : list A) (b : list B)
  (r : list C) :
  map2 f a b = Some r -> length r = length a.
Proof.
  revert b r. induction a as [|x0 a IH]; intros [|y0 b] r H;
    simpl in H; try discriminate.
  - now injection H as <-.
  - apply bind_Some in H as [r' [Hr' H]]. injection H as <-.
    simpl. f_equal. eauto.
Qed.

Lemma int64_iff (x y : Z) :
  int64 x = Some y <-> y = x /\ - 2 ^ 63 <= x < 2 ^ 63.
Proof.
  unfold int64.
  destruct ((- 2 ^ 63 <=? x) && (x <? 2 ^ 63)) eqn:E.
  - apply andb_true_iff in E as [E1 E2].
    apply Z.leb_le in E1. apply Z.ltb_lt in E2.
    split; [intros [= <-]; auto | intros [-> _]; reflexivity].
  - split; [discriminate |]. intros [_ [H1 H2]].
    apply Z.leb_le in H1. apply Z.ltb_lt in H2.
    rewrite H1, H2 in E. discriminate.
Qed.

Lemma int64_fits (x : Z) : - 2 ^ 63 <= x < 2 ^ 63 -> int64 x = Some x.
Proof. intros H. now apply int64_iff. Qed.

Lemma int8_fits (x : Z) : -128 <= x <= 127 -> int8 x = Some x.
Proof.
  intros H. unfold int8. rewrite int64_fits.
  - cbn [bind]. rewrite Z.mod_small by lia. f_equal. lia.
  - change (2 ^ 63) with 9223372036854775808. lia.
Qed.

Lemma broadcast2_same {A B C : Type} (f : A -> B -> C) (a : list A)
  (b : list B) :
  length a = length b -> broadcast2 f a b = map2 f a b.
Proof. intros H. unfold broadcast2. now rewrite H, Nat.eqb_refl. Qed.

Lemma broadcast2_nth {A B C : Type} (f : A -> B -> C) (a : list A)
  (b : list B) (r : list C) :
  broadcast2 f a b = Some r ->
  forall k x y, nth_error a k = Some x -> nth_error b k = Some y ->
    nth_error r k = Some (f x y).
Proof.
  unfold broadcast2. destruct (length a =? length b)%nat; [apply map2_nth |].
  intros H k x y Hx Hy.
  destruct a as [|x0 [|x1 a]].
  - destruct k; discriminate.
  - injection H as <-.
    destruct k as [|k]; [| destruct k; discriminate].
    simpl in Hx. injection Hx as ->. rewrite nth_error_map, Hy. reflexivity.
  - destruct b as [|y0 [|y1 b]]; try discriminate. injection H as <-.
    destruct k as [|k]; [| destruct k; discriminate].
    simpl in Hy. injection Hy as ->. simpl in Hx. injection Hx as ->.
    reflexivity.
Qed.

Lemma where_from_In (mask : list bool) (k0 k : Z) :
  In k (where_from k0 mask) <->
  k0 <= k /\ nth_error mask (Z.to_nat (k - k0)) = Some true.
Proof.
  revert k0. induction mask as [|b mask IH]; intros k0; simpl.
  - split; [tauto |]. intros [_ H]. destruct (Z.to_nat (k - k0)); discriminate.
  - assert (Hstep : In k (where_from (k0 + 1) mask) <->
                    k0 < k /\ nth_error (b :: mask) (Z.to_nat (k - k0)) = Some true).
    { rewrite IH. split; intros [H1 H2]; (split; [lia |]).
      - replace (Z.to_nat (k - k0)) with (S (Z.to_nat (k - (k0 + 1)))) by lia.
        exact H2.
      - replace (Z.to_nat (k - k0)) with (S (Z.to_nat (k - (k0 + 1)))) in H2 by lia.
        exact H2. }
    destruct b; simpl; rewrite ?Hstep.
    + split.
      * intros [<- | [H1 H2]]; [| split; [lia | exact H2]].
        split; [lia |]. now replace (k0 - k0) with 0 by lia.
      * intros [H1 H2]. destruct (Z.eq_dec k0 k) as [-> | Hne]; [now left |].
        right. split; [lia | exact H2].
    + split; intros [H1 H2]; [split; [lia | exact H2] |].
      split; [| exact H2].
      destruct (Z.eq_dec k0 k) as [-> | Hne]; [| lia].
      replace (k - k) with 0 in H2 by lia. discriminate.
Qed.

Lemma where_In (mask : list bool) (k : nat) :
  In (Z.of_nat k) (where_ mask) <-> nth_error mask k = Some true.
Proof.
  unfold where_. rewrite where_from_In.
  replace (Z.to_nat (Z.of_nat k - 0)) with k by lia.
  split; [tauto | intros H; split; [lia | exact H]].
Qed.

Lemma where_bound (mask : list bool) (k : Z) :
  In k (where_ mask) -> 0 <= k < Z.of_nat (length mask).
Proof.
  unfold where_. rewrite where_from_In. intros [H1 H2].
  assert (Hlt : (Z.to_nat (k - 0) < length mask)%nat).
  { apply nth_error_Some. congruence. }
  lia.
Qed.

End PyFacts.

(** ** The link tables of a shape *)

Section LinkTables.

Import Py structured_grid.
Open Scope Z_scope.

Lemma slice_incl {A : Type} (lo hi : option Z) (l : list A) (x : A) :
  In x (slice lo hi l) -> In x l.
Proof.
  unfold slice. intros H.
  set (a := match lo with Some i => clamp _ i | None => 0 end) in *.
  set (n := Z.to_nat _) in H.
  rewrite <- (firstn_skipn (Z.to_nat a) l). apply in_or_app. right.
  rewrite <- (firstn_skipn n (skipn (Z.to_nat a) l)). apply in_or_app. now left.
Qed.

Lemma flat_slice2_incl {A : Type} (rlo rhi clo chi : option Z)
  (m : list (list A)) (x : A) :
  In x (flat (slice2 rlo rhi clo chi m)) -> In x (flat m).
Proof.
  unfold flat, slice2. rewrite !in_concat.
  intros [row [Hrow Hx]]. apply in_map_iff in Hrow as [row0 [<- Hrow0]].
  exists row0. split; [eapply slice_incl; eauto | eapply slice_incl; eauto].
Qed.

Lemma flat_reshape_incl {A : Type} (rows cols : nat) (l : list A) (x : A) :
  In x (flat (reshape rows cols l)) -> In x l.
Proof.
  unfold flat. revert l. induction rows as [|r IH]; intros l; simpl; [tauto |].
  rewrite in_app_iff. intros [H | H].
  - rewrite <- (firstn_skipn cols l). apply in_or_app. now left.
  - rewrite <- (firstn_skipn cols l). apply in_or_app. right. now apply IH.
Qed.

Lemma xrange_In (start stop x : Z) :
  In x (xrange start stop) -> start <= x < stop.
Proof.
  unfold xrange. rewrite in_map_iff. intros [k [<- Hk]].
  apply in_seq in Hk. lia.
Qed.

Lemma node_id_grid_range (shape : shape_t) (x : Z) :
  In x (flat (node_id_grid shape)) -> 0 <= x < node_count shape.
Proof.
  unfold node_id_grid. intros H. apply flat_reshape_incl in H.
  unfold arange in H. now apply xrange_In in H.
Qed.

Lemma from_node_links_range (shape : shape_t) (x : Z) :
  In x (fst (node_link_index shape)) -> 0 <= x < node_count shape.
Proof.
  simpl. unfold from_node_links. rewrite in_app_iff.
  intros [H | H]; apply flat_slice2_incl in H; now apply node_id_grid_range.
Qed.

Lemma to_node_links_range (shape : shape_t) (x : Z) :
  In x (snd (node_link_index shape)) -> 0 <= x < node_count shape.
Proof.
  simpl. unfold to_node_links. rewrite in_app_iff.
  intros [H | H]; apply flat_slice2_incl in H; now apply node_id_grid_range.
Qed.

Lemma slice_tail_length {A : Type} (l : list A) :
  length (slice (Some 1) None l) = (length l - 1)%nat.
Proof.
  unfold slice, clamp. change (1 <? 0) with false. cbv iota.
  rewrite length_firstn, length_skipn. lia.
Qed.

Lemma slice_init_length {A : Type} (l : list A) :
  length (slice None (Some (-1)) l) = (length l - 1)%nat.
Proof.
  unfold slice, clamp. change (-1 <? 0) with true. cbv iota.
  rewrite length_firstn, length_skipn. lia.
Qed.

Lemma slice_all {A : Type} (l : list A) : slice None None l = l.
Proof.
  unfold slice. simpl. rewrite Z.sub_0_r, Nat2Z.id. apply firstn_all.
Qed.

Lemma reshape_rows {A : Type} (rows cols : nat) (l : list A) :
  (rows * cols <= length l)%nat ->
  length (reshape rows cols l) = rows /\
  Forall (fun row => length row = cols) (reshape rows cols l).
Proof.
  revert l. induction rows as [|r IH]; intros l H; simpl; [split; auto |].
  destruct (IH (skipn cols l)) as [H1 H2]; [rewrite length_skipn; lia |].
  split; [now f_equal |]. constructor; [| exact H2].
  rewrite length_firstn. lia.
Qed.

Lemma concat_length_uniform {A : Type} (c : nat) (m : list (list A)) :
  Forall (fun row => length row = c) m ->
  length (concat m) = (length m * c)%nat.
Proof.
  induction 1 as [|row m Hrow _ IH]; simpl; [reflexivity |].
  rewrite length_app, IH, Hrow. lia.
Qed.

Lemma Forall_slice {A : Type} (P : A -> Prop) (lo hi : option Z) (l : list A) :
  Forall P l -> Forall P (slice lo hi l).
Proof.
  rewrite !Forall_forall. intros H x Hx. apply H. eapply slice_incl; eauto.
Qed.

Lemma concat_map_length {A : Type} (f g : list A -> list A)
  (m : list (list A)) :
  (forall row, length (f row) = length (g row)) ->
  length (concat (map f m)) = length (concat (map g m)).
Proof.
  intros H. induction m as [|row m IH]; simpl; [reflexivity |].
  rewrite !length_app, IH, H. reflexivity.
Qed.

Lemma slice2_rows_all {A : Type} (clo chi : option Z) (m : list (list A)) :
  slice2 None None clo chi m = map (slice clo chi) m.
Proof. unfold slice2. now rewrite slice_all. Qed.

Lemma slice2_cols_all {A : Type} (rlo rhi : option Z) (m : list (list A)) :
  slice2 rlo rhi None None m = slice rlo rhi m.
Proof.
  unfold slice2. rewrite <- (map_id (slice rlo rhi m)) at 2.
  apply map_ext. intros row. apply slice_all.
Qed.

Lemma node_link_index_lengths (shape : shape_t) :
  length (fst (node_link_index shape)) = length (snd (node_link_index shape)).
Proof.
  simpl. unfold from_node_links, to_node_links, flat.
  rewrite !length_app, !slice2_cols_all, !slice2_rows_all.
  destruct (reshape_rows (fst shape) (snd shape) (arange (node_count shape)))
    as [Hlen Hrows].
  { unfold arange, xrange, node_count, nrows, ncols.
    rewrite length_map, length_seq. lia. }
  fold (node_id_grid shape) in Hlen, Hrows.
  rewrite (concat_length_uniform (snd shape)
             (slice None (Some (-1)) (node_id_grid shape)))
    by now apply Forall_slice.
  rewrite (concat_length_uniform (snd shape)
             (slice (Some 1) None (node_id_grid shape)))
    by now apply Forall_slice.
  rewrite slice_tail_length, slice_init_length.
  f_equal. apply concat_map_length. intros row.
  now rewrite slice_tail_length, slice_init_length.
Qed.

End LinkTables.

(** ** Active links *)

Section ActiveLinks.

Import Py structured_grid.
Open Scope Z_scope.

Lemma is_active_iff (st sh : Z) :
  is_active st sh = true <->
  (st = INTERIOR_NODE /\ sh <> INACTIVE_BOUNDARY) \/
  (sh = INTERIOR_NODE /\ st <> INACTIVE_BOUNDARY).
Proof.
  unfold is_active.
  rewrite orb_true_iff, !andb_true_iff, !negb_true_iff, !Z.eqb_eq, !Z.eqb_neq.
  reflexivity.
Qed.

(** With explicit link tables: whenever [active_links] returns, link [k] is
    listed exactly when the mask of its two end nodes holds. *)
Lemma active_links_tables (junk : Z) (shape : shape_t) (status : list Z)
  (link_from_node link_to_node act : list Z) :
  active_links junk shape (Some status) (Some (link_from_node, link_to_node))
    = Some act ->
  forall (k : nat) (tail head : Z),
    nth_error link_from_node k = Some tail ->
    nth_error link_to_node k = Some head ->
    exists st sh,
      item status tail = Some st /\ item status head = Some sh /\
      (In (Z.of_nat k) act <-> is_active st sh = true).
Proof.
  unfold active_links. simpl. intros H k tail head Ht Hh.
  apply bind_Some in H as [fs [Hfs H]].
  apply bind_Some in H as [ts [Hts H]].
  apply bind_Some in H as [mask [Hmask H]]. injection H as <-.
  destruct (take_nth _ _ _ Hfs k tail Ht) as [st [Hst Hk1]].
  destruct (take_nth _ _ _ Hts k head Hh) as [sh [Hsh Hk2]].
  exists st, sh. split; [exact Hst |]. split; [exact Hsh |].
  rewrite where_In, (broadcast2_nth _ _ _ _ Hmask k st sh Hk1 Hk2).
  split; [now intros [= ->] | now intros ->].
Qed.

Lemma active_links_nonneg (junk : Z) (shape : shape_t) (status : list Z)
  (link_from_node link_to_node act : list Z) :
  active_links junk shape (Some status) (Some (link_from_node, link_to_node))
    = Some act ->
  forall k, In k act -> 0 <= k.
Proof.
  unfold active_links. simpl. intros H k Hk.
  apply bind_Some in H as [fs [Hfs H]].
  apply bind_Some in H as [ts [Hts H]].
  apply bind_Some in H as [mask [Hmask H]]. injection H as <-.
  apply where_bound in Hk. lia.
Qed.

Lemma active_links_ids (junk : Z) (shape : shape_t) (status : list Z)
  (link_from_node link_to_node act : list Z) :
  length link_from_node = length link_to_node ->
  active_links junk shape (Some status) (Some (link_from_node, link_to_node))
    = Some act ->
  forall k, In k act -> 0 <= k < Z.of_nat (length link_from_node).
Proof.
  unfold active_links. simpl. intros Hlen H k Hk.
  apply bind_Some in H as [fs [Hfs H]].
  apply bind_Some in H as [ts [Hts H]].
  apply bind_Some in H as [mask [Hmask H]]. injection H as <-.
  rewrite broadcast2_same in Hmask
    by (rewrite (take_length _ _ _ Hfs), (take_length _ _ _ Hts); exact Hlen).
  apply where_bound in Hk.
  now rewrite (map2_length _ _ _ _ Hmask), (take_length _ _ _ Hfs) in Hk.
Qed.

Lemma active_links_total (junk : Z) (shape : shape_t) (status : list Z)
  (link_from_node link_to_node : list Z) :
  (forall i, In i link_from_node -> 0 <= i < Z.of_nat (length status)) ->
  (forall i, In i link_to_node -> 0 <= i < Z.of_nat (length status)) ->
  length link_from_node = length link_to_node ->
  exists act,
    active_links junk shape (Some status) (Some (link_from_node, link_to_node))
      = Some act.
Proof.
  intros Hf Ht Hlen. unfold active_links. simpl.
  destruct (take_total status link_from_node Hf) as [fs Hfs].
  destruct (take_total status link_to_node Ht) as [ts Hts].
  rewrite Hfs, Hts. simpl.
  assert (Hlen' : length fs = length ts)
    by (rewrite (take_length _ _ _ Hfs), (take_length _ _ _ Hts); exact Hlen).
  destruct (map2_total is_active fs ts Hlen') as [mask Hmask].
  rewrite (broadcast2_same _ _ _ Hlen'), Hmask. simpl. eauto.
Qed.

(** C2. For every shape and every status array with one entry per node,
    [active_links] returns a list of link IDs, and link [k], from [tail]
    to [head], is in it if and only if ([tail] is interior and [head] is
    not closed) or ([head] is interior and [tail] is not closed). A link
    between two closed nodes, or between two nodes that are both not
    interior, is never listed. *)
Theorem active_links_iff (junk : Z) (shape : shape_t) (status : list Z) :
  Z.of_nat (length status) = node_count shape ->
  exists act,
    active_links junk shape (Some status) None = Some act /\
    (forall k, In k act ->
       0 <= k < Z.of_nat (length (fst (node_link_index shape)))) /\
    forall (k : nat) (tail head : Z),
      nth_error (fst (node_link_index shape)) k = Some tail ->
      nth_error (snd (node_link_index shape)) k = Some head ->
      exists st sh,
        item status tail = Some st /\ item status head = Some sh /\
        (In (Z.of_nat k) act <->
           (st = INTERIOR_NODE /\ sh <> INACTIVE_BOUNDARY) \/
           (sh = INTERIOR_NODE /\ st <> INACTIVE_BOUNDARY)) /\
        (st = INACTIVE_BOUNDARY -> sh = INACTIVE_BOUNDARY ->
           ~ In (Z.of_nat k) act) /\
        (st <> INTERIOR_NODE -> sh <> INTERIOR_NODE ->
           ~ In (Z.of_nat k) act).
Proof.
  intros Hlen.
  destruct (active_links_total junk shape status
              (fst (node_link_index shape)) (snd (node_link_index shape)))
    as [act Hact].
  { intros i Hi. rewrite Hlen. now apply from_node_links_range. }
  { intros i Hi. rewrite Hlen. now apply to_node_links_range. }
  { apply node_link_index_lengths. }
  exists act. split; [exact Hact |]. split.
  { eapply active_links_ids; [apply node_link_index_lengths | exact Hact]. }
  intros k tail head Ht Hh.
  destruct (active_links_tables _ _ _ _ _ _ Hact k tail head Ht Hh)
    as [st [sh [Hst [Hsh Hiff]]]].
  exists st, sh. rewrite Hiff, is_active_iff.
  split; [exact Hst |]. split; [exact Hsh |]. split; [reflexivity |].
  unfold INTERIOR_NODE, INACTIVE_BOUNDARY. split; intros; lia.
Qed.

(** The doctest of [active_links]. *)
Example active_links_doctest (junk : Z) :
  active_links junk (3, 4)%nat None None = Some [1; 2; 5; 6; 11; 12; 13].
Proof. reflexivity. Qed.

End ActiveLinks.

(** ** Boundary neighbours and diagonal tables *)

Section Neighbours.

Import Py structured_grid.
Open Scope Z_scope.

Lemma active_links_iff_witness :
  Z.of_nat (length [1; 1; 1; 1; 1; 0; 0; 1; 1; 1; 1; 1]) = node_count (3, 4)%nat /\
  exists act,
    active_links 0 (3, 4)%nat (Some [1; 1; 1; 1; 1; 0; 0; 1; 1; 1; 1; 1]) None
      = Some act.
Proof.
  split; [reflexivity |].
  destruct (active_links_iff 0 (3, 4)%nat [1; 1; 1; 1; 1; 0; 0; 1; 1; 1; 1; 1]
              eq_refl) as [act [Hact _]].
  exists act. exact Hact.
Defined.

(** The loop of [has_boundary_neighbor_slow] over a four-element array
    stops before position 4 exactly when the sentinel occurs. *)
Lemma scan4_four (a0 a1 a2 a3 oob : Z) :
  exists i, scan4 [a0; a1; a2; a3] oob 0 4 = Some i /\
            ((i <? 4) = contains oob [a0; a1; a2; a3]).
Proof.
  unfold contains. simpl. unfold item, position. simpl.
  rewrite (Z.eqb_sym oob a0), (Z.eqb_sym oob a1), (Z.eqb_sym oob a2),
    (Z.eqb_sym oob a3).
  destruct (a0 =? oob); simpl; [eauto |].
  destruct (a1 =? oob); simpl; [eauto |].
  destruct (a2 =? oob); simpl; [eauto |].
  destruct (a3 =? oob); simpl; eauto.
Qed.

(** [has_boundary_neighbor_slow] is true exactly when the sentinel occurs
    among the four neighbours or among the four diagonals. *)
Lemma has_boundary_neighbor_slow_spec (n0 n1 n2 n3 d0 d1 d2 d3 oob : Z) :
  has_boundary_neighbor_slow [n0; n1; n2; n3] [d0; d1; d2; d3] oob
  = Some (contains oob [n0; n1; n2; n3] || contains oob [d0; d1; d2; d3]).
Proof.
  unfold has_boundary_neighbor_slow.
  destruct (scan4_four n0 n1 n2 n3 oob) as [i [-> Hi]].
  destruct (scan4_four d0 d1 d2 d3 oob) as [r [-> Hr]].
  cbn [bind]. rewrite Hi, Hr.
  destruct (contains oob [n0; n1; n2; n3]); cbn [orb]; [reflexivity |].
  now destruct (contains oob [d0; d1; d2; d3]).
Qed.

(** C9, at the input neighbours [-1, 1, 2, 3], diagonals [4, 5, 6, 7],
    sentinel [-1]: the sentinel occurs among the neighbours, the slow
    version answers true, [has_boundary_neighbor] answers false. *)
Theorem has_boundary_neighbor_disagrees :
  has_boundary_neighbor [-1; 1; 2; 3] [4; 5; 6; 7] (-1) = Some false /\
  has_boundary_neighbor_slow [-1; 1; 2; 3] [4; 5; 6; 7] (-1) = Some true /\
  contains (-1) [-1; 1; 2; 3] = true.
Proof. repeat split. Qed.

(** What [has_boundary_neighbor] computes on four-element arrays: the
    sentinel must occur in [neighbors | out_of_bounds], and some diagonal
    must equal the entry of [neighbors | out_of_bounds] at its position. *)
Lemma has_boundary_neighbor_spec (n0 n1 n2 n3 d0 d1 d2 d3 oob : Z) :
  has_boundary_neighbor [n0; n1; n2; n3] [d0; d1; d2; d3] oob
  = Some (contains oob (map (fun n => Z.lor n oob) [n0; n1; n2; n3])
          && ((d0 =? Z.lor n0 oob) || (d1 =? Z.lor n1 oob)
              || (d2 =? Z.lor n2 oob) || (d3 =? Z.lor n3 oob))).
Proof.
  unfold has_boundary_neighbor, contains_array.
  destruct (contains oob _); [| reflexivity].
  rewrite broadcast2_same by reflexivity. simpl.
  now rewrite orb_false_r, !orb_assoc.
Qed.

(** The doctest of [diagonal_array]. *)
Example diagonal_array_doctest (junk : Z) :
  diagonal_array junk (2, 3)%nat (-1)
  = Some [[-1; -1; 4; -1]; [-1; -1; 5; 3]; [-1; -1; -1; 4];
          [-1; 1; -1; -1]; [0; 2; -1; -1]; [1; -1; -1; -1]].
Proof. reflexivity. Qed.

(** The doctest of [neighbor_array]. *)
Example neighbor_array_doctest (junk : Z) :
  neighbor_array junk (2, 3)%nat (-1)
  = Some [[-1; -1; 1; 3]; [0; -1; 2; 4]; [1; -1; -1; 5];
          [-1; 0; 4; -1]; [3; 1; 5; -1]; [4; 2; -1; -1]].
Proof. reflexivity. Qed.

(** C10, at shape (3, 3) with sentinel [-1]. Node 4 is the only interior
    node, its diagonals are 8 (top right), 6 (top left), 0 (bottom left)
    and 2 (bottom right). [diagonal_array_slow] gives row 4 in that order
    and [-1] everywhere else; [diagonal_array] gives row 4 as
    [0, 2, 8, 6] and fills the rows of the boundary nodes with their
    diagonals that lie on the grid. *)
Theorem diagonal_array_disagrees (junk : Z) :
  diagonal_array junk (3, 3)%nat (-1)
  = Some [[-1; -1; 4; -1]; [-1; -1; 5; 3]; [-1; -1; -1; 4];
          [-1; 1; 7; -1]; [0; 2; 8; 6]; [1; -1; -1; 7];
          [-1; 4; -1; -1]; [3; 5; -1; -1]; [4; -1; -1; -1]] /\
  diagonal_array_slow (3, 3)%nat (-1)
  = Some [[-1; -1; -1; -1]; [-1; -1; -1; -1]; [-1; -1; -1; -1];
          [-1; -1; -1; -1]; [8; 6; 0; 2]; [-1; -1; -1; -1];
          [-1; -1; -1; -1]; [-1; -1; -1; -1]; [-1; -1; -1; -1]] /\
  diagonal_array junk (3, 3)%nat (-1) <> diagonal_array_slow (3, 3)%nat (-1).
Proof.
  split; [reflexivity |]. split; [reflexivity |].
  intros H. vm_compute in H. discriminate H.
Qed.

End Neighbours.

(** ** The stages of [direct_flow] *)

Section Stages.

Import Py structured_grid flow_director stages.
Open Scope Z_scope.

Lemma obind_Ok {A B : Type} (m : outcome A) (k : A -> outcome B) (b : B) :
  obind m k = Ok b -> exists a, m = Ok a /\ k a = Ok b.
Proof. destruct m as [a|e]; simpl; intros H; [eauto | discriminate]. Qed.

Lemma lift_Ok {A : Type} (e : exn) (o : option A) (a : A) :
  lift e o = Ok a -> o = Some a.
Proof. destruct o; simpl; intros H; [now injection H as -> | discriminate]. Qed.

Lemma direct_flow_stages (w : World) :
  direct_flow w = (w0 <~ check_bcs w ;; res <~ route w0 ;; publish w0 res).
Proof.
  unfold direct_flow, check_bcs, route, publish.
  destruct (if bc_set_code_differs w then _ else _) as [w0|e]; simpl;
    [| reflexivity].
  destruct (_calculate_gradients_at_d8_active_links _ _) as [gr|e]; simpl;
    [| reflexivity].
  destruct (flow_directions _ _ _ _ _ _) as [[[[rc sl] sk] lk]|e]; simpl;
    reflexivity.
Qed.

Lemma differs_record (w : World) :
  bc_set_code_differs (record_bc_set_code w) = false.
Proof.
  unfold bc_set_code_differs, record_bc_set_code. simpl.
  now rewrite Z.eqb_refl.
Qed.

Lemma check_bcs_synced (w w0 : World) :
  check_bcs w = Ok w0 -> bc_set_code_differs w0 = false.
Proof.
  unfold check_bcs. destruct (bc_set_code_differs w) eqn:E.
  - intros H. apply obind_Ok in H as [u [_ H]]. injection H as <-.
    apply differs_record.
  - intros H. now injection H as <-.
Qed.

Lemma check_bcs_keeps (w : World) :
  bc_set_code_differs w = false -> check_bcs w = Ok w.
Proof. unfold check_bcs. now intros ->. Qed.

Lemma check_bcs_grid (w w0 : World) :
  check_bcs w = Ok w0 -> grid w0 = grid w.
Proof.
  unfold check_bcs, updated_boundary_conditions.
  destruct (bc_set_code_differs w).
  - intros H. apply obind_Ok in H as [u [Hu H]]. injection H as <-.
    apply obind_Ok in Hu as [[[dal d8t] d8h] [_ Hu]]. now injection Hu as <-.
  - intros H. now injection H as <-.
Qed.

(** After a version mismatch the component holds the active links of the
    current statuses and has recorded the version of the grid. *)
Lemma check_bcs_rederives (w w0 : World) :
  bc_set_code_differs w = true -> check_bcs w = Ok w0 ->
  cache_fresh w0 /\ _bc_set_code (self w0) = Some (bc_set_code (grid w)).
Proof.
  unfold check_bcs, updated_boundary_conditions, cache_fresh. intros -> H.
  apply obind_Ok in H as [u [Hu H]]. injection H as <-.
  apply obind_Ok in Hu as [[[dal d8t] d8h] [Hd Hu]]. injection Hu as <-.
  simpl. split; [exact Hd | reflexivity].
Qed.

Lemma check_bcs_cache_ok (w w0 : World) :
  cache_ok w -> check_bcs w = Ok w0 -> cache_fresh w0.
Proof.
  intros [Hd | Hf] H.
  - now apply (check_bcs_rederives w w0).
  - destruct (bc_set_code_differs w) eqn:E.
    + now apply (check_bcs_rederives w w0).
    + rewrite (check_bcs_keeps w E) in H. now injection H as <-.
Qed.

Lemma assign_all_length {A : Type} (field values out : list A) :
  assign_all field values = Ok out -> length out = length field.
Proof.
  unfold assign_all. destruct (length values =? length field)%nat eqn:E.
  - intros H. injection H as <-. now apply Nat.eqb_eq.
  - destruct values as [|x [|y values]]; try discriminate.
    intros H. injection H as <-. apply repeat_length.
Qed.

Lemma assign_all_again {A : Type} (field field' values out : list A) :
  length field' = length field ->
  assign_all field values = Ok out -> assign_all field' values = Ok out.
Proof. unfold assign_all. now intros ->. Qed.

Lemma upd_length {A : Type} (l : list A) (p : nat) (x : A) :
  length (upd l p x) = length l.
Proof.
  revert p. induction l as [|h t IH]; intros [|p]; simpl; auto.
Qed.

Lemma fill_at_length {A : Type} (a : list A) (idx : list Z) (x : A)
  (out : list A) :
  fill_at a idx x = Some out -> length out = length a.
Proof.
  revert a. induction idx as [|i idx IH]; intros a H; simpl in H.
  - now injection H as <-.
  - apply bind_Some in H as [a' [Ha' H]].
    unfold setitem in Ha'. apply bind_Some in Ha' as [p [_ Ha']].
    injection Ha' as <-. rewrite (IH _ H). apply upd_length.
Qed.

End Stages.

(** ** Idempotence *)

Section Idempotence.

Import Py structured_grid flow_director stages scenario.
Open Scope Z_scope.

Lemma publish_inv (w w1 : World) (receiver : list Z) (steepest_slope : list R)
  (sink_ recvr_link r : list Z) :
  publish w (receiver, steepest_slope, sink_, recvr_link) = Ok (w1, r) ->
  exists f_receiver f_slope f_link zeros f_sink,
    assign_all (flow__receiver_node (at_node (grid w))) receiver
      = Ok f_receiver /\
    assign_all (topographic__steepest_slope (at_node (grid w))) steepest_slope
      = Ok f_slope /\
    assign_all (flow__link_to_receiver_node (at_node (grid w))) recvr_link
      = Ok f_link /\
    assign_all (flow__sink_flag (at_node (grid w)))
      (map (fun _ => false) receiver) = Ok zeros /\
    fill_at zeros sink_ true = Some f_sink /\
    r = receiver /\
    w1 = {| grid := {| class_of := class_of (grid w);
                       status_at_node := status_at_node (grid w);
                       bc_set_code := bc_set_code (grid w);
                       d8_link_tail := d8_link_tail (grid w);
                       d8_link_head := d8_link_head (grid w);
                       d8_link_length := d8_link_length (grid w);
                       at_node :=
                         {| topographic__elevation :=
                              topographic__elevation (at_node (grid w));
                            flow__receiver_node := f_receiver;
                            topographic__steepest_slope := f_slope;
                            flow__link_to_receiver_node := f_link;
                            flow__sink_flag := f_sink |} |};
            self := {| _is_Voroni := _is_Voroni (self w);
                       _bc_set_code := _bc_set_code (self w);
                       _active_links := _active_links (self w);
                       _activelink_tail := _activelink_tail (self w);
                       _activelink_head := _activelink_head (self w);
                       sink := sink_ |} |}.
Proof.
  unfold publish. intros H.
  apply obind_Ok in H as [f1 [H1 H]]. apply obind_Ok in H as [f2 [H2 H]].
  apply obind_Ok in H as [f3 [H3 H]]. apply obind_Ok in H as [z [H4 H]].
  apply obind_Ok in H as [f4 [H5 H]]. apply lift_Ok in H5.
  injection H as <- <-. exists f1, f2, f3, z, f4. repeat split; assumption.
Qed.

Lemma publish_again (w w1 : World)
  (res : list Z * list R * list Z * list Z) (r : list Z) :
  publish w res = Ok (w1, r) -> publish w1 res = Ok (w1, r).
Proof.
  destruct res as [[[receiver steepest_slope] sink_] recvr_link]. intros H.
  apply publish_inv in H
    as (f1 & f2 & f3 & z & f4 & H1 & H2 & H3 & H4 & H5 & -> & ->).
  unfold publish. cbn [grid self at_node flow__receiver_node
    topographic__steepest_slope flow__link_to_receiver_node flow__sink_flag
    topographic__elevation class_of status_at_node bc_set_code d8_link_tail
    d8_link_head d8_link_length _is_Voroni _bc_set_code _active_links
    _activelink_tail _activelink_head sink].
  rewrite (assign_all_again _ f1 _ _ (assign_all_length _ _ _ H1) H1).
  rewrite (assign_all_again _ f2 _ _ (assign_all_length _ _ _ H2) H2).
  rewrite (assign_all_again _ f3 _ _ (assign_all_length _ _ _ H3) H3).
  assert (Hlen : length f4 = length (flow__sink_flag (at_node (grid w)))).
  { rewrite (fill_at_length _ _ _ _ H5). now apply assign_all_length in H4. }
  rewrite (assign_all_again _ f4 _ _ Hlen H4).
  cbn [obind]. rewrite H5. reflexivity.
Qed.

Lemma publish_keeps_route (w w1 : World)
  (res : list Z * list R * list Z * list Z) (r : list Z) :
  publish w res = Ok (w1, r) ->
  route w1 = route w /\
  bc_set_code_differs w1 = bc_set_code_differs w /\
  status_at_node (grid w1) = status_at_node (grid w) /\
  elevs w1 = elevs w.
Proof.
  destruct res as [[[receiver steepest_slope] sink_] recvr_link]. intros H.
  apply publish_inv in H
    as (f1 & f2 & f3 & z & f4 & H1 & H2 & H3 & H4 & H5 & -> & ->).
  repeat split.
Qed.

(** C8. When a routing invocation returns, a second invocation issued
    right after it (same elevations, same statuses) returns as well, leaves
    the whole state as it is, and so produces the same receiver, slope,
    link and sink-flag arrays and the same returned receivers. *)
Theorem direct_flow_idempotent (w w1 : World) (r1 : list Z) :
  direct_flow w = Ok (w1, r1) ->
  direct_flow w1 = Ok (w1, r1) /\
  exists w2, run_one_step w1 = Ok w2 /\ outputs (grid w2) = outputs (grid w1).
Proof.
  intros H.
  assert (H2 : direct_flow w1 = Ok (w1, r1)).
  { rewrite direct_flow_stages in H.
    apply obind_Ok in H as [w0 [H0 H]]. apply obind_Ok in H as [res [Hr Hp]].
    destruct (publish_keeps_route _ _ _ _ Hp) as [Hroute [Hd _]].
    rewrite direct_flow_stages, check_bcs_keeps.
    - cbn [obind]. rewrite Hroute, Hr. cbn [obind].
      exact (publish_again _ _ _ _ Hp).
    - rewrite Hd. exact (check_bcs_synced w w0 H0). }
  split; [exact H2 |].
  exists w1. unfold run_one_step. now rewrite H2.
Qed.

End Idempotence.

(** ** The links handed to the router *)

Section RouterLinks.

Import Py structured_grid flow_director stages.
Open Scope Z_scope.

Lemma node_value_item (elev : list R) (n : Z) (z : R) :
  node_value elev n = Some z -> item elev n = Some z.
Proof.
  unfold node_value, item. destruct (0 <=? n) eqn:E; [| discriminate].
  intros H. assert (Hlt : (Z.to_nat n < length elev)%nat).
  { apply nth_error_Some. congruence. }
  rewrite position_in_range by lia. exact H.
Qed.

Lemma node_value_range (elev : list R) (n : Z) (z : R) :
  node_value elev n = Some z -> 0 <= n < Z.of_nat (length elev).
Proof.
  unfold node_value. destruct (0 <=? n) eqn:E; [| discriminate].
  intros H. assert (Hlt : (Z.to_nat n < length elev)%nat).
  { apply nth_error_Some. congruence. }
  lia.
Qed.

Lemma item_nat {A : Type} (a : list A) (k : nat) :
  item a (Z.of_nat k) = nth_error a k.
Proof.
  unfold item, position.
  destruct (Z.of_nat k <? Z.of_nat (length a)) eqn:E.
  - replace (0 <=? Z.of_nat k) with true by (symmetry; apply Z.leb_le; lia).
    simpl. now rewrite Nat2Z.id.
  - replace (0 <=? Z.of_nat k) with true by (symmetry; apply Z.leb_le; lia).
    replace (Z.of_nat k <? 0) with false by (symmetry; apply Z.ltb_ge; lia).
    rewrite !andb_false_r. cbn [bind]. symmetry. apply nth_error_None.
    apply Z.ltb_ge in E. lia.
Qed.

Lemma nth_error_arange (n : nat) (k : nat) :
  (k < n)%nat -> nth_error (arange (Z.of_nat n)) k = Some (Z.of_nat k).
Proof.
  intros H. unfold arange, xrange.
  rewrite nth_error_map, Z.sub_0_r, Nat2Z.id.
  rewrite nth_error_seq. destruct (Nat.ltb_spec k n); [reflexivity | lia].
Qed.

Lemma arange_length (n : nat) : length (arange (Z.of_nat n)) = n.
Proof.
  unfold arange, xrange. now rewrite length_map, length_seq, Z.sub_0_r, Nat2Z.id.
Qed.

Lemma zip_links_nth (elev : list R) (ids ts hs : list Z) (ss : list R)
  (links : list link) :
  zip_links elev ids ts hs ss = Ok links ->
  length links = length ids /\
  forall k l, nth_error links k = Some l ->
    nth_error ids k = Some (link_id l) /\
    nth_error ts k = Some (tail l) /\
    nth_error hs k = Some (head l) /\
    nth_error ss k = Some (slope l) /\
    node_value elev (tail l) = Some (z_tail l) /\
    node_value elev (head l) = Some (z_head l).
Proof.
  revert ts hs ss links.
  induction ids as [|i ids IH]; intros [|t ts] [|h hs] [|s ss] links H;
    simpl in H; try discriminate.
  - injection H as <-. split; [reflexivity |]. intros [|k] l Hl; discriminate.
  - apply obind_Ok in H as [zt [Hzt H]]. apply obind_Ok in H as [zh [Hzh H]].
    apply obind_Ok in H as [rest [Hrest H]]. injection H as <-.
    apply lift_Ok in Hzt, Hzh.
    destruct (IH _ _ _ _ Hrest) as [Hlen Hnth].
    split; [simpl; now f_equal |].
    intros [|k] l Hl; simpl in Hl.
    + injection Hl as <-. simpl. repeat split; assumption.
    + simpl. now apply Hnth.
Qed.

(** The gradient of the [k]-th active link. *)
Lemma gradients_nth (g : ModelGrid) (elev grads : list R)
  (dal d8t d8h : list Z) :
  _d8_active_links g = Ok (dal, d8t, d8h) ->
  _calculate_gradients_at_d8_active_links g elev = Ok grads ->
  length grads = length dal /\
  forall k L t h, nth_error dal k = Some L ->
    nth_error d8t k = Some t -> nth_error d8h k = Some h ->
    exists zt zh len,
      item elev t = Some zt /\ item elev h = Some zh /\
      item (d8_link_length g) L = Some len /\
      nth_error grads k = Some ((zh - zt) / len)%R.
Proof.
  intros Hd H. unfold _calculate_gradients_at_d8_active_links in H.
  rewrite Hd in H. cbn [obind] in H.
  apply obind_Ok in H as [len [Hlen H]]. apply obind_Ok in H as [zt [Hzt H]].
  apply obind_Ok in H as [zh [Hzh H]]. apply obind_Ok in H as [diff [Hdiff H]].
  apply lift_Ok in Hlen, Hzt, Hzh, Hdiff, H.
  split.
  { rewrite (map2_length _ _ _ _ H), (map2_length _ _ _ _ Hdiff),
      (take_length _ _ _ Hzh).
    unfold _d8_active_links in Hd.
    apply obind_Ok in Hd as [dal' [_ Hd]].
    apply obind_Ok in Hd as [t' [_ Hd]]. apply obind_Ok in Hd as [h' [Hh' Hd]].
    injection Hd as -> -> ->. apply lift_Ok in Hh'.
    apply (take_length _ _ _ Hh'). }
  intros k L t h HL Ht Hh.
  destruct (take_nth _ _ _ Hlen k L HL) as [l [Hl1 Hl2]].
  destruct (take_nth _ _ _ Hzt k t Ht) as [a [Ha1 Ha2]].
  destruct (take_nth _ _ _ Hzh k h Hh) as [b [Hb1 Hb2]].
  exists a, b, l. repeat split; try assumption.
  apply (map2_nth _ _ _ _ H); [| exact Hl2].
  now apply (map2_nth _ _ _ _ Hdiff).
Qed.

(** The sub-tables returned with the active links. *)
Lemma d8_active_links_nth (g : ModelGrid) (dal d8t d8h : list Z) :
  _d8_active_links g = Ok (dal, d8t, d8h) ->
  forall k L, nth_error dal k = Some L ->
    exists t h, nth_error d8t k = Some t /\ nth_error d8h k = Some h /\
                active_link g L t h.
Proof.
  unfold _d8_active_links. intros H k L HL.
  apply obind_Ok in H as [dal' [Hdal H]]. apply obind_Ok in H as [t' [Ht H]].
  apply obind_Ok in H as [h' [Hh H]]. injection H as -> -> ->.
  apply lift_Ok in Hdal, Ht, Hh.
  destruct (take_nth _ _ _ Ht k L HL) as [t [Ht1 Ht2]].
  destruct (take_nth _ _ _ Hh k L HL) as [h [Hh1 Hh2]].
  exists t, h. split; [exact Ht2 |]. split; [exact Hh2 |].
  assert (Hin : In L dal) by (eapply nth_error_In; eauto).
  pose proof (active_links_nonneg _ _ _ _ _ _ Hdal L Hin) as Hrange.
  unfold active_link. split; [exact Ht1 |]. split; [exact Hh1 |].
  split; [lia |].
  replace L with (Z.of_nat (Z.to_nat L)) in Ht1, Hh1, Hin by lia.
  rewrite item_nat in Ht1, Hh1.
  destruct (active_links_tables _ _ _ _ _ _ Hdal _ _ _ Ht1 Hh1)
    as [st [sh [Hst [Hsh Hiff]]]].
  exists st, sh. split; [exact Hst |]. split; [exact Hsh |]. now apply Hiff.
Qed.

(** Every active link is listed. *)
Lemma d8_active_links_complete (g : ModelGrid) (dal d8t d8h : list Z)
  (L t h : Z) :
  _d8_active_links g = Ok (dal, d8t, d8h) ->
  active_link g L t h -> In L dal.
Proof.
  unfold _d8_active_links. intros H [Ht [Hh [HL [st [sh [Hst [Hsh Hact]]]]]]].
  apply obind_Ok in H as [dal' [Hdal H]]. apply obind_Ok in H as [t' [_ H]].
  apply obind_Ok in H as [h' [_ H]]. injection H as -> -> ->.
  apply lift_Ok in Hdal.
  replace L with (Z.of_nat (Z.to_nat L)) in * by lia.
  rewrite item_nat in Ht, Hh.
  destruct (active_links_tables _ _ _ _ _ _ Hdal _ _ _ Ht Hh)
    as [st' [sh' [Hst' [Hsh' Hiff]]]].
  apply Hiff. congruence.
Qed.

End RouterLinks.

(** ** Stores into arrays *)

Section ArrayStores.

Import Py structured_grid.
Open Scope Z_scope.

Lemma upd_nth {A : Type} (l : list A) (p n : nat) (x : A) :
  nth_error (upd l p x) n
  = if (n =? p)%nat && (p <? length l)%nat then Some x else nth_error l n.
Proof.
  revert p n. induction l as [|h t IH]; intros [|p] [|n]; simpl;
    try reflexivity.
  - now destruct (n =? p)%nat.
  - rewrite IH. reflexivity.
Qed.

Lemma position_lt (n : nat) (i : Z) (p : nat) :
  position n i = Some p -> (p < n)%nat.
Proof.
  unfold position.
  destruct ((0 <=? i) && (i <? Z.of_nat n)) eqn:E1.
  - intros [= <-]. apply andb_true_iff in E1. lia.
  - destruct ((- Z.of_nat n <=? i) && (i <? 0)) eqn:E2; [| discriminate].
    intros [= <-]. apply andb_true_iff in E2. lia.
Qed.

Lemma setitem_nth {A : Type} (a a' : list A) (i : Z) (x : A) :
  setitem a i x = Some a' ->
  exists p, position (length a) i = Some p /\ length a' = length a /\
    forall n, nth_error a' n = if (n =? p)%nat then Some x else nth_error a n.
Proof.
  unfold setitem. intros H. apply bind_Some in H as [p [Hp H]].
  injection H as <-. exists p. split; [exact Hp |].
  split; [apply upd_length |]. intros n. rewrite upd_nth.
  apply position_lt in Hp.
  replace (p <? length a)%nat with true by (symmetry; apply Nat.ltb_lt; lia).
  now rewrite andb_true_r.
Qed.

(** [a[idx] = x]: the entries listed in [idx] hold [x], the others are
    untouched. *)
Lemma fill_at_nth {A : Type} (a a' : list A) (idx : list Z) (x : A) :
  fill_at a idx x = Some a' ->
  length a' = length a /\
  forall n,
    ((exists i, In i idx /\ position (length a) i = Some n) ->
     nth_error a' n = Some x) /\
    (~ (exists i, In i idx /\ position (length a) i = Some n) ->
     nth_error a' n = nth_error a n).
Proof.
  revert a. induction idx as [|i idx IH]; intros a H; simpl in H.
  - injection H as <-. split; [reflexivity |]. intros n. split.
    + intros [i [[] _]].
    + reflexivity.
  - apply bind_Some in H as [a1 [H1 H]].
    destruct (setitem_nth _ _ _ _ H1) as (p & Hp & Hlen1 & Hn1).
    destruct (IH _ H) as [Hlen Hn]. rewrite Hlen1 in Hlen, Hn.
    split; [exact Hlen |]. intros n. destruct (Hn n) as [Hin Hout]. split.
    + intros [j [[<- | Hj] Hpos]].
      * destruct (Classical_Prop.classic
                    (exists i0, In i0 idx /\ position (length a) i0 = Some n))
          as [Hex | Hnex]; [now apply Hin |].
        rewrite (Hout Hnex), Hn1.
        assert (p = n) by congruence. subst p. now rewrite Nat.eqb_refl.
      * apply Hin. eauto.
    + intros Hnex. rewrite Hout, Hn1.
      * destruct (Nat.eqb_spec n p) as [-> | Hne]; [| reflexivity].
        exfalso. apply Hnex. exists i. split; [now left | exact Hp].
      * intros [j [Hj Hpos]]. apply Hnex. exists j. split; [now right | exact Hpos].
Qed.

Lemma fill_at_total {A : Type} (a : list A) (idx : list Z) (x : A) :
  (forall i, In i idx -> 0 <= i < Z.of_nat (length a)) ->
  exists a', fill_at a idx x = Some a'.
Proof.
  revert a. induction idx as [|i idx IH]; intros a H; simpl; [eauto |].
  unfold setitem. rewrite position_in_range by (apply H; now left).
  cbn [bind]. apply IH. intros j Hj. rewrite upd_length. apply H. now right.
Qed.

Lemma position_nonneg (n : nat) (i : Z) (p : nat) :
  0 <= i -> (position n i = Some p <-> i = Z.of_nat p /\ (p < n)%nat).
Proof.
  intros Hi. unfold position.
  replace (0 <=? i) with true by (symmetry; apply Z.leb_le; lia).
  replace (i <? 0) with false by (symmetry; apply Z.ltb_ge; lia).
  rewrite andb_false_r. cbn [andb].
  destruct (i <? Z.of_nat n) eqn:E.
  - apply Z.ltb_lt in E. split; [intros [= <-]; lia | intros [-> _]].
    now rewrite Nat2Z.id.
  - apply Z.ltb_ge in E. split; [discriminate | lia].
Qed.

Lemma put_from_total {A : Type} (vals : list A) (idx : list Z) :
  vals <> [] ->
  forall (k : nat) (a : list A),
    (forall i, In i idx -> 0 <= i < Z.of_nat (length a)) ->
    exists a', put_from k a idx vals = Some a'.
Proof.
  intros Hv. induction idx as [|i idx IH]; intros k a H; cbn [put_from];
    [eauto |].
  destruct (nth_error vals (k mod length vals)) as [v |] eqn:Ev.
  - cbn [bind]. unfold setitem.
    rewrite position_in_range by (apply H; now left). cbn [bind].
    apply IH. intros j Hj. rewrite upd_length. apply H. now right.
  - apply nth_error_None in Ev.
    assert (length vals <> 0)%nat by (destruct vals; simpl; congruence).
    pose proof (Nat.mod_upper_bound k (length vals)). lia.
Qed.

Lemma contains_In (x : Z) (l : list Z) : contains x l = true <-> In x l.
Proof.
  unfold contains. rewrite existsb_exists. split.
  - intros [y [Hy E]]. apply Z.eqb_eq in E. now subst.
  - intros H. exists x. split; [exact H | apply Z.eqb_refl].
Qed.

Lemma fill_at_positions {A : Type} (a out : list A) (idx : list Z) (x : A) :
  fill_at a idx x = Some out ->
  forall i, In i idx -> exists p, position (length a) i = Some p.
Proof.
  revert a. induction idx as [|j idx IH]; intros a H i Hi; [destruct Hi |].
  simpl in H. apply bind_Some in H as [a1 [H1 H]].
  destruct (setitem_nth _ _ _ _ H1) as (p & Hp & Hlen & _).
  destruct Hi as [<- | Hi]; [eauto |].
  rewrite <- Hlen. now apply (IH a1).
Qed.

(** [a[idx] = x] on non-negative indices: the call returns only when
    every index is in the array; the entries listed hold [x], the others
    are untouched. *)
Lemma fill_at_nodes {A : Type} (a out : list A) (idx : list Z) (x : A) :
  (forall i, In i idx -> 0 <= i) ->
  fill_at a idx x = Some out ->
  length out = length a /\
  (forall i, In i idx -> i < Z.of_nat (length a)) /\
  forall n, nth_error out n
            = if contains (Z.of_nat n) idx then Some x else nth_error a n.
Proof.
  intros Hpos H. destruct (fill_at_nth _ _ _ _ H) as [Hlen Hn].
  pose proof (fill_at_positions _ _ _ _ H) as Hp.
  split; [exact Hlen |]. split.
  - intros i Hi. destruct (Hp i Hi) as [p Ep].
    apply position_nonneg in Ep; [| now apply Hpos]. lia.
  - intros n. destruct (contains (Z.of_nat n) idx) eqn:E.
    + apply contains_In in E. apply (Hn n). exists (Z.of_nat n).
      split; [exact E |].
      destruct (Hp _ E) as [p Ep]. pose proof Ep as Ep'.
      apply position_nonneg in Ep'; [| lia].
      destruct Ep' as [Heq _]. apply Nat2Z.inj in Heq. now subst p.
    + apply (Hn n). intros [i [Hi Ep]].
      apply position_nonneg in Ep; [| now apply Hpos].
      destruct Ep as [-> _]. apply contains_In in Hi. congruence.
Qed.

(** [node_id[idx]] on non-negative indices is [idx] itself. *)
Lemma take_arange (N : nat) (idx ids : list Z) :
  (forall i, In i idx -> 0 <= i) ->
  take (arange (Z.of_nat N)) idx = Some ids -> ids = idx.
Proof.
  revert ids. induction idx as [|i idx IH]; intros ids Hpos H; simpl in H.
  - now injection H as <-.
  - apply bind_Some in H as [x [Hx H]]. apply bind_Some in H as [xs [Hxs H]].
    injection H as <-. f_equal.
    + unfold item in Hx. apply bind_Some in Hx as [p [Hp Hx]].
      rewrite arange_length in Hp.
      apply position_nonneg in Hp; [| apply Hpos; now left].
      destruct Hp as [-> Hlt]. rewrite nth_error_arange in Hx by exact Hlt.
      now injection Hx.
    + apply IH; [intros j Hj; apply Hpos; now right | exact Hxs].
Qed.

(** [a[idx] = idx] on non-negative indices: the entries listed hold their
    own position, the others are untouched. *)
Lemma put_from_ids (idx : list Z) :
  forall (pre a out : list Z),
    (forall i, In i idx -> 0 <= i) ->
    put_from (length pre) a idx (pre ++ idx) = Some out ->
    length out = length a /\
    forall n, nth_error out n
              = if contains (Z.of_nat n) idx then Some (Z.of_nat n)
                else nth_error a n.
Proof.
  induction idx as [|i idx IH]; intros pre a out Hpos H; cbn [put_from] in H.
  - injection H as <-. split; [reflexivity |]. intros n. reflexivity.
  - rewrite Nat.mod_small in H by (rewrite length_app; simpl; lia).
    rewrite nth_error_app2, Nat.sub_diag in H by lia.
    cbn [nth_error bind] in H.
    apply bind_Some in H as [a1 [H1 H]].
    destruct (setitem_nth _ _ _ _ H1) as (p & Hp & Hlen1 & Hn1).
    apply position_nonneg in Hp; [| apply Hpos; now left].
    destruct Hp as [-> Hp].
    replace (pre ++ Z.of_nat p :: idx) with ((pre ++ [Z.of_nat p]) ++ idx) in H
      by now rewrite <- app_assoc.
    replace (S (length pre)) with (length (pre ++ [Z.of_nat p])) in H
      by (rewrite length_app; simpl; lia).
    destruct (IH _ _ _ (fun j Hj => Hpos j (or_intror Hj)) H) as [Hlen Hn].
    split; [congruence |]. intros n. rewrite Hn, Hn1.
    unfold contains. cbn [existsb]. fold (contains (Z.of_nat n) idx).
    destruct (contains (Z.of_nat n) idx); [now rewrite orb_true_r |].
    rewrite orb_false_r. destruct (Nat.eqb_spec n p) as [-> | Hne].
    + now rewrite Z.eqb_refl.
    + destruct (Z.eqb_spec (Z.of_nat n) (Z.of_nat p)); [lia | reflexivity].
Qed.

(** A table over the node ids with the entries of [idx] reset. *)
Lemma reset_table {A : Type} (f g : Z -> A) (N : nat) (idx : list Z)
  (out : list A) :
  (forall i, In i idx -> i < Z.of_nat N) ->
  (forall n, nth_error out n
             = if contains (Z.of_nat n) idx then Some (g (Z.of_nat n))
               else nth_error (map f (arange (Z.of_nat N))) n) ->
  out = map (fun n => if contains n idx then g n else f n)
          (arange (Z.of_nat N)).
Proof.
  intros Hidx H. apply nth_error_ext. intros n. rewrite H.
  destruct (Nat.lt_ge_cases n N) as [Hlt | Hge].
  - rewrite !nth_error_map, nth_error_arange by exact Hlt. cbn [option_map].
    now destruct (contains (Z.of_nat n) idx).
  - destruct (contains (Z.of_nat n) idx) eqn:E.
    + apply contains_In, Hidx in E. lia.
    + transitivity (@None A); [| symmetry]; apply nth_error_None;
        rewrite length_map, arange_length; lia.
Qed.

End ArrayStores.

(** ** What the router computes *)

Section Router.

Import Py structured_grid flow_director stages.
Open Scope Z_scope.

(** The router returns only when every base-level node handed in is a
    node of the elevation array; the arrays it returns hold, node by node,
    the result of [routed_node]. *)
Lemma flow_directions_inv (elev : list R) (ids ts hs : list Z) (ss : list R)
  (baselevel_nodes : list Z) (res : list Z * list R * list Z * list Z) :
  (forall i, In i baselevel_nodes -> 0 <= i) ->
  flow_directions elev ids ts hs ss baselevel_nodes = Ok res ->
  exists links,
    zip_links elev ids ts hs ss = Ok links /\
    (forall i, In i baselevel_nodes -> i < Z.of_nat (length elev)) /\
    routed_arrays links baselevel_nodes (length elev) res.
Proof.
  unfold flow_directions. intros Hpos H.
  apply obind_Ok in H as [links [Hl H]].
  apply obind_Ok in H as [bids [Hb H]]. apply lift_Ok in Hb.
  apply obind_Ok in H as [rc [Hrc H]]. apply lift_Ok in Hrc.
  apply obind_Ok in H as [lk [Hlk H]]. apply lift_Ok in Hlk.
  apply obind_Ok in H as [sl [Hsl H]]. apply lift_Ok in Hsl.
  apply obind_Ok in H as [same [Hs H]]. apply lift_Ok in Hs.
  injection H as <-. exists links. split; [exact Hl |].
  rewrite (take_arange _ _ _ Hpos Hb) in Hrc.
  unfold put_array in Hrc. rewrite Nat.eqb_refl in Hrc. unfold put in Hrc.
  destruct (put_from_ids baselevel_nodes [] _ _ Hpos Hrc) as [Lrc Nrc].
  destruct (fill_at_nodes _ _ _ _ Hpos Hlk) as (Llk & Blk & Nlk).
  destruct (fill_at_nodes _ _ _ _ Hpos Hsl) as (Lsl & _ & Nsl).
  rewrite !length_map, arange_length in Blk.
  split; [exact Blk |].
  unfold routed_arrays. rewrite !map_map.
  rewrite map_map in Nrc, Nlk, Nsl.
  split; [| split; [| split]].
  - rewrite (reset_table _ (fun n => n) _ _ _ Blk Nrc).
    apply map_ext. intros n. unfold routed_node.
    now destruct (contains n baselevel_nodes).
  - rewrite (reset_table _ (fun _ => 0%R) _ _ _ Blk Nsl).
    apply map_ext. intros n. unfold routed_node.
    now destruct (contains n baselevel_nodes).
  - rewrite (reset_table _ (fun _ => UNDEFINED_INDEX) _ _ _ Blk Nlk).
    apply map_ext. intros n. unfold routed_node.
    now destruct (contains n baselevel_nodes).
  - exists same. split; [exact Hs | reflexivity].
Qed.

Lemma baselevel_nodes_nonneg (g : ModelGrid) (i : Z) :
  In i (baselevel_nodes_of g) -> 0 <= i.
Proof. intros H. apply where_bound in H. lia. Qed.

(** Node [n] is among the base-level nodes exactly when its status is a
    base-level status. *)
Lemma baselevel_nodes_In (g : ModelGrid) (n : nat) :
  contains (Z.of_nat n) (baselevel_nodes_of g) = true <->
  exists st, nth_error (status_at_node g) n = Some st /\
             is_baselevel st = true.
Proof.
  unfold baselevel_nodes_of. rewrite contains_In, where_In, nth_error_map.
  destruct (nth_error (status_at_node g) n) as [st |]; cbn [option_map].
  - split.
    + intros [= E]. now exists st.
    + intros [st' [[= <-] E]]. now rewrite E.
  - split; [discriminate | intros [st' [E _]]; discriminate].
Qed.

Lemma route_inv (w : World) (res : list Z * list R * list Z * list Z) :
  route w = Ok res ->
  exists grads links,
    _calculate_gradients_at_d8_active_links (grid w) (elevs w) = Ok grads /\
    zip_links (elevs w) (_active_links (self w)) (_activelink_tail (self w))
      (_activelink_head (self w)) (map Ropp grads) = Ok links /\
    routed_arrays links (baselevel_nodes_of (grid w)) (length (elevs w)) res.
Proof.
  unfold route. intros H.
  apply obind_Ok in H as [grads [Hg H]].
  apply flow_directions_inv in H as (links & Hl & _ & Hra);
    [| apply baselevel_nodes_nonneg].
  exists grads, links. split; [exact Hg |]. split; [exact Hl |]. exact Hra.
Qed.

(** With a fresh cache the links handed to the router are the active links
    of the grid, each with the elevations of its ends and the slope
    [-(elev[head] - elev[tail]) / length]. *)
Lemma links_fresh (w : World) (grads : list R) (links : list link) :
  cache_fresh w ->
  _calculate_gradients_at_d8_active_links (grid w) (elevs w) = Ok grads ->
  zip_links (elevs w) (_active_links (self w)) (_activelink_tail (self w))
    (_activelink_head (self w)) (map Ropp grads) = Ok links ->
  (forall l, In l links ->
     exists len,
       active_link (grid w) (link_id l) (tail l) (head l) /\
       node_value (elevs w) (tail l) = Some (z_tail l) /\
       node_value (elevs w) (head l) = Some (z_head l) /\
       item (d8_link_length (grid w)) (link_id l) = Some len /\
       slope l = (- ((z_head l - z_tail l) / len))%R) /\
  (forall L t h, active_link (grid w) L t h ->
     exists l, In l links /\ link_id l = L /\ tail l = t /\ head l = h).
Proof.
  intros Hf Hg Hz. unfold cache_fresh in Hf.
  destruct (zip_links_nth _ _ _ _ _ _ Hz) as [Hlen Hnth].
  destruct (gradients_nth _ _ _ _ _ _ Hf Hg) as [Hglen Hgnth].
  split.
  - intros l Hl. apply In_nth_error in Hl as [k Hk].
    destruct (Hnth k l Hk) as (Hid & Ht & Hh & Hs & Hzt & Hzh).
    destruct (d8_active_links_nth _ _ _ _ Hf k _ Hid)
      as (t & h & Ht' & Hh' & Hact).
    assert (t = tail l) by congruence. assert (h = head l) by congruence.
    subst t h.
    destruct (Hgnth k _ _ _ Hid Ht Hh) as (zt & zh & len & Hzt' & Hzh' & Hl' & Hgk).
    apply node_value_item in Hzt as Hzt2. apply node_value_item in Hzh as Hzh2.
    assert (zt = z_tail l) by congruence. assert (zh = z_head l) by congruence.
    subst zt zh. exists len.
    split; [exact Hact |]. split; [exact Hzt |]. split; [exact Hzh |].
    split; [exact Hl' |].
    rewrite nth_error_map, Hgk in Hs. cbn [option_map] in Hs.
    now injection Hs as <-.
  - intros L t h Hact.
    pose proof (d8_active_links_complete _ _ _ _ _ _ _ Hf Hact) as Hin.
    apply In_nth_error in Hin as [k Hk].
    assert (Hlt : (k < length links)%nat).
    { rewrite Hlen. apply nth_error_Some. congruence. }
    destruct (nth_error links k) as [l|] eqn:El;
      [| apply nth_error_None in El; lia].
    destruct (Hnth k l El) as (Hid & Ht & Hh & _).
    destruct (d8_active_links_nth _ _ _ _ Hf k _ Hk)
      as (t' & h' & Ht' & Hh' & Hact').
    destruct Hact as (Ha1 & Ha2 & _). destruct Hact' as (Hb1 & Hb2 & _).
    exists l. split; [eapply nth_error_In; eauto |].
    repeat split; congruence.
Qed.

(** *** Candidates and the steepest one *)

Lemma Rltb_true (a b : R) : (a < b)%R -> Rltb a b = true.
Proof. intros H. unfold Rltb. destruct (Rlt_dec a b); [reflexivity | tauto]. Qed.

Lemma Rltb_false (a b : R) : ~ (a < b)%R -> Rltb a b = false.
Proof. intros H. unfold Rltb. destruct (Rlt_dec a b); [tauto | reflexivity]. Qed.

Lemma Rltb_iff (a b : R) : Rltb a b = true <-> (a < b)%R.
Proof.
  unfold Rltb. destruct (Rlt_dec a b); split; intros; try tauto; discriminate.
Qed.

Lemma outgoing_Some (n : Z) (l : link) (c : candidate) :
  outgoing n l = Some c <->
  (tail l = n /\ (z_head l < z_tail l)%R /\
   c = {| via := link_id l; to := head l; drop := slope l |}) \/
  (head l = n /\ (z_tail l < z_head l)%R /\
   c = {| via := link_id l; to := tail l; drop := (- slope l)%R |}).
Proof.
  unfold outgoing, Rltb.
  destruct (Z.eqb_spec (tail l) n) as [Et|Et];
    destruct (Z.eqb_spec (head l) n) as [Eh|Eh];
    destruct (Rlt_dec (z_head l) (z_tail l)) as [E1|E1];
    destruct (Rlt_dec (z_tail l) (z_head l)) as [E2|E2]; cbn [andb];
    (split;
     [ intros H;
       first [ discriminate H
             | injection H as <-;
               first [ left; repeat split; assumption
                     | right; repeat split; assumption ] ]
     | intros [(H1 & H2 & H3) | (H1 & H2 & H3)]; subst;
       first [ reflexivity | lra | congruence | tauto ] ]).
Qed.

Lemma candidates_In (n : Z) (links : list link) (c : candidate) :
  In c (candidates n links) <->
  exists l, In l links /\ outgoing n l = Some c.
Proof.
  induction links as [|l links IH]; simpl.
  - split; [tauto | intros [l [[] _]]].
  - destruct (outgoing n l) as [c0|] eqn:E; simpl; rewrite IH; split.
    + intros [<- | [l' [H1 H2]]]; [exists l; auto | exists l'; auto].
    + intros [l' [[<- | H1] H2]]; [left; congruence | right; eauto].
    + intros [l' [H1 H2]]; exists l'; auto.
    + intros [l' [[<- | H1] H2]]; [congruence | eauto].
Qed.

Lemma steepest_from_In (best : candidate) (cs : list candidate) :
  In (steepest_from best cs) (best :: cs).
Proof.
  revert best. induction cs as [|c cs IH]; intros best; simpl; [auto |].
  destruct (Rltb (drop best) (drop c)).
  - right. apply IH.
  - destruct (IH best) as [H | H]; [left; exact H | right; right; exact H].
Qed.

Lemma steepest_from_max (best : candidate) (cs : list candidate) :
  forall c, In c (best :: cs) ->
    (drop c <= drop (steepest_from best cs))%R.
Proof.
  revert best. induction cs as [|c0 cs IH]; intros best c Hc; simpl.
  - destruct Hc as [<- | []]. lra.
  - destruct (Rltb (drop best) (drop c0)) eqn:E.
    + apply Rltb_iff in E.
      destruct Hc as [<- | Hc].
      * pose proof (IH c0 c0 (or_introl eq_refl)). lra.
      * apply IH. exact Hc.
    + assert (~ (drop best < drop c0)%R) by (rewrite <- Rltb_iff; congruence).
      destruct Hc as [<- | [<- | Hc]].
      * apply IH. now left.
      * pose proof (IH best best (or_introl eq_refl)). lra.
      * apply IH. now right.
Qed.

(** A base-level node is its own receiver; any other node has the result
    of [route_node]. *)
Lemma routed_node_cases (g : ModelGrid) (links : list link) (n : nat) :
  ((exists st, nth_error (status_at_node g) n = Some st /\
               is_baselevel st = true) /\
   routed_node links (baselevel_nodes_of g) (Z.of_nat n)
   = (Z.of_nat n, 0%R, UNDEFINED_INDEX))
  \/
  ((forall st, nth_error (status_at_node g) n = Some st ->
               is_baselevel st = false) /\
   routed_node links (baselevel_nodes_of g) (Z.of_nat n)
   = route_node links (Z.of_nat n)).
Proof.
  unfold routed_node.
  destruct (contains (Z.of_nat n) (baselevel_nodes_of g)) eqn:E.
  - left. split; [now apply baselevel_nodes_In | reflexivity].
  - right. split; [| reflexivity]. intros st Hst.
    destruct (is_baselevel st) eqn:Eb; [| reflexivity].
    rewrite <- E. symmetry. apply baselevel_nodes_In. now exists st.
Qed.

(** The choice is the initial one, or a candidate strictly steeper than
    it. *)
Lemma steepest_from_cases (best : candidate) (cs : list candidate) :
  steepest_from best cs = best \/
  (In (steepest_from best cs) cs /\
   (drop best < drop (steepest_from best cs))%R).
Proof.
  revert best. induction cs as [|c cs IH]; intros best; simpl; [now left |].
  destruct (Rltb (drop best) (drop c)) eqn:E.
  - apply Rltb_iff in E. right.
    destruct (IH c) as [-> | [Hin Hlt]]; [split; [now left | exact E] |].
    split; [now right | lra].
  - destruct (IH best) as [-> | [Hin Hlt]]; [now left | right].
    split; [now right | exact Hlt].
Qed.

(** The outcome of [route_node]: no candidate with a positive gradient and
    the node is its own receiver, or the steepest candidate. *)
Lemma route_node_cases (links : list link) (n : Z) :
  ((forall c', In c' (candidates n links) -> (drop c' <= 0)%R) /\
   route_node links n = (n, 0%R, UNDEFINED_INDEX))
  \/
  (exists c, In c (candidates n links) /\
             (0 < drop c)%R /\
             (forall c', In c' (candidates n links) -> (drop c' <= drop c)%R) /\
             route_node links n = (to c, drop c, via c)).
Proof.
  unfold route_node. cbv zeta.
  pose proof (steepest_from_max (no_outflow n) (candidates n links)) as Hmax.
  destruct (steepest_from_cases (no_outflow n) (candidates n links))
    as [E | [Hin Hlt]].
  - left. rewrite E in *. split; [| reflexivity].
    intros c' Hc'. apply (Hmax c'). now right.
  - right. exists (steepest_from (no_outflow n) (candidates n links)).
    split; [exact Hin |]. split; [exact Hlt |]. split; [| reflexivity].
    intros c' Hc'. apply Hmax. now right.
Qed.

(** On links of positive length every candidate has a positive
    gradient. *)
Lemma candidates_positive (g : ModelGrid) (links : list link) (n : Z)
  (c : candidate) :
  fresh_links g links ->
  Forall (fun len => (0 < len)%R) (d8_link_length g) ->
  In c (candidates n links) -> (0 < drop c)%R.
Proof.
  intros [Hfw _] Hpos Hc. apply candidates_In in Hc as [l [Hl Ho]].
  destruct (Hfw l Hl) as (len & _ & _ & _ & Hlen & Hs).
  assert (Hlenpos : (0 < len)%R).
  { unfold item in Hlen. apply bind_Some in Hlen as [p [_ Hlen]].
    apply nth_error_In in Hlen. rewrite Forall_forall in Hpos.
    now apply Hpos. }
  apply outgoing_Some in Ho as [(_ & Hlt & ->) | (_ & Hlt & ->)];
    cbn [drop]; rewrite Hs.
  - replace (- ((z_head l - z_tail l) / len))%R
      with ((z_tail l - z_head l) / len)%R by (unfold Rdiv; ring).
    apply Rdiv_lt_0_compat; lra.
  - replace (- - ((z_head l - z_tail l) / len))%R
      with ((z_head l - z_tail l) / len)%R by (unfold Rdiv; ring).
    apply Rdiv_lt_0_compat; lra.
Qed.

End Router.

(** ** The arrays saved on the grid *)

Section Published.

Import Py structured_grid flow_director stages.
Open Scope Z_scope.

Lemma upd_app {A : Type} (pre rest : list A) (x y : A) :
  upd (pre ++ x :: rest) (length pre) y = pre ++ y :: rest.
Proof. induction pre as [|h pre IH]; simpl; [reflexivity | now rewrite IH]. Qed.

Lemma setitem_app {A : Type} (pre rest : list A) (x y : A) :
  setitem (pre ++ x :: rest) (Z.of_nat (length pre)) y = Some (pre ++ y :: rest).
Proof.
  unfold setitem. rewrite position_in_range.
  - cbn [bind]. now rewrite Nat2Z.id, upd_app.
  - rewrite length_app. simpl. lia.
Qed.

Lemma fill_where_from (pre mask : list bool) :
  fill_at (pre ++ repeat false (length mask))
    (where_from (Z.of_nat (length pre)) mask) true
  = Some (pre ++ mask).
Proof.
  revert pre. induction mask as [|b mask IH]; intros pre; simpl.
  - reflexivity.
  - assert (Hnext : Z.of_nat (length pre) + 1
                    = Z.of_nat (length (pre ++ [b]))).
    { rewrite length_app. simpl. lia. }
    destruct b; simpl.
    + rewrite setitem_app. cbn [bind]. rewrite Hnext.
      replace (pre ++ true :: repeat false (length mask))
        with ((pre ++ [true]) ++ repeat false (length mask))
        by now rewrite <- app_assoc.
      rewrite IH. now rewrite <- app_assoc.
    + rewrite Hnext.
      replace (pre ++ false :: repeat false (length mask))
        with ((pre ++ [false]) ++ repeat false (length mask))
        by now rewrite <- app_assoc.
      rewrite IH. now rewrite <- app_assoc.
Qed.

Lemma fill_where {A : Type} (l : list A) (mask : list bool) :
  length mask = length l ->
  fill_at (map (fun _ => false) l) (where_ mask) true = Some mask.
Proof.
  intros H. replace (map (fun _ => false) l) with (repeat false (length mask)).
  - apply (fill_where_from [] mask).
  - rewrite H. clear H. induction l; simpl; [reflexivity | now f_equal].
Qed.

Lemma assign_all_same_length {A : Type} (field values out : list A) :
  length values = length field ->
  assign_all field values = Ok out -> out = values.
Proof.
  unfold assign_all. intros ->. rewrite Nat.eqb_refl. now intros [= ->].
Qed.

Lemma sized_lengths (g : ModelGrid) :
  sized g = true ->
  let n := length (topographic__elevation (at_node g)) in
  length (flow__receiver_node (at_node g)) = n /\
  length (topographic__steepest_slope (at_node g)) = n /\
  length (flow__link_to_receiver_node (at_node g)) = n /\
  length (flow__sink_flag (at_node g)) = n.
Proof.
  unfold sized. rewrite !andb_true_iff, !Nat.eqb_eq. tauto.
Qed.

(** What a successful step leaves on a grid whose output arrays have one
    entry per node: entry [n] of the four arrays is the result of
    [routed_node] for node [n], and the sink flag says whether the node is
    its own receiver. *)
Lemma direct_flow_nodes (w w' : World) (r : list Z) :
  sized (grid w) = true ->
  direct_flow w = Ok (w', r) ->
  exists w0 grads links,
    check_bcs w = Ok w0 /\
    _calculate_gradients_at_d8_active_links (grid w0) (elevs w0) = Ok grads /\
    zip_links (elevs w0) (_active_links (self w0)) (_activelink_tail (self w0))
      (_activelink_head (self w0)) (map Ropp grads) = Ok links /\
    r = flow__receiver_node (at_node (grid w')) /\
    self w' = {| _is_Voroni := _is_Voroni (self w0);
                 _bc_set_code := _bc_set_code (self w0);
                 _active_links := _active_links (self w0);
                 _activelink_tail := _activelink_tail (self w0);
                 _activelink_head := _activelink_head (self w0);
                 sink := sink (self w') |} /\
    length (flow__receiver_node (at_node (grid w'))) = length (elevs w) /\
    forall n, (n < length (elevs w))%nat ->
      let routed :=
        routed_node links (baselevel_nodes_of (grid w)) (Z.of_nat n) in
      nth_error (flow__receiver_node (at_node (grid w'))) n
        = Some (fst (fst routed)) /\
      nth_error (topographic__steepest_slope (at_node (grid w'))) n
        = Some (snd (fst routed)) /\
      nth_error (flow__link_to_receiver_node (at_node (grid w'))) n
        = Some (snd routed) /\
      nth_error (flow__sink_flag (at_node (grid w'))) n
        = Some (Z.of_nat n =? fst (fst routed)).
Proof.
  intros Hs H. rewrite direct_flow_stages in H.
  apply obind_Ok in H as [w0 [H0 H]]. apply obind_Ok in H as [res [Hr Hp]].
  destruct (route_inv _ _ Hr) as (grads & links & Hg & Hz & Hra).
  exists w0, grads, links. split; [exact H0 |]. split; [exact Hg |].
  split; [exact Hz |].
  pose proof (check_bcs_grid _ _ H0) as Hgrid.
  assert (Helev : elevs w0 = elevs w) by (unfold elevs; now rewrite Hgrid).
  rewrite Helev, Hgrid in Hra.
  set (base := baselevel_nodes_of (grid w)) in *.
  destruct res as [[[receiver steepest_slope] sink_] recvr_link].
  destruct Hra as (Hrc & Hsl & Hlk & same & Hsame & Hsink).
  apply publish_inv in Hp
    as (f1 & f2 & f3 & z & f4 & H1 & H2 & H3 & H4 & H5 & -> & ->).
  rewrite Hgrid in H1, H2, H3, H4.
  destruct (sized_lengths _ Hs) as (L1 & L2 & L3 & L4).
  fold (elevs w) in L1, L2, L3, L4.
  set (N := length (elevs w)) in *.
  assert (Hlen : length (map (routed_node links base) (arange (Z.of_nat N)))
                 = N)
    by now rewrite length_map, arange_length.
  apply assign_all_same_length in H1; [| now rewrite Hrc, length_map, Hlen].
  apply assign_all_same_length in H2; [| now rewrite Hsl, length_map, Hlen].
  apply assign_all_same_length in H3; [| now rewrite Hlk, length_map, Hlen].
  apply assign_all_same_length in H4;
    [| now rewrite length_map, Hrc, length_map, Hlen].
  subst f1 f2 f3 z sink_.
  rewrite fill_where in H5
    by now rewrite (map2_length _ _ _ _ Hsame), arange_length, Hrc,
         length_map, Hlen.
  injection H5 as <-.
  cbn [grid self at_node flow__receiver_node topographic__steepest_slope
         flow__link_to_receiver_node flow__sink_flag sink].
  split; [reflexivity |]. split; [reflexivity |].
  split; [now rewrite Hrc, length_map, Hlen |].
  intros n Hn. cbv zeta.
  assert (Hnode : nth_error (map (routed_node links base)
                               (arange (Z.of_nat N))) n
                  = Some (routed_node links base (Z.of_nat n)))
    by now rewrite nth_error_map, nth_error_arange.
  assert (Hrcn : nth_error receiver n
                 = Some (fst (fst (routed_node links base (Z.of_nat n)))))
    by now rewrite Hrc, nth_error_map, Hnode.
  split; [exact Hrcn |].
  split; [now rewrite Hsl, nth_error_map, Hnode |].
  split; [now rewrite Hlk, nth_error_map, Hnode |].
  apply (map2_nth _ _ _ _ Hsame); [now apply nth_error_arange | exact Hrcn].
Qed.

End Published.

(** ** Receivers, slopes and sinks *)

Section Routing.

Import Py structured_grid flow_director stages.
Open Scope Z_scope.

Lemma node_value_fun (elev : list R) (n : Z) (a b : R) :
  node_value elev n = Some a -> node_value elev n = Some b -> a = b.
Proof. congruence. Qed.

Lemma item_In {A : Type} (a : list A) (i : Z) (x : A) :
  item a i = Some x -> In x a.
Proof.
  unfold item. intros H. apply bind_Some in H as [p [_ H]].
  eapply nth_error_In; eauto.
Qed.

Lemma candidate_outflow (g : ModelGrid) (links : list link) (n : Z)
  (c : candidate) :
  fresh_links g links ->
  In c (candidates n links) -> outflow g n (via c) (to c) (drop c).
Proof.
  intros [Hfw _] Hc. apply candidates_In in Hc as [l [Hl Ho]].
  destruct (Hfw l Hl) as (len & Hact & Hzt & Hzh & Hlen & Hs).
  apply outgoing_Some in Ho as [(Ht & Hlt & ->) | (Hh & Hlt & ->)];
    cbn [via to drop]; unfold outflow.
  - exists (tail l), (head l), (z_tail l), (z_head l), len. subst n.
    repeat (split; [first [assumption | now left] |]).
    rewrite Hs. unfold Rdiv, Rminus. ring.
  - exists (tail l), (head l), (z_head l), (z_tail l), len. subst n.
    repeat (split; [first [assumption | now right] |]).
    rewrite Hs. unfold Rdiv, Rminus. ring.
Qed.

Lemma outflow_candidate (g : ModelGrid) (links : list link) (n L m : Z)
  (d : R) :
  fresh_links g links -> outflow g n L m d ->
  exists c, In c (candidates n links) /\ via c = L /\ to c = m /\ drop c = d.
Proof.
  intros [Hfw Hbw] (t & h & zn & zm & len & Hact & Hends & Hzn & Hzm & Hlt &
                    Hlen & ->).
  destruct (Hbw L t h Hact) as (l & Hl & <- & <- & <-).
  destruct (Hfw l Hl) as (len' & _ & Hzt & Hzh & Hlen' & Hs).
  assert (len' = len) by congruence. subst len'.
  destruct Hends as [[<- <-] | [<- <-]].
  - assert (z_tail l = zn) by congruence. assert (z_head l = zm) by congruence.
    subst zn zm.
    exists {| via := link_id l; to := head l; drop := slope l |}.
    split; [| repeat split; cbn [drop]; rewrite Hs; unfold Rdiv, Rminus; ring].
    apply candidates_In. exists l. split; [exact Hl |].
    apply outgoing_Some. left. auto.
  - assert (z_head l = zn) by congruence. assert (z_tail l = zm) by congruence.
    subst zn zm.
    exists {| via := link_id l; to := tail l; drop := (- slope l)%R |}.
    split; [| repeat split; cbn [drop]; rewrite Hs; unfold Rdiv, Rminus; ring].
    apply candidates_In. exists l. split; [exact Hl |].
    apply outgoing_Some. right. auto.
Qed.

(** A successful step on a grid with well-sized arrays and a cache that is
    fresh or known to be stale: the per-node results, with the links of
    the current statuses. *)
Lemma direct_flow_fresh (w w' : World) (r : list Z) :
  sized (grid w) = true -> cache_ok w ->
  direct_flow w = Ok (w', r) ->
  exists links,
    fresh_links (grid w) links /\
    forall n, (n < length (elevs w))%nat ->
      let routed :=
        routed_node links (baselevel_nodes_of (grid w)) (Z.of_nat n) in
      nth_error (flow__receiver_node (at_node (grid w'))) n
        = Some (fst (fst routed)) /\
      nth_error (topographic__steepest_slope (at_node (grid w'))) n
        = Some (snd (fst routed)) /\
      nth_error (flow__link_to_receiver_node (at_node (grid w'))) n
        = Some (snd routed) /\
      nth_error (flow__sink_flag (at_node (grid w'))) n
        = Some (Z.of_nat n =? fst (fst routed)).
Proof.
  intros Hs Hc H.
  destruct (direct_flow_nodes _ _ _ Hs H)
    as (w0 & grads & links & H0 & Hg & Hz & _ & _ & _ & Hn).
  exists links. split; [| exact Hn].
  pose proof (check_bcs_cache_ok _ _ Hc H0) as Hf.
  pose proof (links_fresh _ _ _ Hf Hg Hz) as Hl.
  unfold elevs in Hl. rewrite (check_bcs_grid _ _ H0) in Hl. exact Hl.
Qed.

(** What a successful step saves for a base-level node: the node itself
    as receiver, slope 0, no link. *)
Lemma baselevel_self_receiver (w w' : World) (r : list Z) (n : nat) (st : Z) :
  sized (grid w) = true ->
  direct_flow w = Ok (w', r) ->
  (n < length (elevs w))%nat ->
  nth_error (status_at_node (grid w)) n = Some st ->
  is_baselevel st = true ->
  nth_error (flow__receiver_node (at_node (grid w'))) n = Some (Z.of_nat n) /\
  nth_error (topographic__steepest_slope (at_node (grid w'))) n = Some 0%R /\
  nth_error (flow__link_to_receiver_node (at_node (grid w'))) n
    = Some UNDEFINED_INDEX.
Proof.
  intros Hs H Hlt Hst Hb.
  destruct (direct_flow_nodes _ _ _ Hs H)
    as (w0 & grads & links & _ & _ & _ & _ & _ & _ & Hn).
  destruct (Hn n Hlt) as (Hrc & Hsl & Hlk & _).
  destruct (routed_node_cases (grid w) links n) as [[_ E] | [Hno _]].
  - rewrite E in Hrc, Hsl, Hlk. cbn [fst snd] in Hrc, Hsl, Hlk. auto.
  - rewrite (Hno st Hst) in Hb. discriminate.
Qed.

(** C1, as the code has it. After a routing invocation on a grid whose
    links have positive lengths, for every node [n] that is not a
    base-level node (its status is neither FIXED_VALUE_BOUNDARY nor
    FIXED_GRADIENT_BOUNDARY) and has at least one active outgoing link, [steepest_slope[n]] is the gradient
    [(elev[n] - elev[m]) / length(L)] of an active outgoing link [L] of [n]
    to a neighbour [m], no active outgoing link of [n] has a larger
    gradient, [receiver[n]] is that neighbour [m] and
    [link_to_receiver[n]] is that link [L]. A base-level node is its own
    receiver, with slope 0 and no link, whatever its links. *)
Theorem steepest_selection (w w' : World) (r : list Z) (n : nat) (st : Z) :
  sized (grid w) = true -> cache_ok w ->
  Forall (fun len => (0 < len)%R) (d8_link_length (grid w)) ->
  direct_flow w = Ok (w', r) ->
  (exists L m d, outflow (grid w) (Z.of_nat n) L m d) ->
  nth_error (status_at_node (grid w)) n = Some st ->
  (st <> FIXED_VALUE_BOUNDARY -> st <> FIXED_GRADIENT_BOUNDARY ->
   exists L m d,
     outflow (grid w) (Z.of_nat n) L m d /\
     (forall L' m' d',
        outflow (grid w) (Z.of_nat n) L' m' d' -> (d' <= d)%R) /\
     nth_error (topographic__steepest_slope (at_node (grid w'))) n = Some d /\
     nth_error (flow__receiver_node (at_node (grid w'))) n = Some m /\
     nth_error (flow__link_to_receiver_node (at_node (grid w'))) n = Some L)
  /\
  (st = FIXED_VALUE_BOUNDARY \/ st = FIXED_GRADIENT_BOUNDARY ->
   nth_error (topographic__steepest_slope (at_node (grid w'))) n
     = Some 0%R /\
   nth_error (flow__receiver_node (at_node (grid w'))) n
     = Some (Z.of_nat n) /\
   nth_error (flow__link_to_receiver_node (at_node (grid w'))) n
     = Some UNDEFINED_INDEX).
Proof.
  intros Hs Hc Hpos H (L0 & m0 & d0 & Hout) Hst.
  assert (Hlt : (n < length (elevs w))%nat).
  { destruct Hout as (_ & _ & zn & _ & _ & _ & _ & Hzn & _).
    apply node_value_range in Hzn. unfold elevs. lia. }
  split.
  - intros Hfv Hfg.
    destruct (direct_flow_fresh _ _ _ Hs Hc H) as (links & Hl & Hn).
    destruct (Hn n Hlt) as (Hrc & Hsl & Hlk & _).
    destruct (routed_node_cases (grid w) links n)
      as [[[st' [Hst' Hb]] _] | [_ E]].
    { assert (st' = st) by congruence. subst st'.
      unfold is_baselevel in Hb. apply orb_true_iff in Hb.
      rewrite !Z.eqb_eq in Hb. tauto. }
    rewrite E in Hrc, Hsl, Hlk.
    destruct (outflow_candidate _ _ _ _ _ _ Hl Hout) as (c0 & Hc0 & _).
    destruct (route_node_cases links (Z.of_nat n))
      as [[Hnone _] | (c & Hin & _ & Hmax & Hroute)].
    { pose proof (candidates_positive _ _ _ _ Hl Hpos Hc0).
      specialize (Hnone c0 Hc0). lra. }
    rewrite Hroute in Hrc, Hsl, Hlk. cbn [fst snd] in Hrc, Hsl, Hlk.
    exists (via c), (to c), (drop c).
    split; [now apply (candidate_outflow _ links) |].
    split; [| repeat split; assumption].
    intros L' m' d' Hout'.
    destruct (outflow_candidate _ _ _ _ _ _ Hl Hout')
      as (c' & Hc' & _ & _ & <-).
    now apply Hmax.
  - intros Hb.
    destruct (baselevel_self_receiver w w' r n st Hs H Hlt Hst)
      as (Hrc & Hsl & Hlk).
    { unfold is_baselevel. apply orb_true_iff. rewrite !Z.eqb_eq. exact Hb. }
    auto.
Qed.

(** C4, as the code has it. After a routing invocation, for every node
    [n], [sink_flag[n]] is true if and only if [receiver[n] == n]; the
    status of the node does not enter. *)
Theorem sink_flag_iff_self_receiver (w w' : World) (r : list Z) (n : nat) :
  sized (grid w) = true ->
  direct_flow w = Ok (w', r) ->
  (n < length (elevs w))%nat ->
  exists flag rc,
    nth_error (flow__sink_flag (at_node (grid w'))) n = Some flag /\
    nth_error (flow__receiver_node (at_node (grid w'))) n = Some rc /\
    (flag = true <-> rc = Z.of_nat n).
Proof.
  intros Hs H Hlt.
  destruct (direct_flow_nodes _ _ _ Hs H)
    as (w0 & grads & links & _ & _ & _ & _ & _ & _ & Hn).
  destruct (Hn n Hlt) as (Hrc & _ & _ & Hflag).
  eexists. eexists. split; [exact Hflag |]. split; [exact Hrc |].
  rewrite Z.eqb_eq. split; congruence.
Qed.

(** C5. After a routing invocation on a grid whose links have positive
    lengths, for every node [n], [steepest_slope[n]] is not negative, and
    it is zero if and only if [receiver[n] == n]. *)
Theorem zero_slope_iff_self_receiver (w w' : World) (r : list Z) (n : nat) :
  sized (grid w) = true -> cache_ok w ->
  Forall (fun len => (0 < len)%R) (d8_link_length (grid w)) ->
  direct_flow w = Ok (w', r) ->
  (n < length (elevs w))%nat ->
  exists s rc,
    nth_error (topographic__steepest_slope (at_node (grid w'))) n = Some s /\
    nth_error (flow__receiver_node (at_node (grid w'))) n = Some rc /\
    (0 <= s)%R /\
    (s = 0%R <-> rc = Z.of_nat n).
Proof.
  intros Hs Hc Hpos H Hlt.
  destruct (direct_flow_fresh _ _ _ Hs Hc H) as (links & Hl & Hn).
  destruct (Hn n Hlt) as (Hrc & Hsl & _ & _).
  eexists. eexists. split; [exact Hsl |]. split; [exact Hrc |].
  destruct (routed_node_cases (grid w) links n) as [[_ E] | [_ E]];
    rewrite E; [cbn [fst snd]; split; [lra | tauto] |].
  destruct (route_node_cases links (Z.of_nat n))
    as [[_ Hroute] | (c & Hin & _ & _ & Hroute)]; rewrite Hroute;
    cbn [fst snd].
  - split; [lra | tauto].
  - destruct (candidate_outflow _ _ _ _ Hl Hin)
      as (t & h & zn & zm & len & _ & _ & Hzn & Hzm & Hz & Hlen & Hd).
    assert (Hlenpos : (0 < len)%R).
    { apply item_In in Hlen. rewrite Forall_forall in Hpos. now apply Hpos. }
    assert (Hdpos : (0 < drop c)%R).
    { rewrite Hd. apply Rdiv_lt_0_compat; lra. }
    split; [lra |]. split; [lra |].
    intros Heq. rewrite Heq in Hzm.
    pose proof (node_value_fun _ _ _ _ Hzn Hzm). lra.
Qed.

End Routing.

(** ** Boundary changes and construction *)

Section Orchestrator.

Import Py structured_grid flow_director stages scenario.
Open Scope Z_scope.

Lemma mutate_status_differs (w : World) (status : list Z) :
  bc_set_code_differs w = false ->
  bc_set_code_differs (mutate_status w status) = true.
Proof.
  unfold bc_set_code_differs, mutate_status, set_status_at_node. simpl.
  destruct (_bc_set_code (self w)) as [c|]; [| reflexivity].
  rewrite !negb_false_iff, negb_true_iff, Z.eqb_eq, Z.eqb_neq. lia.
Qed.

Lemma publish_self (w w1 : World)
  (res : list Z * list R * list Z * list Z) (r : list Z) :
  publish w res = Ok (w1, r) ->
  _active_links (self w1) = _active_links (self w) /\
  _activelink_tail (self w1) = _activelink_tail (self w) /\
  _activelink_head (self w1) = _activelink_head (self w) /\
  _bc_set_code (self w1) = _bc_set_code (self w) /\
  bc_set_code (grid w1) = bc_set_code (grid w) /\
  _d8_active_links (grid w1) = _d8_active_links (grid w).
Proof.
  destruct res as [[[receiver steepest_slope] sink_] recvr_link]. intros H.
  apply publish_inv in H
    as (f1 & f2 & f3 & z & f4 & H1 & H2 & H3 & H4 & H5 & -> & ->).
  repeat split.
Qed.

(** C6. When the boundary version of the grid differs from the version
    recorded by the component, a routing invocation that returns has
    re-derived the active links from the current statuses and recorded the
    version of the grid; the statuses are untouched; the receivers it
    saves are the node itself or the other end of a link that is active
    under the current statuses and leaves the node downhill. After the
    invocation any mutation of the statuses makes the versions differ
    again, so the next invocation re-derives in turn. *)
Theorem direct_flow_rederives (w w' : World) (r : list Z) :
  bc_set_code_differs w = true ->
  direct_flow w = Ok (w', r) ->
  _d8_active_links (grid w)
    = Ok (_active_links (self w'), _activelink_tail (self w'),
          _activelink_head (self w')) /\
  _bc_set_code (self w') = Some (bc_set_code (grid w)) /\
  status_at_node (grid w') = status_at_node (grid w) /\
  bc_set_code (grid w') = bc_set_code (grid w) /\
  (forall status, bc_set_code_differs (mutate_status w' status) = true) /\
  (sized (grid w) = true ->
   forall n, (n < length (elevs w))%nat ->
     exists rc,
       nth_error (flow__receiver_node (at_node (grid w'))) n = Some rc /\
       (rc = Z.of_nat n \/
        exists L d, outflow (grid w) (Z.of_nat n) L rc d)).
Proof.
  intros Hd H. pose proof H as Hflow. rewrite direct_flow_stages in H.
  apply obind_Ok in H as [w0 [H0 H]]. apply obind_Ok in H as [res [Hr Hp]].
  destruct (check_bcs_rederives _ _ Hd H0) as [Hf Hrec].
  pose proof (check_bcs_grid _ _ H0) as Hgrid.
  destruct (publish_self _ _ _ _ Hp) as (Ha & Ht & Hh & Hb & Hv & _).
  destruct (publish_keeps_route _ _ _ _ Hp) as (_ & Hdiff & Hst & _).
  unfold cache_fresh in Hf. rewrite Hgrid in Hf, Hst, Hv.
  rewrite Ha, Ht, Hh, Hb.
  split; [exact Hf |]. split; [exact Hrec |]. split; [exact Hst |].
  split; [exact Hv |]. split.
  { intros status. apply mutate_status_differs.
    rewrite Hdiff. exact (check_bcs_synced _ _ H0). }
  intros Hs n Hn.
  destruct (direct_flow_fresh _ _ _ Hs (or_introl Hd) Hflow) as (links & Hl & Hnodes).
  destruct (Hnodes n Hn) as (Hrc & _).
  eexists. split; [exact Hrc |].
  destruct (routed_node_cases (grid w) links n) as [[_ E] | [_ E]];
    rewrite E; [now left |].
  destruct (route_node_cases links (Z.of_nat n))
    as [[_ Hroute] | (c & Hin & _ & _ & Hroute)]; rewrite Hroute;
    cbn [fst snd].
  - now left.
  - right. exists (via c), (drop c). now apply (candidate_outflow _ links).
Qed.

Lemma forallb_is_node (a : list Z) (n : nat) (i : Z) :
  forallb (fun i => (0 <=? i) && (i <? Z.of_nat n)) a = true ->
  In i a -> 0 <= i < Z.of_nat n.
Proof.
  rewrite forallb_forall. intros H Hi. apply H in Hi.
  apply andb_true_iff in Hi as [H1 H2]. lia.
Qed.

Lemma d8_active_links_total (g : ModelGrid) :
  tables_ok g = true ->
  exists dal d8t d8h, _d8_active_links g = Ok (dal, d8t, d8h).
Proof.
  unfold tables_ok. rewrite !andb_true_iff, Nat.eqb_eq.
  intros [[Ht Hh] Hlen]. unfold _d8_active_links.
  destruct (active_links_total 0 (0, 0)%nat (status_at_node g)
              (d8_link_tail g) (d8_link_head g)) as [dal Hdal];
    [intros i; now apply forallb_is_node
    | intros i; now apply forallb_is_node | exact Hlen |].
  rewrite Hdal. cbn [lift obind].
  pose proof (active_links_ids _ _ _ _ _ _ Hlen Hdal) as Hids.
  destruct (take_total (d8_link_tail g) dal Hids) as [d8t Hd8t].
  destruct (take_total (d8_link_head g) dal) as [d8h Hd8h].
  { intros i Hi. rewrite <- Hlen. now apply Hids. }
  rewrite Hd8t, Hd8h. cbn [lift obind]. eauto.
Qed.

(** C7. Constructing the component on an irregular grid raises
    [NotImplementedError] and yields no component, so that nothing is
    routed; on a raster grid with a well-formed link table the
    construction succeeds, on that grid, with the active links of its
    current statuses. *)
Theorem init_checks_grid_class (g : ModelGrid) :
  (class_of g = VoronoiDelaunayGrid ->
   __init__ g = Raise NotImplementedError) /\
  (class_of g = RasterModelGrid -> tables_ok g = true ->
   exists w, __init__ g = Ok w /\ grid w = g /\ cache_fresh w).
Proof.
  unfold __init__, _FlowDirectorToOne__init__, isinstance_VoronoiDelaunayGrid.
  cbn [grid self _is_Voroni]. split; intros ->; [reflexivity |].
  intros Hok. destruct (d8_active_links_total g Hok) as (dal & d8t & d8h & Hd).
  unfold updated_boundary_conditions. cbn [grid self]. rewrite Hd.
  cbn [obind]. eexists. split; [reflexivity |]. split; [reflexivity |].
  unfold cache_fresh. cbn [grid self _active_links _activelink_tail
                             _activelink_head]. exact Hd.
Qed.

End Orchestrator.

(** ** Totality *)

Section Totality.

Import Py structured_grid flow_director stages.
Open Scope Z_scope.

Lemma take_incl {A : Type} (a : list A) (idx : list Z) (xs : list A) (x : A) :
  take a idx = Some xs -> In x xs -> In x a.
Proof.
  intros H Hx. apply In_nth_error in Hx as [k Hk].
  assert (Hlt : (k < length idx)%nat).
  { rewrite <- (take_length _ _ _ H). apply nth_error_Some. congruence. }
  destruct (nth_error idx k) as [i|] eqn:Ei;
    [| apply nth_error_None in Ei; lia].
  destruct (take_nth _ _ _ H k i Ei) as [y [Hy1 Hy2]].
  apply item_In in Hy1. congruence.
Qed.

Lemma node_value_total (elev : list R) (n : Z) :
  0 <= n < Z.of_nat (length elev) -> exists z, node_value elev n = Some z.
Proof.
  intros H. unfold node_value.
  replace (0 <=? n) with true by (symmetry; apply Z.leb_le; lia).
  destruct (nth_error elev (Z.to_nat n)) eqn:E; [eauto |].
  apply nth_error_None in E. lia.
Qed.

Lemma zip_links_total (elev : list R) (ids ts hs : list Z) (ss : list R) :
  length ts = length ids -> length hs = length ids ->
  length ss = length ids ->
  (forall t, In t ts -> 0 <= t < Z.of_nat (length elev)) ->
  (forall h, In h hs -> 0 <= h < Z.of_nat (length elev)) ->
  exists links, zip_links elev ids ts hs ss = Ok links.
Proof.
  revert ts hs ss.
  induction ids as [|i ids IH]; intros [|t ts] [|h hs] [|s ss] H1 H2 H3 Ht Hh;
    simpl in *; try discriminate; [eauto |].
  destruct (node_value_total elev t) as [zt ->]; [apply Ht; now left |].
  destruct (node_value_total elev h) as [zh ->]; [apply Hh; now left |].
  destruct (IH ts hs ss) as [links ->]; try lia;
    [intros x Hx; apply Ht; now right | intros x Hx; apply Hh; now right |].
  cbn [lift obind]. eauto.
Qed.

(** The tail and head sub-tables hold nodes of the grid. *)
Lemma d8_active_links_nodes (g : ModelGrid) (dal d8t d8h : list Z) :
  tables_ok g = true ->
  _d8_active_links g = Ok (dal, d8t, d8h) ->
  length d8t = length dal /\ length d8h = length dal /\
  (forall L, In L dal -> 0 <= L < Z.of_nat (length (d8_link_tail g))) /\
  (forall t, In t d8t -> 0 <= t < Z.of_nat (length (status_at_node g))) /\
  (forall h, In h d8h -> 0 <= h < Z.of_nat (length (status_at_node g))).
Proof.
  unfold tables_ok. rewrite !andb_true_iff, Nat.eqb_eq.
  intros [[Ht Hh] Hlen]. unfold _d8_active_links. intros H.
  apply obind_Ok in H as [dal' [Hdal H]]. apply obind_Ok in H as [t' [Ht' H]].
  apply obind_Ok in H as [h' [Hh' H]]. injection H as -> -> ->.
  apply lift_Ok in Hdal, Ht', Hh'.
  split; [exact (take_length _ _ _ Ht') |].
  split; [exact (take_length _ _ _ Hh') |].
  split; [exact (active_links_ids _ _ _ _ _ _ Hlen Hdal) |].
  split; intros x Hx.
  - apply (forallb_is_node _ _ _ Ht). eapply take_incl; eauto.
  - apply (forallb_is_node _ _ _ Hh). eapply take_incl; eauto.
Qed.

(** The end of the router returns when the base-level nodes are nodes of
    the elevation array. *)
Lemma flow_directions_reset (N : nat) (links : list link)
  (baselevel_nodes : list Z) :
  (forall i, In i baselevel_nodes -> 0 <= i < Z.of_nat N) ->
  let node_id := arange (Z.of_nat N) in
  let routed := map (route_node links) node_id in
  exists res,
    (baselevel_ids <~ lift IndexError (take node_id baselevel_nodes) ;;
     receiver <~ lift IndexError
                   (put_array (map (fun r => fst (fst r)) routed)
                      baselevel_nodes baselevel_ids) ;;
     receiver_link <~ lift IndexError
                        (fill_at (map (fun r => snd r) routed)
                           baselevel_nodes UNDEFINED_INDEX) ;;
     steepest_slope <~ lift IndexError
                         (fill_at (map (fun r => snd (fst r)) routed)
                            baselevel_nodes 0%R) ;;
     same <~ lift ValueError (map2 Z.eqb node_id receiver) ;;
     Ok (receiver, steepest_slope, where_ same, receiver_link)) = Ok res.
Proof.
  intros Hb node_id routed.
  assert (Hlen : length routed = N)
    by (unfold routed, node_id; now rewrite length_map, arange_length).
  destruct (take_total node_id baselevel_nodes) as [bids Hbids].
  { intros i Hi. unfold node_id. rewrite arange_length. now apply Hb. }
  rewrite Hbids. cbn [lift obind].
  assert (Ebids : bids = baselevel_nodes).
  { apply (take_arange N); [intros i Hi; now apply Hb | exact Hbids]. }
  subst bids.
  assert (Hput : exists rc,
             put_array (map (fun r => fst (fst r)) routed) baselevel_nodes
               baselevel_nodes = Some rc /\ length rc = N).
  { unfold put_array, put. rewrite Nat.eqb_refl.
    destruct baselevel_nodes as [|b0 bs] eqn:Eb.
    - eexists. split; [reflexivity |]. now rewrite length_map.
    - rewrite <- Eb in *.
      destruct (put_from_total baselevel_nodes baselevel_nodes) with
        (k := 0%nat) (a := map (fun r => fst (fst r)) routed) as [rc Hrc].
      + rewrite Eb. discriminate.
      + intros i Hi. rewrite length_map, Hlen. now apply Hb.
      + exists rc. split; [exact Hrc |].
        destruct (put_from_ids baselevel_nodes [] _ _
                    (fun i Hi => proj1 (Hb i Hi)) Hrc) as [L _].
        now rewrite L, length_map. }
  destruct Hput as (rc & Hrc & Lrc). rewrite Hrc. cbn [lift obind].
  destruct (fill_at_total (map (fun r => snd r) routed) baselevel_nodes
              UNDEFINED_INDEX) as [lk Hlk].
  { intros i Hi. rewrite length_map, Hlen. now apply Hb. }
  rewrite Hlk. cbn [lift obind].
  destruct (fill_at_total (map (fun r => snd (fst r)) routed) baselevel_nodes
              0%R) as [sl Hsl].
  { intros i Hi. rewrite length_map, Hlen. now apply Hb. }
  rewrite Hsl. cbn [lift obind].
  destruct (map2_total Z.eqb node_id rc) as [same Hsame].
  { unfold node_id. now rewrite arange_length, Lrc. }
  rewrite Hsame. cbn [lift obind]. eauto.
Qed.

Lemma route_total (w : World) :
  grid_ok (grid w) = true -> cache_fresh w ->
  exists res, route w = Ok res.
Proof.
  unfold grid_ok, cache_fresh. rewrite !andb_true_iff, !Nat.eqb_eq.
  intros [[[Hok _] Hlen] Helev] Hf.
  destruct (d8_active_links_nodes _ _ _ _ Hok Hf) as (L1 & L2 & Hids & Ht & Hh).
  fold (elevs w) in Helev. rewrite <- Helev in Ht, Hh.
  unfold route, _calculate_gradients_at_d8_active_links. rewrite Hf.
  cbn [obind].
  destruct (take_total (d8_link_length (grid w)) (_active_links (self w)))
    as [len Hl]; [intros i Hi; rewrite Hlen; now apply Hids |].
  destruct (take_total (elevs w) (_activelink_tail (self w)) Ht) as [zt Hzt].
  destruct (take_total (elevs w) (_activelink_head (self w)) Hh) as [zh Hzh].
  rewrite Hl, Hzt, Hzh. cbn [lift obind].
  pose proof (take_length _ _ _ Hl) as Ll.
  pose proof (take_length _ _ _ Hzt) as Lt.
  pose proof (take_length _ _ _ Hzh) as Lh.
  destruct (map2_total Rminus zh zt) as [diff Hdiff]; [congruence |].
  pose proof (map2_length _ _ _ _ Hdiff) as Ld.
  destruct (map2_total Rdiv diff len) as [grads Hgr]; [congruence |].
  pose proof (map2_length _ _ _ _ Hgr) as Lg.
  rewrite Hdiff. cbn [lift obind]. rewrite Hgr. cbn [lift obind].
  unfold flow_directions.
  destruct (zip_links_total (elevs w) (_active_links (self w))
              (_activelink_tail (self w)) (_activelink_head (self w))
              (map Ropp grads)) as [links Hz];
    [exact L1 | exact L2 | rewrite length_map; congruence
    | exact Ht | exact Hh |].
  rewrite Hz. cbn [obind].
  apply flow_directions_reset.
  intros i Hi. apply where_bound in Hi.
  rewrite length_map, <- Helev in Hi. exact Hi.
Qed.

Lemma publish_total (w : World) (links : list link) (base : list Z)
  (res : list Z * list R * list Z * list Z) :
  sized (grid w) = true ->
  routed_arrays links base (length (elevs w)) res ->
  exists w' r, publish w res = Ok (w', r).
Proof.
  intros Hs. destruct res as [[[receiver steepest_slope] sink_] recvr_link].
  intros (Hrc & Hsl & Hlk & same & Hsame & Hsink).
  destruct (sized_lengths _ Hs) as (L1 & L2 & L3 & L4).
  fold (elevs w) in L1, L2, L3, L4.
  assert (Hlen : length (map (routed_node links base)
                           (arange (Z.of_nat (length (elevs w)))))
                 = length (elevs w))
    by now rewrite length_map, arange_length.
  assert (Lrc : length receiver = length (elevs w))
    by now rewrite Hrc, length_map.
  unfold publish, assign_all.
  rewrite Lrc, L1, Nat.eqb_refl. cbn [obind].
  rewrite Hsl, length_map, Hlen, L2, Nat.eqb_refl. cbn [obind].
  rewrite Hlk, length_map, Hlen, L3, Nat.eqb_refl. cbn [obind].
  rewrite length_map, Lrc, L4, Nat.eqb_refl. cbn [obind].
  rewrite Hsink, fill_where
    by now rewrite (map2_length _ _ _ _ Hsame), arange_length.
  cbn [lift obind]. eauto.
Qed.

(** On a well-formed grid, with a cache that is fresh or known to be
    stale, [direct_flow] returns. *)
Theorem direct_flow_total (w : World) :
  grid_ok (grid w) = true -> cache_ok w ->
  exists w' r, direct_flow w = Ok (w', r).
Proof.
  intros Hok Hc.
  assert (Hparts : tables_ok (grid w) = true /\ sized (grid w) = true).
  { unfold grid_ok in Hok. rewrite !andb_true_iff in Hok. tauto. }
  destruct Hparts as [Htab Hs].
  assert (H0 : exists w0, check_bcs w = Ok w0).
  { unfold check_bcs, updated_boundary_conditions.
    destruct (bc_set_code_differs w); [| eauto].
    destruct (d8_active_links_total _ Htab) as (dal & d8t & d8h & ->).
    cbn [obind]. eauto. }
  destruct H0 as [w0 H0].
  pose proof (check_bcs_grid _ _ H0) as Hgrid.
  pose proof (check_bcs_cache_ok _ _ Hc H0) as Hf.
  destruct (route_total w0) as [res Hr]; [now rewrite Hgrid | exact Hf |].
  destruct (route_inv _ _ Hr) as (grads & links & _ & _ & Hra).
  destruct (publish_total w0 links (baselevel_nodes_of (grid w0)) res)
    as (w' & r & Hp);
    [now rewrite Hgrid | exact Hra |].
  exists w', r. rewrite direct_flow_stages, H0. cbn [obind].
  rewrite Hr. cbn [obind]. exact Hp.
Qed.

End Totality.

(** ** The states a caller can reach *)

Section Reachable.

Import Py structured_grid flow_director stages scenario.
Open Scope Z_scope.

Lemma direct_flow_synced (w w' : World) (r : list Z) :
  cache_ok w -> direct_flow w = Ok (w', r) ->
  cache_fresh w' /\ _bc_set_code (self w') = Some (bc_set_code (grid w')).
Proof.
  intros Hc H. rewrite direct_flow_stages in H.
  apply obind_Ok in H as [w0 [H0 H]]. apply obind_Ok in H as [res [Hr Hp]].
  pose proof (check_bcs_cache_ok _ _ Hc H0) as Hf.
  pose proof (check_bcs_synced _ _ H0) as Hsync.
  destruct (publish_self _ _ _ _ Hp) as (Ha & Ht & Hh & Hb & Hv & Hd).
  split.
  - unfold cache_fresh in *. now rewrite Hd, Ha, Ht, Hh.
  - rewrite Hb, Hv. unfold bc_set_code_differs in Hsync.
    destruct (_bc_set_code (self w0)) as [c|]; [| discriminate].
    apply negb_false_iff, Z.eqb_eq in Hsync. now subst c.
Qed.

(** Every state a caller can reach has a cache that is fresh, or a
    recorded version that differs from the one of the grid. *)
Theorem reachable_cache_ok (w : World) :
  reachable w -> version_behind w /\ cache_ok w.
Proof.
  induction 1 as [g w Hinit | w w' r _ [_ IH] Hstep | w status _ [IHv IH]
                 | w elevation _ [IHv IH]].
  - unfold __init__, _FlowDirectorToOne__init__ in Hinit.
    cbn [grid self _is_Voroni] in Hinit.
    destruct (isinstance_VoronoiDelaunayGrid g); [discriminate |].
    unfold updated_boundary_conditions in Hinit. cbn [grid self] in Hinit.
    apply obind_Ok in Hinit as [[[dal d8t] d8h] [_ Hinit]].
    injection Hinit as <-. split; [exact I | now left].
  - destruct (direct_flow_synced _ _ _ IH Hstep) as [Hf Hrec].
    split; [| now right]. unfold version_behind. rewrite Hrec. lia.
  - assert (Hd : bc_set_code_differs (mutate_status w status) = true).
    { unfold version_behind in IHv.
      unfold bc_set_code_differs, mutate_status, set_status_at_node.
      cbn [grid self bc_set_code].
      destruct (_bc_set_code (self w)) as [c|]; [| reflexivity].
      apply negb_true_iff, Z.eqb_neq. lia. }
    split; [| now left]. unfold version_behind in *.
    unfold mutate_status, set_status_at_node. cbn [grid self bc_set_code].
    destruct (_bc_set_code (self w)) as [c|]; [lia | exact I].
  - split; [exact IHv |]. destruct IH as [Hd | Hf]; [now left | now right].
Qed.

Lemma diagonal_link_index_range (shape : shape_t) (x : Z) :
  In x (fst (diagonal_link_index shape)) \/
  In x (snd (diagonal_link_index shape)) ->
  0 <= x < node_count shape.
Proof.
  unfold diagonal_link_index, node_count. cbn [fst snd].
  rewrite !in_flat_map.
  assert (Hsq : forall n,
             In n (flat_map
                     (fun r => map (fun c => r * ncols shape + c)
                                 (xrange 0 (ncols shape - 1)))
                     (xrange 0 (nrows shape - 1))) ->
             exists r c, n = r * ncols shape + c /\
                         0 <= r < nrows shape - 1 /\
                         0 <= c < ncols shape - 1).
  { intros n Hn. apply in_flat_map in Hn as [r [Hr Hn]].
    apply in_map_iff in Hn as [c [<- Hc]].
    apply xrange_In in Hr, Hc. eauto. }
  intros [[n [Hn Hx]] | [n [Hn Hx]]];
    destruct (Hsq n Hn) as (r & c & -> & Hr & Hc);
    simpl in Hx; destruct Hx as [<- | [<- | []]]; nia.
Qed.

(** The link table of a raster grid is well formed when the status array
    has one entry per node. *)
Lemma raster_model_grid_tables_ok (shape : shape_t) (spacing : R)
  (status : list Z) (elevation : list R) :
  Z.of_nat (length status) = node_count shape ->
  tables_ok (raster_model_grid shape spacing status elevation) = true.
Proof.
  intros Hlen. unfold tables_ok, raster_model_grid.
  cbn [status_at_node d8_link_tail d8_link_head].
  rewrite !andb_true_iff, Nat.eqb_eq, !forallb_forall. repeat split.
  - intros x Hx. rewrite Hlen. apply in_app_iff in Hx as [Hx | Hx].
    + apply from_node_links_range in Hx.
      apply andb_true_iff. split; [apply Z.leb_le | apply Z.ltb_lt]; lia.
    + pose proof (diagonal_link_index_range shape x (or_introl Hx)).
      apply andb_true_iff. split; [apply Z.leb_le | apply Z.ltb_lt]; lia.
  - intros x Hx. rewrite Hlen. apply in_app_iff in Hx as [Hx | Hx].
    + apply to_node_links_range in Hx.
      apply andb_true_iff. split; [apply Z.leb_le | apply Z.ltb_lt]; lia.
    + pose proof (diagonal_link_index_range shape x (or_intror Hx)).
      apply andb_true_iff. split; [apply Z.leb_le | apply Z.ltb_lt]; lia.
  - rewrite !length_app, node_link_index_lengths. f_equal.
    unfold diagonal_link_index. cbn [fst snd].
    generalize (flat_map
                  (fun r => map (fun c => r * ncols shape + c)
                              (xrange 0 (ncols shape - 1)))
                  (xrange 0 (nrows shape - 1))).
    intros sq. induction sq as [|n sq IH]; simpl; [reflexivity | now rewrite IH].
Qed.

(** Construction succeeds on every raster grid whose status array has one
    entry per node. *)
Lemma init_on_raster_grid (shape : shape_t) (spacing : R)
  (status : list Z) (elevation : list R) :
  Z.of_nat (length status) = node_count shape ->
  exists w,
    __init__ (raster_model_grid shape spacing status elevation) = Ok w /\
    grid w = raster_model_grid shape spacing status elevation /\
    cache_fresh w.
Proof.
  intros Hlen.
  pose proof (raster_model_grid_tables_ok shape spacing status elevation Hlen)
    as Hok.
  destruct (d8_active_links_total _ Hok) as (dal & d8t & d8h & Hd).
  unfold __init__, _FlowDirectorToOne__init__, updated_boundary_conditions.
  cbn [grid self _is_Voroni isinstance_VoronoiDelaunayGrid class_of
         raster_model_grid].
  fold (raster_model_grid shape spacing status elevation).
  rewrite Hd. cbn [obind]. eexists. split; [reflexivity |].
  split; [reflexivity |]. exact Hd.
Qed.

Lemma init_grid (g : ModelGrid) (w : World) :
  __init__ g = Ok w -> grid w = g /\ cache_fresh w.
Proof.
  unfold __init__, _FlowDirectorToOne__init__, updated_boundary_conditions.
  cbn [grid self _is_Voroni].
  destruct (isinstance_VoronoiDelaunayGrid g); [discriminate |].
  intros H. apply obind_Ok in H as [[[dal d8t] d8h] [Hd H]].
  injection H as <-. split; [reflexivity | exact Hd].
Qed.

(** The receivers saved by a step, as one array. *)
Lemma direct_flow_receivers (w w' : World) (r : list Z) :
  sized (grid w) = true ->
  direct_flow w = Ok (w', r) ->
  exists w0 grads links,
    check_bcs w = Ok w0 /\
    _calculate_gradients_at_d8_active_links (grid w0) (elevs w0) = Ok grads /\
    zip_links (elevs w0) (_active_links (self w0)) (_activelink_tail (self w0))
      (_activelink_head (self w0)) (map Ropp grads) = Ok links /\
    flow__receiver_node (at_node (grid w'))
    = map (fun n => fst (fst (routed_node links
                                (baselevel_nodes_of (grid w)) n)))
        (arange (Z.of_nat (length (elevs w)))).
Proof.
  intros Hs H.
  destruct (direct_flow_nodes _ _ _ Hs H)
    as (w0 & grads & links & H0 & Hg & Hz & _ & _ & Hlen & Hn).
  exists w0, grads, links. repeat (split; [assumption |]).
  apply nth_error_ext. intros n.
  destruct (Nat.lt_ge_cases n (length (elevs w))) as [Hlt | Hge].
  - rewrite (proj1 (Hn n Hlt)), nth_error_map, nth_error_arange by exact Hlt.
    reflexivity.
  - transitivity (@None Z); [| symmetry]; apply nth_error_None.
    + now rewrite Hlen.
    + now rewrite length_map, arange_length.
Qed.

(** The receivers saved by the first step after construction come from
    [first_step_links]. *)
Lemma first_step_receivers (g : ModelGrid) (w' : World) :
  sized g = true ->
  construct_and_run g = Ok w' ->
  exists links,
    first_step_links g = Ok links /\
    flow__receiver_node (at_node (grid w'))
    = map (fun n => fst (fst (routed_node links (baselevel_nodes_of g) n)))
        (arange (Z.of_nat (length (topographic__elevation (at_node g))))).
Proof.
  intros Hs H. unfold construct_and_run, run_one_step in H.
  apply obind_Ok in H as [w [Hinit H]].
  apply obind_Ok in H as [[w1 r] [Hflow H]]. injection H as <-.
  destruct (init_grid _ _ Hinit) as [Hgrid _].
  rewrite <- Hgrid in Hs.
  destruct (direct_flow_receivers _ _ _ Hs Hflow)
    as (w0 & grads & links & H0 & Hg & Hz & Hrc).
  exists links. split.
  - unfold first_step_links. rewrite Hinit. cbn [obind]. rewrite H0.
    cbn [obind]. rewrite Hg. cbn [obind]. exact Hz.
  - rewrite Hrc. unfold elevs. now rewrite Hgrid.
Qed.

(** Construction followed by one step returns on every well-formed
    raster grid. *)
Lemma construct_and_run_total (shape : shape_t) (spacing : R)
  (status : list Z) (elevation : list R) :
  Z.of_nat (length status) = node_count shape ->
  grid_ok (raster_model_grid shape spacing status elevation) = true ->
  exists w',
    construct_and_run (raster_model_grid shape spacing status elevation)
    = Ok w'.
Proof.
  intros Hlen Hok.
  destruct (init_on_raster_grid shape spacing status elevation Hlen)
    as (w & Hinit & Hgrid & Hf).
  destruct (direct_flow_total w) as (w' & r & Hflow);
    [now rewrite Hgrid | now right |].
  exists w'. unfold construct_and_run, run_one_step.
  rewrite Hinit. cbn [obind]. rewrite Hflow. reflexivity.
Qed.

End Reachable.

(** ** The scenario of the doctest *)

Section Doctest.

Import Py structured_grid flow_director stages scenario.
Open Scope Z_scope.

Lemma sqrt2_pos : (0 < sqrt 2)%R.
Proof. apply sqrt_lt_R0. lra. Qed.

Lemma one_lt_sqrt2 : (1 < sqrt 2)%R.
Proof. rewrite <- sqrt_1 at 1. apply sqrt_lt_1; lra. Qed.

Lemma diagonal_drop : (- - ((2 - 0) / (sqrt 2 * 1)))%R = sqrt 2.
Proof.
  pose proof sqrt2_pos as Hpos.
  assert (Hsq : (sqrt 2 * sqrt 2 = 2)%R) by (apply sqrt_sqrt; lra).
  set (s := sqrt 2) in *. rewrite <- Hsq. field. lra.
Qed.

Ltac real_arith :=
  rewrite ?diagonal_drop; pose proof one_lt_sqrt2; lra.

(** Evaluation that leaves the operations on real numbers alone. *)
Ltac eval_reals :=
  cbv -[IZR sqrt Rdiv Rminus Ropp Rltb Rmult Rplus Rinv Rlt_dec].

(** Settle the comparisons of concrete real numbers one after the other. *)
Ltac decide_Rltb :=
  repeat (match goal with
          | |- context [Rltb ?a ?b] =>
              first [ rewrite (Rltb_true a b) by real_arith
                    | rewrite (Rltb_false a b) by real_arith ]
          end; eval_reals).

Ltac run_scenario :=
  unfold construct_and_run, run_one_step, doctest_start;
  eval_reals; decide_Rltb.

(** The doctest: three sides closed, the bottom side open. *)
Lemma doctest_run :
  exists w',
    construct_and_run (grid_3x3 status_bottom_open) = Ok w' /\
    outputs (grid w') = doctest_outputs /\
    status_at_node (grid w') = status_bottom_open.
Proof.
  eexists. split; [run_scenario; reflexivity |].
  split; [| reflexivity].
  cbn. now rewrite diagonal_drop.
Qed.

(** The first step of the component on the grid of the doctest. *)
Lemma doctest_first_step :
  exists w' r,
    direct_flow doctest_start = Ok (w', r) /\
    outputs (grid w') = doctest_outputs.
Proof.
  eexists. eexists. split; [run_scenario; reflexivity |].
  cbn. now rewrite diagonal_drop.
Qed.

(** C3, as stated, fails: with the east side open and the three others
    closed (the corners of the east side open or closed), node 0 is closed,
    node 4 has no active link to a lower node and is its own receiver; the
    arrays of the doctest are not produced. *)
Lemma east_open_counterexample :
  (exists w',
     construct_and_run (grid_3x3 status_east_open) = Ok w' /\
     nth_error (flow__receiver_node (at_node (grid w'))) 4 = Some 4 /\
     nth_error (topographic__steepest_slope (at_node (grid w'))) 4
       = Some 0%R /\
     outputs (grid w') <> doctest_outputs) /\
  (exists w',
     construct_and_run (grid_3x3 status_east_open_corners_closed) = Ok w' /\
     nth_error (flow__receiver_node (at_node (grid w'))) 4 = Some 4 /\
     nth_error (topographic__steepest_slope (at_node (grid w'))) 4
       = Some 0%R /\
     outputs (grid w') <> doctest_outputs).
Proof.
  split; eexists; (split; [run_scenario; reflexivity |]);
    (split; [reflexivity |]); (split; [reflexivity |]);
    intros H; discriminate H.
Qed.

(** C1, as stated, fails at a base-level node. With the east side open,
    node 5 is a fixed-value boundary node and the strictly higher end of
    the active link 9, between nodes 4 and 5, with gradient 1; the step
    leaves node 5 as its own receiver, with slope 0 and no link. *)
Lemma baselevel_steepest_counterexample :
  exists w',
    construct_and_run (grid_3x3 status_east_open) = Ok w' /\
    nth_error (status_at_node (grid_3x3 status_east_open)) 5
      = Some FIXED_VALUE_BOUNDARY /\
    outflow (grid_3x3 status_east_open) 5 9 4 ((3 - 2) / 1)%R /\
    nth_error (flow__receiver_node (at_node (grid w'))) 5 = Some 5 /\
    nth_error (topographic__steepest_slope (at_node (grid w'))) 5
      = Some 0%R /\
    nth_error (flow__link_to_receiver_node (at_node (grid w'))) 5
      = Some (-1) /\
    ~ (exists L m d,
         outflow (grid_3x3 status_east_open) 5 L m d /\
         (forall L' m' d',
            outflow (grid_3x3 status_east_open) 5 L' m' d' -> (d' <= d)%R) /\
         nth_error (topographic__steepest_slope (at_node (grid w'))) 5
           = Some d).
Proof.
  assert (Hout : outflow (grid_3x3 status_east_open) 5 9 4 ((3 - 2) / 1)%R).
  { exists 4, 5, 3%R, 2%R, 1%R.
    split.
    { split; [reflexivity |]. split; [reflexivity |]. split; [lia |].
      exists INTERIOR_NODE, FIXED_VALUE_BOUNDARY. now repeat split. }
    split; [right; now split |].
    split; [reflexivity |]. split; [reflexivity |]. split; [lra |].
    split; reflexivity. }
  eexists. split; [run_scenario; reflexivity |].
  split; [reflexivity |]. split; [exact Hout |].
  split; [reflexivity |]. split; [reflexivity |]. split; [reflexivity |].
  intros (L & m & d & _ & Hmax & Hd).
  cbn in Hd. injection Hd as <-.
  specialize (Hmax 9 4 _ Hout). lra.
Qed.

(** C3, amended. On the 3 by 3 raster grid with unit spacing, the bottom
    side (nodes 0, 1, 2) open and the three other sides closed, with
    elevation [x + y], constructing the component and running one step
    produces receiver = [0,1,2,3,0,5,6,7,8], steepest_slope[4] = sqrt 2 and
    0 elsewhere, link_to_receiver[4] = 12 and -1 elsewhere, and sink_flag
    = [1,1,1,1,0,1,1,1,1]; link 12 is the diagonal link between nodes 0
    and 4, of length sqrt 2. *)
Theorem doctest_bottom_open :
  (exists w',
     construct_and_run (grid_3x3 status_bottom_open) = Ok w' /\
     outputs (grid w') = doctest_outputs) /\
  nth_error (d8_link_tail (grid_3x3 status_bottom_open)) 12 = Some 0 /\
  nth_error (d8_link_head (grid_3x3 status_bottom_open)) 12 = Some 4 /\
  nth_error (d8_link_length (grid_3x3 status_bottom_open)) 12
    = Some (sqrt 2 * 1)%R.
Proof.
  split; [| repeat split].
  destruct doctest_run as (w' & Hrun & Hout & _). now exists w'.
Qed.

(** C4, as stated, fails: in the doctest node 1 is a fixed-value
    boundary node, it is its own receiver and its sink flag is set. *)
Lemma baselevel_sink_counterexample :
  exists w',
    construct_and_run (grid_3x3 status_bottom_open) = Ok w' /\
    nth_error (status_at_node (grid w')) 1 = Some FIXED_VALUE_BOUNDARY /\
    nth_error (flow__receiver_node (at_node (grid w'))) 1 = Some 1 /\
    nth_error (flow__sink_flag (at_node (grid w'))) 1 = Some true /\
    ~ (forall n flag rc st,
         nth_error (flow__sink_flag (at_node (grid w'))) n = Some flag ->
         nth_error (flow__receiver_node (at_node (grid w'))) n = Some rc ->
         nth_error (status_at_node (grid w')) n = Some st ->
         (flag = true <->
          rc = Z.of_nat n /\ st <> FIXED_VALUE_BOUNDARY
          /\ st <> FIXED_GRADIENT_BOUNDARY)).
Proof.
  destruct doctest_run as (w' & Hrun & Hout & Hst). exists w'.
  unfold outputs, doctest_outputs in Hout. injection Hout as Hrc Hsl Hlk Hfl.
  rewrite Hst, Hrc, Hfl. split; [exact Hrun |]. repeat split.
  intros H. specialize (H 1%nat true 1 FIXED_VALUE_BOUNDARY eq_refl eq_refl eq_refl).
  destruct H as [H _]. destruct (H eq_refl) as (_ & Hne & _). now apply Hne.
Qed.

(** A boundary change between two steps: after the step of the doctest
    the bottom left corner is closed; the next step sends node 4 to node 1
    along the orthogonal link 1, with slope 1. *)
Example boundary_change_reroutes :
  exists w1 w2 r,
    construct_and_run (grid_3x3 status_bottom_open) = Ok w1 /\
    direct_flow (mutate_status w1 status_corner_closed) = Ok (w2, r) /\
    outputs (grid w2)
    = ([0; 1; 2; 3; 1; 5; 6; 7; 8],
       [0; 0; 0; 0; 1; 0; 0; 0; 0]%R,
       [-1; -1; -1; -1; 1; -1; -1; -1; -1],
       [true; true; true; true; false; true; true; true; true]).
Proof.
  eexists. eexists. eexists.
  split; [run_scenario; reflexivity |].
  split; [run_scenario; reflexivity |].
  cbn. replace (- - ((2 - 1) / 1))%R with 1%R by lra. reflexivity.
Qed.

(** *** The second grid of the doctest *)

Lemma sqrt2_bounds : (14 / 10 < sqrt 2 < 15 / 10)%R.
Proof.
  pose proof sqrt2_pos as Hpos.
  assert (Hsq : (sqrt 2 * sqrt 2 = 2)%R) by (apply sqrt_sqrt; lra).
  set (s := sqrt 2) in *. split; nra.
Qed.

Lemma div_diagonal (x : R) : (x / (sqrt 2 * 1) = x * (sqrt 2 / 2))%R.
Proof.
  pose proof sqrt2_pos as Hpos.
  assert (Hsq : (sqrt 2 * sqrt 2 = 2)%R) by (apply sqrt_sqrt; lra).
  set (s := sqrt 2) in *.
  replace (s / 2)%R with (/ s)%R; [field; lra |].
  apply Rmult_eq_reg_l with s; [| lra].
  rewrite Rinv_r by lra. unfold Rdiv. rewrite <- Rmult_assoc, Hsq. field.
Qed.

Lemma candidates_cons (n : Z) (l : link) (ls : list link) :
  candidates n (l :: ls)
  = match outgoing n l with
    | Some c => c :: candidates n ls
    | None => candidates n ls
    end.
Proof. reflexivity. Qed.

Lemma steepest_from_cons (b c : candidate) (cs : list candidate) :
  steepest_from b (c :: cs)
  = if Rltb (drop b) (drop c) then steepest_from c cs else steepest_from b cs.
Proof. reflexivity. Qed.

Ltac compare_reals :=
  rewrite ?div_diagonal; pose proof sqrt2_bounds; lra.

Ltac decide_one_Rltb :=
  match goal with
  | |- context [Rltb ?a ?b] =>
      first [ rewrite (Rltb_true a b) by compare_reals
            | rewrite (Rltb_false a b) by compare_reals ]
  end.

(** [route_node] on concrete links, one link and one comparison at a
    time. *)
Ltac step_route :=
  repeat (rewrite candidates_cons; unfold outgoing;
          cbn [tail head z_tail z_head link_id slope Z.eqb Pos.eqb andb];
          repeat (decide_one_Rltb; cbn [andb]));
  cbv zeta; unfold no_outflow; cbn [candidates];
  repeat (rewrite steepest_from_cons; cbn [drop]; decide_one_Rltb; cbn [andb]);
  cbn [steepest_from to drop via fst snd].

Lemma routed_receivers (links : list link) (base l : list Z) :
  map (fun n => fst (fst (routed_node links base n))) l
  = map (fun n => if contains n base then n
                  else fst (fst (route_node links n))) l.
Proof.
  apply map_ext. intros n. unfold routed_node. now destruct (contains n base).
Qed.

(** Settle the membership tests of concrete nodes. *)
Ltac decide_contains :=
  repeat match goal with
         | |- context [contains ?k ?b] =>
             let v := eval vm_compute in (contains k b) in
             change (contains k b) with v
         end;
  cbv iota.

Lemma links_5x4_receivers :
  map (fun n => fst (fst (routed_node links_5x4
                            (baselevel_nodes_of
                               (grid_5x4 status_5x4_bottom_open)) n)))
      (arange 20)
  = [0; 1; 2; 3; 4; 1; 2; 7; 8; 6; 6; 11; 12; 10; 10; 15; 16; 17; 18; 19].
Proof.
  replace (baselevel_nodes_of (grid_5x4 status_5x4_bottom_open))
    with [0; 1; 2; 3] by reflexivity.
  rewrite routed_receivers.
  replace (arange 20)
    with [0; 1; 2; 3; 4; 5; 6; 7; 8; 9; 10; 11; 12; 13; 14; 15; 16; 17; 18; 19]
    by reflexivity.
  cbn [map]. decide_contains.
  unfold links_5x4, route_node. step_route. reflexivity.
Qed.

(** The second doctest of [FlowDirectorD8]: with the bottom side open the
    receivers are those printed in the source. *)
Example doctest_5x4_bottom_open :
  exists w',
    construct_and_run (grid_5x4 status_5x4_bottom_open) = Ok w' /\
    flow__receiver_node (at_node (grid w'))
    = [ 0;  1;  2;  3;
        4;  1;  2;  7;
        8;  6;  6; 11;
       12; 10; 10; 15;
       16; 17; 18; 19].
Proof.
  destruct (construct_and_run_total (5, 4)%nat 1%R status_5x4_bottom_open
              elevation_basin eq_refl eq_refl) as [w' Hrun].
  exists w'. split; [exact Hrun |].
  destruct (first_step_receivers (grid_5x4 status_5x4_bottom_open) w'
              eq_refl Hrun) as (links & Hl & ->).
  assert (Hlinks : first_step_links (grid_5x4 status_5x4_bottom_open)
                   = Ok links_5x4)
    by (unfold links_5x4; eval_reals; reflexivity).
  rewrite Hlinks in Hl. injection Hl as <-. exact links_5x4_receivers.
Qed.

(** With the east side open instead, node 10 drains to the open node 11
    and not to node 6 as printed in the source. *)
Example doctest_5x4_east_open :
  exists w',
    construct_and_run (grid_5x4 status_5x4_east_open) = Ok w' /\
    nth_error (flow__receiver_node (at_node (grid w'))) 10 = Some 11.
Proof.
  destruct (construct_and_run_total (5, 4)%nat 1%R status_5x4_east_open
              elevation_basin eq_refl eq_refl) as [w' Hrun].
  exists w'. split; [exact Hrun |].
  destruct (first_step_receivers (grid_5x4 status_5x4_east_open) w'
              eq_refl Hrun) as (links & Hl & ->).
  assert (Hlinks : first_step_links (grid_5x4 status_5x4_east_open)
                   = Ok links_5x4_east_open)
    by (unfold links_5x4_east_open; eval_reals; reflexivity).
  rewrite Hlinks in Hl. injection Hl as <-.
  rewrite nth_error_map.
  replace (nth_error (arange _) 10) with (Some 10) by reflexivity.
  cbn [option_map]. f_equal. unfold routed_node.
  replace (contains 10 (baselevel_nodes_of (grid_5x4 status_5x4_east_open)))
    with false by reflexivity.
  unfold links_5x4_east_open, route_node. step_route. reflexivity.
Qed.

(** *** The general theorems at the first step of the doctest *)

Lemma doctest_start_outflow :
  outflow (grid doctest_start) 4 12 0 ((2 - 0) / (sqrt 2 * 1))%R.
Proof.
  exists 0, 4, 2%R, 0%R, (sqrt 2 * 1)%R.
  split.
  { split; [reflexivity |]. split; [reflexivity |]. split; [lia |].
    exists FIXED_VALUE_BOUNDARY, INTERIOR_NODE. now repeat split. }
  split; [right; now split |].
  split; [reflexivity |]. split; [reflexivity |]. split; [lra |].
  split; reflexivity.
Qed.

Lemma doctest_start_lengths :
  Forall (fun len => (0 < len)%R) (d8_link_length (grid doctest_start)).
Proof.
  pose proof sqrt2_pos. unfold doctest_start. eval_reals.
  repeat constructor; lra.
Qed.

Lemma doctest_start_nodes (n : nat) :
  (n < 9)%nat -> (n < length (elevs doctest_start))%nat.
Proof. intros H. exact H. Qed.

Lemma steepest_selection_witness :
  exists w' r,
    direct_flow doctest_start = Ok (w', r) /\
    exists L m d,
      outflow (grid doctest_start) 4 L m d /\
      nth_error (topographic__steepest_slope (at_node (grid w'))) 4 = Some d /\
      nth_error (flow__receiver_node (at_node (grid w'))) 4 = Some m /\
      nth_error (flow__link_to_receiver_node (at_node (grid w'))) 4 = Some L.
Proof.
  destruct doctest_first_step as (w' & r & Hrun & _). exists w', r.
  split; [exact Hrun |].
  destruct (steepest_selection doctest_start w' r 4 INTERIOR_NODE eq_refl
              (or_introl eq_refl) doctest_start_lengths Hrun
              (ex_intro _ 12 (ex_intro _ 0 (ex_intro _ _ doctest_start_outflow)))
              eq_refl)
    as [Hsel _].
  destruct Hsel as (L & m & d & H1 & _ & H3 & H4 & H5);
    [discriminate | discriminate |].
  exists L, m, d. repeat split; assumption.
Defined.

Lemma sink_flag_iff_self_receiver_witness :
  exists w' r,
    direct_flow doctest_start = Ok (w', r) /\
    exists flag rc,
      nth_error (flow__sink_flag (at_node (grid w'))) 1 = Some flag /\
      nth_error (flow__receiver_node (at_node (grid w'))) 1 = Some rc /\
      (flag = true <-> rc = 1).
Proof.
  destruct doctest_first_step as (w' & r & Hrun & _). exists w', r.
  split; [exact Hrun |].
  apply (sink_flag_iff_self_receiver doctest_start w' r 1 eq_refl Hrun).
  apply doctest_start_nodes. lia.
Defined.

Lemma zero_slope_iff_self_receiver_witness :
  exists w' r,
    direct_flow doctest_start = Ok (w', r) /\
    exists s rc,
      nth_error (topographic__steepest_slope (at_node (grid w'))) 4 = Some s /\
      nth_error (flow__receiver_node (at_node (grid w'))) 4 = Some rc /\
      (0 <= s)%R /\ (s = 0%R <-> rc = 4).
Proof.
  destruct doctest_first_step as (w' & r & Hrun & _). exists w', r.
  split; [exact Hrun |].
  apply (zero_slope_iff_self_receiver doctest_start w' r 4 eq_refl
           (or_introl eq_refl) doctest_start_lengths Hrun).
  apply doctest_start_nodes. lia.
Defined.

Lemma direct_flow_rederives_witness :
  exists w' r,
    direct_flow doctest_start = Ok (w', r) /\
    _d8_active_links (grid doctest_start)
      = Ok (_active_links (self w'), _activelink_tail (self w'),
            _activelink_head (self w')) /\
    _bc_set_code (self w') = Some (bc_set_code (grid doctest_start)).
Proof.
  destruct doctest_first_step as (w' & r & Hrun & _). exists w', r.
  split; [exact Hrun |].
  destruct (direct_flow_rederives doctest_start w' r eq_refl Hrun)
    as (H1 & H2 & _).
  split; assumption.
Defined.

Lemma init_checks_grid_class_witness :
  __init__ irregular_grid = Raise NotImplementedError /\
  exists w, __init__ (grid_3x3 status_bottom_open) = Ok w.
Proof.
  split.
  - exact (proj1 (init_checks_grid_class irregular_grid) eq_refl).
  - destruct (proj2 (init_checks_grid_class (grid_3x3 status_bottom_open))
                eq_refl eq_refl) as (w & H & _).
    exists w. exact H.
Defined.

Lemma direct_flow_idempotent_witness :
  exists w' r,
    direct_flow doctest_start = Ok (w', r) /\
    direct_flow w' = Ok (w', r).
Proof.
  destruct doctest_first_step as (w' & r & Hrun & _). exists w', r.
  split; [exact Hrun |].
  exact (proj1 (direct_flow_idempotent doctest_start w' r Hrun)).
Defined.

End Doctest.

(** * More of [structured_grid.py] *)

(** ** Ranges and index assignments *)

Section ArrayFacts.

Import Py structured_grid.
Open Scope Z_scope.

Lemma xrange_length (a b : Z) : length (xrange a b) = Z.to_nat (b - a).
Proof. unfold xrange. now rewrite length_map, length_seq. Qed.

Lemma xrange_nth (a b : Z) (k : nat) :
  (k < Z.to_nat (b - a))%nat ->
  nth_error (xrange a b) k = Some (a + Z.of_nat k).
Proof.
  intros H. unfold xrange. rewrite nth_error_map, nth_error_seq.
  destruct (Nat.ltb_spec k (Z.to_nat (b - a))); [reflexivity | lia].
Qed.

Lemma xrange_In_iff (a b x : Z) : In x (xrange a b) <-> a <= x < b.
Proof.
  split; [apply xrange_In |]. intros H. unfold xrange.
  apply in_map_iff. exists (Z.to_nat (x - a)). split; [lia |].
  apply in_seq. lia.
Qed.

Lemma xrange3_zero_step (a b : Z) : xrange3 a b 0 = None.
Proof. reflexivity. Qed.

Lemma xrange3_pos (a b s : Z) :
  0 < s ->
  xrange3 a b s
  = Some (map (fun k => a + Z.of_nat k * s)
            (seq 0 (Z.to_nat ((b - a + s - 1) / s)))).
Proof.
  intros H. unfold xrange3.
  replace (s =? 0) with false by (symmetry; apply Z.eqb_neq; lia).
  replace (0 <? s) with true by (symmetry; apply Z.ltb_lt; lia).
  reflexivity.
Qed.

(** The number of terms of [xrange(a, b, s)] for a positive step. *)
Lemma xrange3_count (a b s k : Z) :
  0 < s -> 0 <= k -> (k < (b - a + s - 1) / s <-> a + k * s < b).
Proof.
  intros Hs Hk. split; intros H.
  - assert (H1 : (k + 1) * s <= b - a + s - 1).
    { apply Z.le_trans with ((b - a + s - 1) / s * s).
      - apply Z.mul_le_mono_nonneg_r; lia.
      - pose proof (Z.mul_div_le (b - a + s - 1) s Hs). lia. }
    lia.
  - assert (H1 : k + 1 <= (b - a + s - 1) / s)
      by (apply Z.div_le_lower_bound; nia).
    lia.
Qed.

Lemma xrange3_In (a b s x : Z) (l : list Z) :
  0 < s -> xrange3 a b s = Some l ->
  (In x l <-> exists k, 0 <= k /\ x = a + k * s /\ x < b).
Proof.
  intros Hs H. rewrite xrange3_pos in H by exact Hs. injection H as <-.
  rewrite in_map_iff. split.
  - intros [k [<- Hk]]. apply in_seq in Hk. exists (Z.of_nat k).
    split; [lia |]. split; [reflexivity |].
    apply xrange3_count; lia.
  - intros [k [Hk [-> Hlt]]]. exists (Z.to_nat k).
    split; [now rewrite Z2Nat.id |]. apply in_seq.
    apply xrange3_count in Hlt; lia.
Qed.

(** A list is determined by its length and its entries. *)
Lemma list_eq_map_arange (l : list Z) (f : Z -> Z) (n : nat) :
  length l = n ->
  (forall k, (k < n)%nat -> nth_error l k = Some (f (Z.of_nat k))) ->
  l = map f (arange (Z.of_nat n)).
Proof.
  intros Hlen H. apply nth_error_ext. intros k.
  destruct (Nat.lt_ge_cases k n) as [Hlt | Hge].
  - now rewrite (H k Hlt), nth_error_map, nth_error_arange.
  - transitivity (@None Z); [| symmetry]; apply nth_error_None.
    + lia.
    + now rewrite length_map, arange_length.
Qed.

End ArrayFacts.

(** ** Interior and boundary nodes *)

Section NodeSets.

Import Py structured_grid.
Open Scope Z_scope.

Lemma row_col_of (c i j : Z) :
  0 <= j < c -> (i * c + j) / c = i /\ (i * c + j) mod c = j.
Proof.
  intros H. split.
  - rewrite Z.div_add_l by lia. rewrite Z.div_small by lia. lia.
  - rewrite Z.add_comm, Z.mod_add by lia. now apply Z.mod_small.
Qed.

Lemma node_of_row_col (c n : Z) :
  0 < c -> n = (n / c) * c + n mod c /\ 0 <= n mod c < c.
Proof.
  intros H. split.
  - pose proof (Z.div_mod n c). lia.
  - apply Z.mod_pos_bound. lia.
Qed.

Lemma row_bounds (c n rows : Z) :
  0 < c -> (0 <= n < rows * c <-> 0 <= n / c < rows).
Proof.
  intros Hc. destruct (node_of_row_col c n Hc) as [Hn Hm]. split; intros H.
  - split.
    + apply Z.div_pos; lia.
    + apply Z.div_lt_upper_bound; lia.
  - nia.
Qed.

(** A node of the grid is an interior node or a perimeter node, never
    both. *)
Lemma interior_xor_perimeter (shape : shape_t) (n : Z) :
  0 < ncols shape -> 0 <= n < node_count shape ->
  is_interior_node shape n = negb (is_perimeter_node shape n).
Proof.
  intros Hc Hn. unfold is_interior_node, is_perimeter_node, node_count,
    node_row, node_col in *.
  apply row_bounds in Hn; [| exact Hc].
  pose proof (Z.mod_pos_bound n (ncols shape) Hc) as Hm.
  destruct (Z.leb_spec 1 (n / ncols shape));
    destruct (Z.leb_spec (n / ncols shape) (nrows shape - 2));
    destruct (Z.leb_spec 1 (n mod ncols shape));
    destruct (Z.leb_spec (n mod ncols shape) (ncols shape - 2));
    destruct (Z.eqb_spec (n / ncols shape) 0);
    destruct (Z.eqb_spec (n / ncols shape) (nrows shape - 1));
    destruct (Z.eqb_spec (n mod ncols shape) 0);
    destruct (Z.eqb_spec (n mod ncols shape) (ncols shape - 1));
    simpl; try reflexivity; lia.
Qed.

Lemma interior_nodes_In (shape : shape_t) :
  0 < ncols shape ->
  exists l,
    interior_nodes shape = Some l /\
    forall n, In n l <->
              0 <= n < node_count shape /\ is_interior_node shape n = true.
Proof.
  intros Hc. unfold interior_nodes, interior_iter.
  rewrite xrange3_pos by exact Hc. cbn [bind]. eexists. split; [reflexivity |].
  intros n. rewrite in_flat_map. unfold is_interior_node, node_row, node_col,
    node_count.
  rewrite !andb_true_iff, !Z.leb_le.
  destruct (node_of_row_col (ncols shape) n Hc) as [Hn Hm].
  set (c := ncols shape) in *. set (r := nrows shape) in *.
  split.
  - intros [row [Hrow Hx]]. apply xrange_In in Hx.
    apply in_map_iff in Hrow as [k [<- Hk]]. apply in_seq in Hk.
    assert (Hk' : c + 1 + Z.of_nat k * c < c * (r - 1)).
    { apply (xrange3_count (c + 1) (c * (r - 1)) c (Z.of_nat k)); lia. }
    replace n with ((Z.of_nat k + 1) * c + (n - (Z.of_nat k + 1) * c)) by lia.
    destruct (row_col_of c (Z.of_nat k + 1) (n - (Z.of_nat k + 1) * c))
      as [-> ->]; [lia |].
    assert (Z.of_nat k + 1 <= r - 2) by nia.
    split; [nia | lia].
  - intros [Hrange [[[H1 H2] H3] H4]].
    exists (c + 1 + (n / c - 1) * c). split.
    + apply in_map_iff. exists (Z.to_nat (n / c - 1)).
      split; [rewrite Z2Nat.id; lia |]. apply in_seq.
      assert (n / c - 1 < (c * (r - 1) - (c + 1) + c - 1) / c)
        by (apply xrange3_count; nia).
      lia.
    + apply xrange_In_iff. lia.
Qed.

Lemma boundary_nodes_In (shape : shape_t) :
  0 < ncols shape -> 0 < nrows shape ->
  exists l,
    boundary_nodes shape = Some l /\
    forall n, In n l <->
              0 <= n < node_count shape /\ is_perimeter_node shape n = true.
Proof.
  intros Hc Hr. unfold boundary_nodes, boundary_iter, left_right_iter.
  rewrite xrange3_pos by lia. cbn [bind]. eexists. split; [reflexivity |].
  intros n. rewrite !in_app_iff, in_flat_map.
  unfold bottom_index_iter, top_index_iter, is_perimeter_node, node_row,
    node_col, node_count.
  rewrite !xrange_In_iff, !orb_true_iff, !Z.eqb_eq.
  destruct (node_of_row_col (ncols shape) n Hc) as [Hn Hm].
  set (c := ncols shape) in *. set (r := nrows shape) in *.
  split.
  - intros [H | [[row [Hrow Hx]] | H]].
    + rewrite Z.div_small by lia. split; [nia | tauto].
    + apply in_map_iff in Hrow as [k [<- Hk]]. apply in_seq in Hk.
      assert (Hk' : 1 + Z.of_nat k * 1 < r - 1)
        by (apply (xrange3_count 1 (r - 1) 1 (Z.of_nat k)); lia).
      cbn [In] in Hx. destruct Hx as [<- | [<- | []]].
      * destruct (row_col_of c (1 + Z.of_nat k * 1) 0) as [E1 E2]; [lia |].
        rewrite Z.add_0_r in E1, E2. rewrite E1, E2. split; [nia | tauto].
      * replace ((1 + Z.of_nat k * 1) * c + c - 1)
          with ((1 + Z.of_nat k * 1) * c + (c - 1)) by lia.
        destruct (row_col_of c (1 + Z.of_nat k * 1) (c - 1)) as [-> ->];
          [lia |].
        split; [nia | tauto].
    + assert (n / c = r - 1).
      { symmetry. apply Z.div_unique with (r := n - (r - 1) * c); lia. }
      split; [nia | tauto].
  - intros [Hrange H].
    assert (Hrow : 0 <= n / c < r) by (apply row_bounds; lia).
    destruct (Z.eq_dec (n / c) 0) as [E0 | N0]; [left; nia |].
    destruct (Z.eq_dec (n / c) (r - 1)) as [E1 | N1]; [right; right; nia |].
    right. left. exists (n / c). split.
    + apply in_map_iff. exists (Z.to_nat (n / c - 1)).
      split; [rewrite Z2Nat.id; lia |]. apply in_seq.
      assert (n / c - 1 < (r - 1 - 1 + 1 - 1) / 1)
        by (apply xrange3_count; lia).
      lia.
    + cbn [In]. lia.
Qed.

End NodeSets.

(** ** Node status *)

Section NodeStatus.

Import Py structured_grid.
Open Scope Z_scope.

Lemma position_self (n k : nat) :
  (k < n)%nat -> position n (Z.of_nat k) = Some k.
Proof. intros H. apply position_nonneg; [lia | split; [reflexivity | exact H]]. Qed.

Lemma In_position (l : list Z) (n k : nat) :
  (forall i, In i l -> 0 <= i) ->
  (exists i, In i l /\ position n i = Some k) ->
  In (Z.of_nat k) l.
Proof.
  intros Hl [i [Hi Hp]]. apply position_nonneg in Hp; [| now apply Hl].
  destruct Hp as [-> _]. exact Hi.
Qed.

Lemma node_status_explicit (junk : Z) (shape : shape_t) (boundary_status : Z) :
  0 < nrows shape -> 0 < ncols shape ->
  -128 <= boundary_status <= 127 ->
  node_status junk shape boundary_status =
  Some (map (fun n => if is_interior_node shape n then INTERIOR_NODE
                      else boundary_status)
            (arange (node_count shape))).
Proof.
  intros Hr Hc Hfits.
  destruct (interior_nodes_In shape Hc) as [li [Ei Hi]].
  destruct (boundary_nodes_In shape Hc Hr) as [lb [Eb Hb]].
  unfold node_status. rewrite Ei. cbn [bind].
  set (N := Z.to_nat (node_count shape)).
  assert (HN : node_count shape = Z.of_nat N).
  { unfold N, node_count. rewrite Z2Nat.id; nia. }
  destruct (fill_at_total (repeat junk N) li INTERIOR_NODE) as [s1 E1].
  { intros i Hin. rewrite repeat_length, <- HN. now apply Hi. }
  rewrite E1, Eb, (int8_fits _ Hfits). cbn [bind].
  destruct (fill_at_nth _ _ _ _ E1) as [L1 F1]. rewrite repeat_length in L1, F1.
  destruct (fill_at_total s1 lb boundary_status) as [s2 E2].
  { intros i Hin. rewrite L1, <- HN. now apply Hb. }
  rewrite E2. f_equal.
  destruct (fill_at_nth _ _ _ _ E2) as [L2 F2]. rewrite L1 in L2, F2.
  rewrite HN. apply list_eq_map_arange; [exact L2 |].
  intros k Hk.
  assert (Hrange : 0 <= Z.of_nat k < node_count shape) by lia.
  pose proof (interior_xor_perimeter shape (Z.of_nat k) Hc Hrange) as Hx.
  destruct (is_perimeter_node shape (Z.of_nat k)) eqn:Ep; simpl in Hx;
    rewrite Hx.
  - apply (F2 k). exists (Z.of_nat k). split.
    + apply Hb. now split.
    + now apply position_self.
  - destruct (F2 k) as [_ ->].
    + apply (F1 k). exists (Z.of_nat k). split.
      * apply Hi. now split.
      * now apply position_self.
    + intros Hex. apply In_position in Hex.
      * apply Hb in Hex. destruct Hex as [_ Hex]. congruence.
      * intros i Hin. now apply Hb.
Qed.

(** X1: [node_status] on a grid with at least one row and one column, with
    a boundary status that fits the 8-bit integers of the status array
    (-128 to 127), does not depend on the uninitialised content of the
    array it starts from: it gives status 0 to the nodes strictly inside
    the grid and the boundary status to every other node. *)
Theorem node_status_spec (junk : Z) (shape : shape_t) (boundary_status : Z) :
  0 < nrows shape -> 0 < ncols shape ->
  -128 <= boundary_status <= 127 ->
  node_status junk shape boundary_status =
  Some (map (fun n => if is_interior_node shape n then INTERIOR_NODE
                      else boundary_status)
            (arange (node_count shape))).
Proof. apply node_status_explicit. Qed.

Lemma node_status_spec_witness :
  node_status 7 (3%nat, 4%nat) 1 =
  Some (map (fun n => if is_interior_node (3%nat, 4%nat) n then INTERIOR_NODE
                      else 1)
            (arange (node_count (3%nat, 4%nat)))).
Proof. apply node_status_spec; [reflexivity | reflexivity | lia]. Defined.

(** X2: with a boundary status that fits the 8-bit integers of the status
    array (-128 to 127), [node_status] raises exactly when the grid has no
    row or no column. *)
Theorem node_status_defined (junk : Z) (shape : shape_t) (boundary_status : Z) :
  -128 <= boundary_status <= 127 ->
  ((exists status, node_status junk shape boundary_status = Some status)
   <-> 0 < nrows shape /\ 0 < ncols shape).
Proof.
  intros Hfits. split.
  - intros [status H].
    destruct shape as [r c]. unfold nrows, ncols. cbn [fst snd].
    destruct c as [|c].
    + exfalso. revert H. unfold node_status, interior_nodes, interior_iter.
      change (ncols (r, 0%nat)) with 0. rewrite xrange3_zero_step.
      discriminate.
    + destruct r as [|r]; [exfalso | lia].
      revert H. unfold node_status.
      destruct (interior_nodes_In (0%nat, S c)) as [li [Ei Hi]];
        [unfold ncols; simpl; lia |].
      rewrite Ei. cbn [bind].
      destruct li as [|i li].
      * cbn [fill_at bind].
        unfold boundary_nodes, boundary_iter, left_right_iter.
        rewrite xrange3_pos by lia. cbn [bind].
        rewrite (int8_fits _ Hfits). cbn [bind].
        unfold bottom_index_iter, xrange.
        change (ncols (0%nat, S c)) with (Z.of_nat (S c)).
        replace (Z.to_nat (Z.of_nat (S c) - 0)) with (S c) by lia.
        cbn [seq map app fill_at]. unfold setitem, position.
        change (node_count (0%nat, S c)) with 0.
        cbn. discriminate.
      * exfalso. destruct (Hi i) as [Hin _].
        specialize (Hin (or_introl eq_refl)).
        unfold node_count, nrows in Hin. simpl in Hin. lia.
  - intros [Hr Hc]. eexists. now apply node_status_explicit.
Qed.

Lemma node_status_defined_witness :
  (exists status, node_status 7 (3%nat, 4%nat) 1 = Some status)
  <-> 0 < nrows (3%nat, 4%nat) /\ 0 < ncols (3%nat, 4%nat).
Proof. apply node_status_defined. lia. Defined.

End NodeStatus.

(** ** Order and size of the node lists *)

Section NodeOrder.

Import Py structured_grid.
Open Scope Z_scope.

Lemma sorted_map_seq {A : Type} (R : A -> A -> Prop) (f : nat -> A)
    (s n : nat) :
  (forall i j, (s <= i < j)%nat -> (j < s + n)%nat -> R (f i) (f j)) ->
  StronglySorted R (map f (seq s n)).
Proof.
  revert s. induction n as [|n IH]; intros s H; simpl; constructor.
  - apply IH. intros i j Hij Hj. apply H; lia.
  - apply Forall_forall. intros x Hx. apply in_map_iff in Hx as [j [<- Hj]].
    apply in_seq in Hj. apply H; lia.
Qed.

Lemma sorted_app {A : Type} (R : A -> A -> Prop) (l1 l2 : list A) :
  StronglySorted R l1 -> StronglySorted R l2 ->
  (forall x y, In x l1 -> In y l2 -> R x y) ->
  StronglySorted R (l1 ++ l2).
Proof.
  intros H1 H2 H. induction H1 as [|a l1 Hs IH Hf]; simpl; [exact H2 |].
  constructor.
  - apply IH. intros x y Hx Hy. apply H; [now right | exact Hy].
  - apply Forall_app. split; [exact Hf |].
    apply Forall_forall. intros y Hy. apply H; [now left | exact Hy].
Qed.

Lemma sorted_flat_map {A B : Type} (R : B -> B -> Prop) (g : A -> list B)
    (rs : list A) :
  StronglySorted (fun r r' => forall x y, In x (g r) -> In y (g r') -> R x y)
                 rs ->
  (forall r, In r rs -> StronglySorted R (g r)) ->
  StronglySorted R (flat_map g rs).
Proof.
  intros Hs Hg. induction Hs as [|r rs Hs IH Hf]; simpl; [constructor |].
  apply sorted_app.
  - apply Hg. now left.
  - apply IH. intros r' Hr'. apply Hg. now right.
  - intros x y Hx Hy. apply in_flat_map in Hy as [r' [Hr' Hy]].
    rewrite Forall_forall in Hf. exact (Hf r' Hr' x y Hx Hy).
Qed.

Lemma sorted_NoDup (l : list Z) : StronglySorted Z.lt l -> NoDup l.
Proof.
  intros H. induction H as [|a l Hs IH Hf]; constructor; [| exact IH].
  intros Hin. rewrite Forall_forall in Hf. specialize (Hf a Hin). lia.
Qed.

Lemma xrange_sorted (a b : Z) : StronglySorted Z.lt (xrange a b).
Proof. unfold xrange. apply sorted_map_seq. intros. lia. Qed.

Lemma flat_map_length_uniform {A B : Type} (g : A -> list B) (rs : list A)
    (m : nat) :
  (forall r, In r rs -> length (g r) = m) ->
  length (flat_map g rs) = (length rs * m)%nat.
Proof.
  intros H. induction rs as [|r rs IH]; simpl; [reflexivity |].
  rewrite length_app, H by now left. rewrite IH; [reflexivity |].
  intros r' Hr'. apply H. now right.
Qed.

Lemma interior_nodes_sorted (shape : shape_t) (l : list Z) :
  0 < ncols shape -> interior_nodes shape = Some l -> StronglySorted Z.lt l.
Proof.
  intros Hc. unfold interior_nodes, interior_iter.
  rewrite xrange3_pos by exact Hc. cbn [bind]. intros [= <-].
  apply sorted_flat_map.
  - apply sorted_map_seq. intros i j Hij _ x y Hx Hy.
    apply xrange_In in Hx, Hy. nia.
  - intros r _. apply xrange_sorted.
Qed.

Lemma interior_nodes_length (shape : shape_t) (l : list Z) :
  0 < ncols shape -> interior_nodes shape = Some l ->
  Z.of_nat (length l) = cell_count shape.
Proof.
  intros Hc. unfold interior_nodes, interior_iter, cell_count.
  rewrite xrange3_pos by exact Hc. cbn [bind]. intros [= <-].
  rewrite (flat_map_length_uniform _ _ (Z.to_nat (ncols shape - 2))).
  2:{ intros r _. rewrite xrange_length. f_equal. lia. }
  rewrite length_map, length_seq.
  set (c := ncols shape) in *. set (r := nrows shape) in *.
  destruct (Z.ltb_spec 2 (Z.min r c)) as [H | H].
  - assert (E : (c * (r - 1) - (c + 1) + c - 1) / c = r - 2).
    { symmetry. apply Z.div_unique with (r := c - 2); lia. }
    rewrite E. lia.
  - destruct (Z.le_gt_cases c 2) as [Hc2 | Hc2].
    + replace (Z.to_nat (c - 2)) with 0%nat by lia. lia.
    + assert (r <= 2) by lia.
      assert (E : (c * (r - 1) - (c + 1) + c - 1) / c <= 0).
      { assert ((c * (r - 1) - (c + 1) + c - 1) / c < 1); [| lia].
        apply Z.div_lt_upper_bound; nia. }
      replace (Z.to_nat _) with 0%nat by lia. lia.
Qed.

(** X3: on a grid with at least one column, [interior_nodes] lists, in
    increasing order and without repetition, exactly the nodes that lie
    strictly inside the grid; there are [cell_count] of them. *)
Theorem interior_nodes_spec (shape : shape_t) :
  0 < ncols shape ->
  exists l,
    interior_nodes shape = Some l /\
    StronglySorted Z.lt l /\
    (forall n, In n l <->
               0 <= n < node_count shape /\ is_interior_node shape n = true) /\
    Z.of_nat (length l) = cell_count shape.
Proof.
  intros Hc. destruct (interior_nodes_In shape Hc) as [l [E H]].
  exists l. split; [exact E |]. split; [| split; [exact H |]].
  - now apply (interior_nodes_sorted shape).
  - now apply interior_nodes_length.
Qed.

Lemma interior_nodes_spec_witness :
  exists l,
    interior_nodes (3%nat, 4%nat) = Some l /\
    StronglySorted Z.lt l /\
    (forall n, In n l <->
               0 <= n < node_count (3%nat, 4%nat) /\
               is_interior_node (3%nat, 4%nat) n = true) /\
    Z.of_nat (length l) = cell_count (3%nat, 4%nat).
Proof. apply interior_nodes_spec. reflexivity. Defined.

Lemma In_pair {A : Type} (x a b : A) : In x [a; b] <-> x = a \/ x = b.
Proof. simpl. intuition congruence. Qed.

Lemma boundary_nodes_sorted (shape : shape_t) (l : list Z) :
  2 <= nrows shape -> 2 <= ncols shape ->
  boundary_nodes shape = Some l ->
  StronglySorted Z.lt l /\ Z.of_nat (length l) = boundary_cell_count shape.
Proof.
  intros Hr Hc. unfold boundary_nodes, boundary_iter, left_right_iter,
    boundary_cell_count, bottom_index_iter, top_index_iter.
  rewrite xrange3_pos by lia. cbn [bind]. intros [= <-].
  set (c := ncols shape) in *. set (r := nrows shape) in *.
  assert (Hrows : forall k, In k (map (fun k => 1 + Z.of_nat k * 1)
                    (seq 0 (Z.to_nat ((r - 1 - 1 + 1 - 1) / 1)))) ->
                  1 <= k <= r - 2).
  { intros k Hk. apply in_map_iff in Hk as [j [<- Hj]]. apply in_seq in Hj.
    rewrite Z.div_1_r in Hj. lia. }
  split.
  - apply sorted_app; [apply xrange_sorted | apply sorted_app |].
    + apply sorted_flat_map.
      * apply sorted_map_seq. intros i j Hij _ x y Hx Hy.
                assert ((1 + Z.of_nat i * 1 + 1) * c <= (1 + Z.of_nat j * 1) * c)
          by (apply Z.mul_le_mono_nonneg_r; lia).
        change (In x [(1 + Z.of_nat i * 1) * c; (1 + Z.of_nat i * 1) * c + c - 1])
          in Hx.
        change (In y [(1 + Z.of_nat j * 1) * c; (1 + Z.of_nat j * 1) * c + c - 1])
          in Hy.
        apply In_pair in Hx, Hy. lia.
      * intros k _. repeat constructor. lia.
    + apply xrange_sorted.
    + intros x y Hx Hy. apply in_flat_map in Hx as [k [Hk Hx]].
      apply Hrows in Hk. apply xrange_In in Hy.
      cbv beta in Hx. apply In_pair in Hx. nia.
    + intros x y Hx Hy. apply xrange_In in Hx. apply in_app_iff in Hy.
      destruct Hy as [Hy | Hy].
      * apply in_flat_map in Hy as [k [Hk Hy]]. apply Hrows in Hk.
        cbv beta in Hy. apply In_pair in Hy. nia.
      * apply xrange_In in Hy. nia.
  - rewrite !length_app, !xrange_length.
    rewrite (flat_map_length_uniform _ _ 2) by reflexivity.
    rewrite length_map, length_seq, Z.div_1_r. lia.
Qed.

(** X4: on a grid with at least two rows and two columns, [boundary_nodes]
    lists, in increasing order and without repetition, exactly the nodes of
    the first and last row and of the first and last column; there are
    [boundary_cell_count] of them. *)
Theorem boundary_nodes_spec (shape : shape_t) :
  2 <= nrows shape -> 2 <= ncols shape ->
  exists l,
    boundary_nodes shape = Some l /\
    StronglySorted Z.lt l /\
    (forall n, In n l <->
               0 <= n < node_count shape /\ is_perimeter_node shape n = true)
    /\ Z.of_nat (length l) = boundary_cell_count shape.
Proof.
  intros Hr Hc.
  destruct (boundary_nodes_In shape) as [l [E H]]; [lia | lia |].
  destruct (boundary_nodes_sorted shape l Hr Hc E) as [Hs Hl].
  exists l. auto.
Qed.

Lemma boundary_nodes_spec_witness :
  exists l,
    boundary_nodes (3%nat, 4%nat) = Some l /\
    StronglySorted Z.lt l /\
    (forall n, In n l <->
               0 <= n < node_count (3%nat, 4%nat) /\
               is_perimeter_node (3%nat, 4%nat) n = true)
    /\ Z.of_nat (length l) = boundary_cell_count (3%nat, 4%nat).
Proof. apply boundary_nodes_spec; unfold nrows, ncols; simpl; lia. Defined.

Lemma NoDup_app_disjoint {A : Type} (l1 l2 : list A) (x : A) :
  NoDup (l1 ++ l2) -> In x l1 -> In x l2 -> False.
Proof.
  induction l1 as [|a l1 IH]; simpl; intros Hnd H1 H2; [exact H1 |].
  inversion Hnd as [|? ? Hnotin Hnd']; subst.
  destruct H1 as [-> | H1].
  - apply Hnotin, in_or_app. now right.
  - now apply IH.
Qed.

(** X5: [boundary_nodes] lists a node twice exactly when the grid has a
    single row, or a single column and more than two rows. *)
Theorem boundary_nodes_repeats (shape : shape_t) (l : list Z) :
  0 < nrows shape -> 0 < ncols shape ->
  boundary_nodes shape = Some l ->
  (NoDup l <-> 2 <= nrows shape /\ (2 <= ncols shape \/ nrows shape = 2)).
Proof.
  intros Hr Hc E. split.
  - intros Hnd. revert E Hnd.
    unfold boundary_nodes, boundary_iter, left_right_iter,
      bottom_index_iter, top_index_iter.
    rewrite xrange3_pos by lia. cbn [bind]. intros [= <-] Hnd.
    set (c := ncols shape) in *. set (r := nrows shape) in *.
    destruct (Z.eq_dec r 1) as [R1 | R1].
    + exfalso. apply (NoDup_app_disjoint _ _ 0) in Hnd; [exact Hnd | |].
      * apply xrange_In_iff. lia.
      * apply in_or_app. right. apply xrange_In_iff. nia.
    + split; [lia |].
      destruct (Z.eq_dec r 2) as [R2 | R2]; [now right | left].
      destruct (Z.eq_dec c 1) as [C1 | C1]; [exfalso | lia].
      apply NoDup_app_remove_l in Hnd.
      rewrite Z.div_1_r in Hnd.
      replace (Z.to_nat (r - 1 - 1 + 1 - 1)) with (S (Z.to_nat (r - 3)))
        in Hnd by lia.
      cbn [seq map flat_map app] in Hnd.
      inversion Hnd as [|? ? Hnotin _]; subst. apply Hnotin. left. lia.
  - intros [Hr2 [Hc2 | Hr2']].
    + destruct (boundary_nodes_sorted shape l Hr2 Hc2 E) as [Hs _].
      now apply sorted_NoDup.
    + revert E.
      unfold boundary_nodes, boundary_iter, left_right_iter,
        bottom_index_iter, top_index_iter.
      rewrite xrange3_pos by lia. cbn [bind]. intros [= <-].
      rewrite Hr2'. change (Z.to_nat ((2 - 1 - 1 + 1 - 1) / 1)) with 0%nat.
      cbn [seq map flat_map app]. apply sorted_NoDup.
      apply sorted_app; try apply xrange_sorted.
      intros x y Hx Hy. apply xrange_In in Hx, Hy. lia.
Qed.

Lemma boundary_nodes_repeats_witness :
  NoDup [0; 1; 2; 0; 1; 2] <->
  2 <= nrows (1%nat, 3%nat) /\
  (2 <= ncols (1%nat, 3%nat) \/ nrows (1%nat, 3%nat) = 2).
Proof.
  apply (boundary_nodes_repeats (1%nat, 3%nat)); reflexivity.
Defined.

End NodeOrder.

(** ** The four edges *)

Section Edges.

Import Py structured_grid.
Open Scope Z_scope.

(** X6: on a grid with at least one row and one column the four edge
    functions list exactly the nodes of the first row, of the last row, of
    the first column and of the last column. *)
Theorem edge_node_ids_spec (shape : shape_t) :
  0 < nrows shape -> 0 < ncols shape ->
  exists left right,
    left_edge_node_ids shape = Some left /\
    right_edge_node_ids shape = Some right /\
    forall n,
      (In n (bottom_edge_node_ids shape) <->
       0 <= n < node_count shape /\ node_row shape n = 0) /\
      (In n (top_edge_node_ids shape) <->
       0 <= n < node_count shape /\ node_row shape n = nrows shape - 1) /\
      (In n left <->
       0 <= n < node_count shape /\ node_col shape n = 0) /\
      (In n right <->
       0 <= n < node_count shape /\ node_col shape n = ncols shape - 1).
Proof.
  intros Hr Hc.
  unfold left_edge_node_ids, right_edge_node_ids, left_index_iter,
    right_index_iter, bottom_edge_node_ids, top_edge_node_ids,
    bottom_index_iter, top_index_iter, node_count, node_row, node_col.
  set (c := ncols shape) in *. set (r := nrows shape) in *.
  destruct (xrange3 0 (r * c) c) as [left |] eqn:El;
    [| rewrite xrange3_pos in El by exact Hc; discriminate].
  destruct (xrange3 (c - 1) (r * c) c) as [right |] eqn:Er;
    [| rewrite xrange3_pos in Er by exact Hc; discriminate].
  exists left, right. split; [reflexivity |]. split; [reflexivity |].
  intros n.
  destruct (node_of_row_col c n Hc) as [Hn Hm].
  rewrite !xrange_In_iff, (xrange3_In _ _ _ n _ Hc El),
    (xrange3_In _ _ _ n _ Hc Er).
  split; [| split; [| split]].
  - split.
    + intros H. split; [nia |]. apply Z.div_small. lia.
    + intros [H1 H2]. nia.
  - split.
    + intros H. split; [nia |]. symmetry.
      apply Z.div_unique with (r := n - (r - 1) * c); lia.
    + intros [H1 H2]. nia.
  - split.
    + intros [k [Hk [-> Hlt]]]. split; [nia |].
      rewrite Z.add_0_l. apply Z.mod_mul. lia.
    + intros [H1 H2]. exists (n / c). split; [apply Z.div_pos; lia |]. lia.
  - split.
    + intros [k [Hk [-> Hlt]]]. split; [nia |].
      replace (c - 1 + k * c) with (k * c + (c - 1)) by lia.
      apply row_col_of. lia.
    + intros [H1 H2]. exists (n / c). split; [apply Z.div_pos; lia |]. lia.
Qed.

Lemma edge_node_ids_spec_witness :
  exists left right,
    left_edge_node_ids (3%nat, 4%nat) = Some left /\
    right_edge_node_ids (3%nat, 4%nat) = Some right /\
    forall n,
      (In n (bottom_edge_node_ids (3%nat, 4%nat)) <->
       0 <= n < node_count (3%nat, 4%nat) /\ node_row (3%nat, 4%nat) n = 0) /\
      (In n (top_edge_node_ids (3%nat, 4%nat)) <->
       0 <= n < node_count (3%nat, 4%nat) /\
       node_row (3%nat, 4%nat) n = nrows (3%nat, 4%nat) - 1) /\
      (In n left <->
       0 <= n < node_count (3%nat, 4%nat) /\ node_col (3%nat, 4%nat) n = 0) /\
      (In n right <->
       0 <= n < node_count (3%nat, 4%nat) /\
       node_col (3%nat, 4%nat) n = ncols (3%nat, 4%nat) - 1).
Proof. apply edge_node_ids_spec; reflexivity. Defined.

End Edges.

(** ** The link tables, explicitly *)

Section LinkGeometry.

Import Py structured_grid.
Open Scope Z_scope.

Lemma slice_tail {A : Type} (l : list A) : slice (Some 1) None l = skipn 1 l.
Proof.
  unfold slice, clamp. change (1 <? 0) with false. cbv iota.
  destruct l as [|x l]; [reflexivity |].
  replace (Z.to_nat (Z.min (Z.of_nat (length (x :: l))) 1)) with 1%nat
    by (simpl length; lia).
  rewrite firstn_all2; [reflexivity |].
  rewrite length_skipn. simpl length. lia.
Qed.

Lemma slice_init {A : Type} (l : list A) :
  slice None (Some (-1)) l = firstn (length l - 1) l.
Proof.
  unfold slice, clamp. change (-1 <? 0) with true. cbv iota.
  simpl skipn. f_equal. lia.
Qed.

Lemma slice_inner {A : Type} (l : list A) :
  slice (Some 1) (Some (-1)) l = firstn (length l - 2) (skipn 1 l).
Proof.
  unfold slice, clamp. change (1 <? 0) with false.
  change (-1 <? 0) with true. cbv iota.
  destruct l as [|x l]; [reflexivity |].
  replace (Z.to_nat (Z.min (Z.of_nat (length (x :: l))) 1)) with 1%nat
    by (simpl length; lia).
  f_equal. simpl length. lia.
Qed.

Lemma seq_plus (s n : nat) : seq s n = map (fun j => (s + j)%nat) (seq 0 n).
Proof.
  revert s. induction n as [|n IH]; intros s; [reflexivity |].
  cbn [seq map]. f_equal; [lia |]. rewrite <- (seq_shift n 0), map_map.
  rewrite (IH (S s)). apply map_ext. intros j. lia.
Qed.

Lemma skipn_xrange (k : nat) (a b : Z) :
  skipn k (xrange a b) = xrange (a + Z.of_nat k) b.
Proof.
  unfold xrange. rewrite skipn_map, skipn_seq.
  replace (Z.to_nat (b - (a + Z.of_nat k)))
    with (Z.to_nat (b - a) - k)%nat by lia.
  simpl Nat.add. rewrite (seq_plus k), map_map.
  apply map_ext. intros j. lia.
Qed.

Lemma firstn_seq' (k s n : nat) : firstn k (seq s n) = seq s (Nat.min k n).
Proof.
  revert s n. induction k as [|k IH]; intros s [|n]; simpl; try reflexivity.
  now rewrite IH.
Qed.

Lemma firstn_xrange (k : nat) (a b : Z) :
  firstn k (xrange a b) = xrange a (Z.min b (a + Z.of_nat k)).
Proof.
  unfold xrange. rewrite firstn_map, firstn_seq'. do 2 f_equal. lia.
Qed.

(** Row [i] of the node-id grid. *)
Lemma reshape_xrange (r c : nat) (a b : Z) :
  a + Z.of_nat r * Z.of_nat c <= b ->
  reshape r c (xrange a b)
  = map (fun i => xrange (a + Z.of_nat i * Z.of_nat c)
                         (a + Z.of_nat i * Z.of_nat c + Z.of_nat c))
        (seq 0 r).
Proof.
  revert a. induction r as [|r IH]; intros a H; [reflexivity |].
  cbn [reshape]. rewrite firstn_xrange, skipn_xrange, IH by lia.
  cbn [seq map]. f_equal.
  - f_equal; lia.
  - rewrite (seq_plus 1 r), map_map. apply map_ext. intros i.
    f_equal; lia.
Qed.

Lemma node_id_grid_rows (shape : shape_t) :
  node_id_grid shape
  = map (fun i => xrange (Z.of_nat i * ncols shape)
                         (Z.of_nat i * ncols shape + ncols shape))
        (seq 0 (fst shape)).
Proof.
  unfold node_id_grid, arange, node_count, nrows, ncols.
  rewrite reshape_xrange by lia. apply map_ext. intros i. f_equal.
Qed.

Lemma concat_rows (c : Z) (s n : nat) :
  0 <= c ->
  concat (map (fun i => xrange (Z.of_nat i * c) (Z.of_nat i * c + c))
              (seq s n))
  = xrange (Z.of_nat s * c) (Z.of_nat (s + n) * c).
Proof.
  intros Hc. revert s. induction n as [|n IH]; intros s.
  - cbn [seq map concat]. unfold xrange. rewrite Nat.add_0_r, Z.sub_diag.
    reflexivity.
  - cbn [seq map concat]. rewrite IH.
    replace (Z.of_nat (S s) * c) with (Z.of_nat s * c + c) by lia.
    replace (Z.of_nat (S s + n) * c) with (Z.of_nat (s + S n) * c)
      by (f_equal; lia).
    unfold xrange.
    replace (Z.to_nat (Z.of_nat (s + S n) * c - Z.of_nat s * c))
      with (Z.to_nat (Z.of_nat s * c + c - Z.of_nat s * c)
            + Z.to_nat (Z.of_nat (s + S n) * c - (Z.of_nat s * c + c)))%nat
      by nia.
    rewrite seq_app, map_app. f_equal. cbn [Nat.add].
    rewrite (seq_plus (Z.to_nat _) _), map_map. apply map_ext_in.
    intros j _. lia.
Qed.

Lemma xrange_empty (a b : Z) : b <= a -> xrange a b = [].
Proof.
  intros H. unfold xrange. now replace (Z.to_nat (b - a)) with 0%nat by lia.
Qed.

Lemma slice_tail_xrange (a b : Z) :
  slice (Some 1) None (xrange a b) = xrange (a + 1) b.
Proof. now rewrite slice_tail, skipn_xrange. Qed.

Lemma slice_init_xrange (a b : Z) :
  slice None (Some (-1)) (xrange a b) = xrange a (b - 1).
Proof.
  rewrite slice_init, firstn_xrange, xrange_length.
  destruct (Z.le_gt_cases b a) as [H | H].
  - rewrite !xrange_empty by lia. reflexivity.
  - f_equal. lia.
Qed.

Lemma slice_inner_xrange (a b : Z) :
  slice (Some 1) (Some (-1)) (xrange a b) = xrange (a + 1) (b - 1).
Proof.
  rewrite slice_inner, skipn_xrange, firstn_xrange, xrange_length.
  destruct (Z.le_gt_cases b (a + 1)) as [H | H].
  - rewrite !xrange_empty by lia. reflexivity.
  - f_equal. lia.
Qed.

Lemma from_node_links_explicit (shape : shape_t) :
  fst (node_link_index shape)
  = xrange 0 (Z.of_nat (fst shape - 1) * ncols shape)
    ++ concat (map (fun i => xrange (Z.of_nat i * ncols shape)
                                    (Z.of_nat i * ncols shape
                                     + ncols shape - 1))
                   (seq 0 (fst shape))).
Proof.
  cbn [node_link_index fst]. unfold from_node_links, flat.
  rewrite slice2_cols_all, slice2_rows_all, slice_init, node_id_grid_rows.
  rewrite length_map, length_seq, firstn_map, firstn_seq'.
  replace (Nat.min (fst shape - 1) (fst shape)) with (fst shape - 1)%nat
    by lia.
  rewrite concat_rows by (unfold ncols; lia). f_equal.
  rewrite map_map. f_equal. apply map_ext. intros i.
  rewrite slice_init_xrange. f_equal; lia.
Qed.

Lemma to_node_links_explicit (shape : shape_t) :
  snd (node_link_index shape)
  = xrange (ncols shape) (Z.of_nat (1 + (fst shape - 1)) * ncols shape)
    ++ concat (map (fun i => xrange (Z.of_nat i * ncols shape + 1)
                                    (Z.of_nat i * ncols shape + ncols shape))
                   (seq 0 (fst shape))).
Proof.
  cbn [node_link_index snd]. unfold to_node_links, flat.
  rewrite slice2_cols_all, slice2_rows_all, slice_tail, node_id_grid_rows.
  rewrite skipn_map, skipn_seq.
  rewrite concat_rows by (unfold ncols; lia). f_equal.
  - f_equal. lia.
  - rewrite map_map. f_equal. apply map_ext. intros i.
    now rewrite slice_tail_xrange.
Qed.

Lemma nth_concat_uniform {A : Type} (F : nat -> list A) (w s r i j : nat) :
  (forall i, length (F i) = w) -> (i < r)%nat -> (j < w)%nat ->
  nth_error (concat (map F (seq s r))) (i * w + j) = nth_error (F (s + i)%nat) j.
Proof.
  intros Hw. revert s i. induction r as [|r IH]; intros s i Hi Hj; [lia |].
  cbn [seq map concat]. destruct i as [|i].
  - rewrite nth_error_app1 by (rewrite Hw; lia). now rewrite Nat.add_0_r.
  - rewrite nth_error_app2 by (rewrite Hw; lia). rewrite Hw.
    replace (S i * w + j - w)%nat with (i * w + j)%nat by lia.
    rewrite IH by lia. f_equal. f_equal. lia.
Qed.

Lemma length_concat_uniform_seq {A : Type} (F : nat -> list A) (w s r : nat) :
  (forall i, length (F i) = w) ->
  length (concat (map F (seq s r))) = (r * w)%nat.
Proof.
  intros Hw. revert s. induction r as [|r IH]; intros s; [reflexivity |].
  cbn [seq map concat]. rewrite length_app, Hw, IH. lia.
Qed.

End LinkGeometry.

(** ** Numbering and geometry of the links *)

Section LinkNumbering.

Import Py structured_grid.
Open Scope Z_scope.

Lemma xrange_shift (a b d : Z) :
  xrange (a + d) (b + d) = map (fun t => t + d) (xrange a b).
Proof.
  unfold xrange. rewrite map_map.
  replace (b + d - (a + d)) with (b - a) by lia.
  apply map_ext. intros k. lia.
Qed.

Lemma combine_app_eq {A B : Type} (a1 b1 : list A) (a2 b2 : list B) :
  length a1 = length a2 ->
  combine (a1 ++ b1) (a2 ++ b2) = combine a1 a2 ++ combine b1 b2.
Proof.
  revert a2. induction a1 as [|x a1 IH]; intros [|y a2] H; simpl in *;
    try discriminate; [reflexivity |].
  f_equal. apply IH. now injection H.
Qed.

Lemma combine_map_same {A B C : Type} (f : A -> B) (g : A -> C) (l : list A) :
  combine (map f l) (map g l) = map (fun x => (f x, g x)) l.
Proof. induction l as [|x l IH]; simpl; [reflexivity | now rewrite IH]. Qed.

(** The links as pairs (tail, head): first the vertical ones, then the
    horizontal ones. *)
Lemma link_pairs_explicit (shape : shape_t) :
  combine (fst (node_link_index shape)) (snd (node_link_index shape))
  = map (fun t => (t, t + ncols shape))
        (xrange 0 (Z.of_nat (fst shape - 1) * ncols shape))
    ++ map (fun t => (t, t + 1))
         (concat (map (fun i => xrange (Z.of_nat i * ncols shape)
                                       (Z.of_nat i * ncols shape
                                        + ncols shape - 1))
                      (seq 0 (fst shape)))).
Proof.
  rewrite from_node_links_explicit, to_node_links_explicit.
  set (c := ncols shape).
  replace (xrange c (Z.of_nat (1 + (fst shape - 1)) * c))
    with (map (fun t => t + c) (xrange 0 (Z.of_nat (fst shape - 1) * c))).
  2:{ rewrite <- xrange_shift. f_equal; lia. }
  replace (concat (map (fun i => xrange (Z.of_nat i * c + 1)
                                        (Z.of_nat i * c + c))
                       (seq 0 (fst shape))))
    with (map (fun t => t + 1)
            (concat (map (fun i => xrange (Z.of_nat i * c)
                                          (Z.of_nat i * c + c - 1))
                         (seq 0 (fst shape))))).
  2:{ rewrite concat_map, map_map. f_equal. apply map_ext. intros i.
      rewrite <- xrange_shift. f_equal; lia. }
  rewrite combine_app_eq by now rewrite length_map.
  rewrite <- (map_id (xrange 0 _)) at 1.
  rewrite combine_map_same.
  rewrite <- (map_id (concat _)) at 1.
  now rewrite combine_map_same.
Qed.

(** X7: two nodes are the tail and the head of a link exactly when the head
    is the node right above the tail, or the node right after it in the same
    row. *)
Theorem link_adjacency (shape : shape_t) (t h : Z) :
  0 < ncols shape ->
  (In (t, h)
      (combine (fst (node_link_index shape)) (snd (node_link_index shape)))
   <-> 0 <= t /\ h < node_count shape /\
       (h = t + ncols shape \/
        (h = t + 1 /\ node_row shape t = node_row shape h))).
Proof.
  intros Hc. rewrite link_pairs_explicit, in_app_iff, !in_map_iff.
  unfold node_count, node_row, nrows.
  set (c := ncols shape) in *. split.
  - intros [[x [[= -> <-] Hx]] | [x [[= -> <-] Hx]]].
    + apply xrange_In in Hx. split; [lia |]. split; [nia | now left].
    + apply in_concat in Hx as [row [Hrow Hx]].
      apply in_map_iff in Hrow as [i [<- Hi]]. apply in_seq in Hi.
      apply xrange_In in Hx.
      destruct (row_col_of c (Z.of_nat i) (t - Z.of_nat i * c)) as [E1 _];
        [lia |].
      destruct (row_col_of c (Z.of_nat i) (t + 1 - Z.of_nat i * c))
        as [E2 _]; [lia |].
      replace (Z.of_nat i * c + (t - Z.of_nat i * c)) with t in E1 by lia.
      replace (Z.of_nat i * c + (t + 1 - Z.of_nat i * c)) with (t + 1)
        in E2 by lia.
      split; [nia |]. split; [nia |]. right. split; [reflexivity | lia].
  - intros [Ht [Hh [-> | [-> Hrow]]]].
    + left. exists t. split; [reflexivity |]. apply xrange_In_iff. nia.
    + right. exists t. split; [reflexivity |].
      destruct (node_of_row_col c t Hc) as [Et Hm].
      destruct (node_of_row_col c (t + 1) Hc) as [Et' Hm'].
      assert (Hq : 0 <= t / c < Z.of_nat (fst shape)).
      { split; [apply Z.div_pos; lia |].
        apply Z.div_lt_upper_bound; lia. }
      apply in_concat. eexists. split.
      * apply in_map_iff. exists (Z.to_nat (t / c)).
        split; [reflexivity |]. apply in_seq. lia.
      * apply xrange_In_iff. rewrite Z2Nat.id by lia. rewrite <- Hrow in Et'.
        lia.
Qed.

Lemma link_adjacency_witness :
  In (5, 6)
     (combine (fst (node_link_index (3%nat, 4%nat)))
              (snd (node_link_index (3%nat, 4%nat))))
  <-> 0 <= 5 /\ 6 < node_count (3%nat, 4%nat) /\
      (6 = 5 + ncols (3%nat, 4%nat) \/
       (6 = 5 + 1 /\ node_row (3%nat, 4%nat) 5 = node_row (3%nat, 4%nat) 6)).
Proof. apply link_adjacency. reflexivity. Defined.

Lemma node_link_index_length (shape : shape_t) :
  0 < nrows shape -> 0 < ncols shape ->
  Z.of_nat (length (fst (node_link_index shape))) = link_count shape.
Proof.
  intros Hr Hc.
  rewrite from_node_links_explicit, length_app, xrange_length.
  rewrite (length_concat_uniform_seq _ (snd shape - 1)).
  - unfold link_count, nrows, ncols in *.
    rewrite Z.sub_0_r, Nat2Z.inj_add, Nat2Z.inj_mul, Z2Nat.id
      by (apply Z.mul_nonneg_nonneg; lia).
    replace (Z.of_nat (fst shape - 1)) with (Z.of_nat (fst shape) - 1) by lia.
    replace (Z.of_nat (snd shape - 1)) with (Z.of_nat (snd shape) - 1) by lia.
    ring.
  - intros i. rewrite xrange_length. unfold ncols. lia.
Qed.

(** Link [k] of the first block goes from node [k] to the node above. *)
Lemma vertical_link_nth (shape : shape_t) (k : Z) :
  0 < nrows shape -> 0 < ncols shape ->
  0 <= k < (nrows shape - 1) * ncols shape ->
  nth_error (fst (node_link_index shape)) (Z.to_nat k) = Some k /\
  nth_error (snd (node_link_index shape)) (Z.to_nat k)
  = Some (k + ncols shape).
Proof.
  intros Hr Hc Hk.
  rewrite from_node_links_explicit, to_node_links_explicit.
  unfold nrows, ncols in *.
  set (R := fst shape) in *. set (C := snd shape) in *.
  assert (HV : Z.of_nat (R - 1) = Z.of_nat R - 1) by lia.
  assert (HA : 0 <= (Z.of_nat R - 1) * Z.of_nat C)
    by (apply Z.mul_nonneg_nonneg; lia).
  rewrite HV.
  replace (Z.of_nat (1 + (R - 1))) with (Z.of_nat R) by lia.
  replace (Z.of_nat R * Z.of_nat C)
    with (Z.of_nat C + (Z.of_nat R - 1) * Z.of_nat C) by ring.
  split.
  - rewrite nth_error_app1 by (rewrite xrange_length; lia).
    rewrite xrange_nth by lia. f_equal. lia.
  - rewrite nth_error_app1 by (rewrite xrange_length; lia).
    rewrite xrange_nth by lia. f_equal. lia.
Qed.

(** Link [j] of row [i] of the second block goes from node [i * cols + j]
    to the next node of the row. *)
Lemma horizontal_link_nth (shape : shape_t) (i j : Z) :
  0 < nrows shape -> 0 < ncols shape ->
  0 <= i < nrows shape -> 0 <= j < ncols shape - 1 ->
  nth_error (fst (node_link_index shape))
    (Z.to_nat ((nrows shape - 1) * ncols shape
               + i * (ncols shape - 1) + j))
  = Some (i * ncols shape + j) /\
  nth_error (snd (node_link_index shape))
    (Z.to_nat ((nrows shape - 1) * ncols shape
               + i * (ncols shape - 1) + j))
  = Some (i * ncols shape + j + 1).
Proof.
  intros Hr Hc Hi Hj.
  rewrite from_node_links_explicit, to_node_links_explicit.
  unfold nrows, ncols in *.
  set (R := fst shape) in *. set (C := snd shape) in *.
  assert (HV : Z.of_nat (R - 1) = Z.of_nat R - 1) by lia.
  assert (HA : 0 <= (Z.of_nat R - 1) * Z.of_nat C)
    by (apply Z.mul_nonneg_nonneg; lia).
  assert (HB : 0 <= i * (Z.of_nat C - 1))
    by (apply Z.mul_nonneg_nonneg; lia).
  assert (Ek : Z.to_nat ((Z.of_nat R - 1) * Z.of_nat C
                         + i * (Z.of_nat C - 1) + j)
               = (Z.to_nat ((Z.of_nat R - 1) * Z.of_nat C)
                  + (Z.to_nat i * (C - 1) + Z.to_nat j))%nat).
  { rewrite !Z2Nat.inj_add, Z2Nat.inj_mul by lia.
    replace (Z.to_nat (Z.of_nat C - 1)) with (C - 1)%nat by lia. lia. }
  rewrite Ek, HV.
  replace (Z.of_nat (1 + (R - 1))) with (Z.of_nat R) by lia.
  replace (Z.of_nat R * Z.of_nat C)
    with (Z.of_nat C + (Z.of_nat R - 1) * Z.of_nat C) by ring.
  split.
  - rewrite nth_error_app2 by (rewrite xrange_length, Z.sub_0_r; lia).
    rewrite xrange_length, Z.sub_0_r.
    replace (Z.to_nat ((Z.of_nat R - 1) * Z.of_nat C)
             + (Z.to_nat i * (C - 1) + Z.to_nat j)
             - Z.to_nat ((Z.of_nat R - 1) * Z.of_nat C))%nat
      with (Z.to_nat i * (C - 1) + Z.to_nat j)%nat by lia.
    rewrite (nth_concat_uniform _ (C - 1)).
    + rewrite xrange_nth by lia. f_equal. lia.
    + intros i'. rewrite xrange_length. lia.
    + lia.
    + lia.
  - rewrite nth_error_app2
      by (rewrite xrange_length;
          replace (Z.of_nat C + (Z.of_nat R - 1) * Z.of_nat C - Z.of_nat C)
            with ((Z.of_nat R - 1) * Z.of_nat C) by ring; lia).
    rewrite xrange_length.
    replace (Z.of_nat C + (Z.of_nat R - 1) * Z.of_nat C - Z.of_nat C)
      with ((Z.of_nat R - 1) * Z.of_nat C) by ring.
    replace (Z.to_nat ((Z.of_nat R - 1) * Z.of_nat C)
             + (Z.to_nat i * (C - 1) + Z.to_nat j)
             - Z.to_nat ((Z.of_nat R - 1) * Z.of_nat C))%nat
      with (Z.to_nat i * (C - 1) + Z.to_nat j)%nat by lia.
    rewrite (nth_concat_uniform _ (C - 1)).
    + rewrite xrange_nth by lia. f_equal. lia.
    + intros i'. rewrite xrange_length. lia.
    + lia.
    + lia.
Qed.

(** X8: the link tables have [link_count] entries. The vertical links are
    numbered first, by their tail node; then the horizontal links, row by
    row. *)
Theorem link_numbering (shape : shape_t) :
  0 < nrows shape -> 0 < ncols shape ->
  Z.of_nat (length (fst (node_link_index shape))) = link_count shape /\
  Z.of_nat (length (snd (node_link_index shape))) = link_count shape /\
  (forall k, 0 <= k < (nrows shape - 1) * ncols shape ->
     nth_error (fst (node_link_index shape)) (Z.to_nat k) = Some k /\
     nth_error (snd (node_link_index shape)) (Z.to_nat k)
     = Some (k + ncols shape)) /\
  (forall i j, 0 <= i < nrows shape -> 0 <= j < ncols shape - 1 ->
     nth_error (fst (node_link_index shape))
       (Z.to_nat ((nrows shape - 1) * ncols shape
                  + i * (ncols shape - 1) + j))
     = Some (i * ncols shape + j) /\
     nth_error (snd (node_link_index shape))
       (Z.to_nat ((nrows shape - 1) * ncols shape
                  + i * (ncols shape - 1) + j))
     = Some (i * ncols shape + j + 1)).
Proof.
  intros Hr Hc.
  split; [now apply node_link_index_length |].
  split; [rewrite <- node_link_index_lengths;
          now apply node_link_index_length |].
  split.
  - intros k Hk. now apply vertical_link_nth.
  - intros i j Hi Hj. now apply horizontal_link_nth.
Qed.

Lemma link_numbering_witness :
  Z.of_nat (length (fst (node_link_index (3%nat, 4%nat))))
  = link_count (3%nat, 4%nat) /\
  Z.of_nat (length (snd (node_link_index (3%nat, 4%nat))))
  = link_count (3%nat, 4%nat) /\
  (forall k, 0 <= k < (nrows (3%nat, 4%nat) - 1) * ncols (3%nat, 4%nat) ->
     nth_error (fst (node_link_index (3%nat, 4%nat))) (Z.to_nat k) = Some k /\
     nth_error (snd (node_link_index (3%nat, 4%nat))) (Z.to_nat k)
     = Some (k + ncols (3%nat, 4%nat))) /\
  (forall i j, 0 <= i < nrows (3%nat, 4%nat) ->
     0 <= j < ncols (3%nat, 4%nat) - 1 ->
     nth_error (fst (node_link_index (3%nat, 4%nat)))
       (Z.to_nat ((nrows (3%nat, 4%nat) - 1) * ncols (3%nat, 4%nat)
                  + i * (ncols (3%nat, 4%nat) - 1) + j))
     = Some (i * ncols (3%nat, 4%nat) + j) /\
     nth_error (snd (node_link_index (3%nat, 4%nat)))
       (Z.to_nat ((nrows (3%nat, 4%nat) - 1) * ncols (3%nat, 4%nat)
                  + i * (ncols (3%nat, 4%nat) - 1) + j))
     = Some (i * ncols (3%nat, 4%nat) + j + 1)).
Proof. apply link_numbering; reflexivity. Defined.

End LinkNumbering.

(** ** Cells, faces and reshaping *)

Section CellTables.

Import Py structured_grid.
Open Scope Z_scope.

Lemma put_from_spec {A : Type} (vals : list A) (idx : list Z) :
  forall (k : nat) (a a' : list A),
    put_from k a idx vals = Some a' ->
    (forall i, In i idx -> 0 <= i) ->
    NoDup idx ->
    length a' = length a /\
    (forall j i, nth_error idx j = Some i ->
       nth_error a' (Z.to_nat i)
       = nth_error vals ((k + j) mod length vals)) /\
    (forall n, ~ In (Z.of_nat n) idx -> nth_error a' n = nth_error a n).
Proof.
  induction idx as [|i idx IH]; intros k a a' H Hpos Hnd; cbn [put_from] in H.
  - injection H as <-. split; [reflexivity |]. split; [| reflexivity].
    intros [|j] i Hj; discriminate.
  - destruct (nth_error vals (k mod length vals)) as [v |] eqn:Ev;
      [| discriminate].
    cbn [bind] in H. unfold setitem in H.
    destruct (position (length a) i) as [p |] eqn:Ep; [| discriminate].
    cbn [bind] in H.
    apply position_nonneg in Ep; [| apply Hpos; now left].
    destruct Ep as [-> Hp].
    inversion Hnd as [|? ? Hnotin Hnd']; subst.
    destruct (IH (S k) _ _ H) as [L [F1 F2]];
      [intros j Hj; apply Hpos; now right | exact Hnd' |].
    rewrite upd_length in L. split; [exact L |]. split.
    + intros [|j] i Hj; cbn [nth_error] in Hj.
      * injection Hj as <-. rewrite Nat2Z.id, Nat.add_0_r.
        rewrite F2 by exact Hnotin.
        rewrite upd_nth, Nat.eqb_refl.
        replace (p <? length a)%nat with true
          by (symmetry; apply Nat.ltb_lt; exact Hp).
        now rewrite Ev.
      * rewrite (F1 j i Hj). do 2 f_equal. lia.
    + intros n Hn. rewrite F2 by (intros Hin; apply Hn; now right).
      rewrite upd_nth.
      destruct (Nat.eqb_spec n p) as [-> | Hne]; [| reflexivity].
      exfalso. apply Hn. now left.
Qed.

Lemma arange_length_Z (n : Z) : length (arange n) = Z.to_nat n.
Proof. unfold arange. rewrite xrange_length. f_equal. lia. Qed.

Lemma arange_nth (n : Z) (k : nat) :
  (k < Z.to_nat n)%nat -> nth_error (arange n) k = Some (Z.of_nat k).
Proof.
  intros H. unfold arange. rewrite xrange_nth by (rewrite Z.sub_0_r; exact H).
  reflexivity.
Qed.

(** [a[idx] = arange(len(idx))] on distinct, non-negative, valid indices:
    position [idx[k]] receives [k], every other position is kept. *)
Lemma put_array_arange (a : list Z) (idx : list Z) (n : Z) :
  Z.to_nat n = length idx ->
  (forall i, In i idx -> 0 <= i < Z.of_nat (length a)) ->
  NoDup idx ->
  exists a',
    put_array a idx (arange n) = Some a' /\
    length a' = length a /\
    (forall k i, nth_error idx k = Some i ->
       nth_error a' (Z.to_nat i) = Some (Z.of_nat k)) /\
    (forall m, ~ In (Z.of_nat m) idx -> nth_error a' m = nth_error a m).
Proof.
  intros Hlen Hrange Hnd. unfold put_array.
  rewrite arange_length_Z, Hlen, Nat.eqb_refl. unfold put.
  destruct idx as [|i0 idx0] eqn:Eidx.
  - exists a. cbn [put_from]. split; [reflexivity |].
    split; [reflexivity |]. split; [| reflexivity].
    intros [|k] i Hk; discriminate.
  - rewrite <- Eidx in *.
    assert (Hne : arange n <> []).
    { intros E. apply (f_equal (@length Z)) in E.
      rewrite arange_length_Z, Hlen, Eidx in E. discriminate. }
    destruct (put_from_total (arange n) idx Hne 0%nat a Hrange) as [a' Ea].
    exists a'. split; [exact Ea |].
    destruct (put_from_spec _ _ _ _ _ Ea) as [L [F1 F2]];
      [intros i Hi; now apply Hrange | exact Hnd |].
    split; [exact L |]. split; [| exact F2].
    intros k i Hk. rewrite (F1 k i Hk), arange_length_Z, Hlen. cbn [Nat.add].
    assert (k < length idx)%nat by (apply nth_error_Some; congruence).
    rewrite Nat.mod_small by lia. apply arange_nth. lia.
Qed.

Lemma cell_node_index_interior (shape : shape_t) :
  2 <= nrows shape -> 2 <= ncols shape ->
  cell_node_index shape = interior_nodes shape.
Proof.
  intros Hr Hc. unfold cell_node_index, interior_nodes, interior_iter.
  rewrite xrange3_pos by lia. cbn [bind].
  unfold flat, slice2. rewrite slice_inner, node_id_grid_rows.
  rewrite length_map, length_seq, skipn_map, skipn_seq, firstn_map, firstn_seq'.
  rewrite map_map. unfold nrows, ncols in *.
  set (R := fst shape) in *. set (C := snd shape) in *.
  replace (Nat.min (R - 2) (R - 1)) with (R - 2)%nat by lia.
  assert (Ecnt : Z.to_nat ((Z.of_nat C * (Z.of_nat R - 1) - (Z.of_nat C + 1)
                            + Z.of_nat C - 1) / Z.of_nat C) = (R - 2)%nat).
  { replace ((Z.of_nat C * (Z.of_nat R - 1) - (Z.of_nat C + 1)
              + Z.of_nat C - 1) / Z.of_nat C) with (Z.of_nat R - 2); [lia |].
    apply Z.div_unique with (r := Z.of_nat C - 2); lia. }
  rewrite Ecnt, flat_map_concat_map, map_map.
  assert (Erows :
    map (fun i => slice (Some 1) (Some (-1))
                    (xrange (Z.of_nat i * Z.of_nat C)
                            (Z.of_nat i * Z.of_nat C + Z.of_nat C)))
        (seq (0 + 1) (R - 2))
    = map (fun k => xrange (Z.of_nat C + 1 + Z.of_nat k * Z.of_nat C)
                     (Z.of_nat C + 1 + Z.of_nat k * Z.of_nat C
                      + (Z.of_nat C - 2)))
        (seq 0 (R - 2))).
  { rewrite (seq_plus (0 + 1) (R - 2)), map_map. apply map_ext. intros k.
    rewrite slice_inner_xrange. f_equal; lia. }
  rewrite Erows.
  set (cells := concat _).
  assert (Hlen : length cells = ((R - 2) * (C - 2))%nat).
  { unfold cells. apply length_concat_uniform_seq. intros i.
    rewrite xrange_length. lia. }
  unfold flat_shape_ok. rewrite Hlen.
  replace ((Z.of_nat R - 2) * (Z.of_nat C - 2)
           =? Z.of_nat ((R - 2) * (C - 2))) with true
    by (symmetry; apply Z.eqb_eq; nia).
  now rewrite orb_true_r.
Qed.

(** X9: on a grid with at least two rows and two columns [cell_node_index]
    (and [active_cell_node]) succeed and give the interior nodes, in
    increasing order. *)
Theorem cell_node_index_spec (shape : shape_t) :
  2 <= nrows shape -> 2 <= ncols shape ->
  exists cells,
    cell_node_index shape = Some cells /\
    active_cell_node shape = Some cells /\
    interior_nodes shape = Some cells /\
    StronglySorted Z.lt cells /\
    Z.of_nat (length cells) = cell_count shape.
Proof.
  intros Hr Hc.
  destruct (interior_nodes_In shape) as [cells [E _]]; [lia |].
  exists cells. unfold active_cell_node.
  rewrite cell_node_index_interior by assumption.
  split; [exact E |]. split; [exact E |]. split; [exact E |]. split.
  - apply (interior_nodes_sorted shape); [lia | exact E].
  - apply interior_nodes_length; [lia | exact E].
Qed.

Lemma cell_node_index_spec_witness :
  exists cells,
    cell_node_index (3%nat, 4%nat) = Some cells /\
    active_cell_node (3%nat, 4%nat) = Some cells /\
    interior_nodes (3%nat, 4%nat) = Some cells /\
    StronglySorted Z.lt cells /\
    Z.of_nat (length cells) = cell_count (3%nat, 4%nat).
Proof.
  apply cell_node_index_spec; unfold nrows, ncols; simpl; lia.
Defined.

(** X10: on a grid with at least two rows and two columns [node_active_cell]
    succeeds, does not depend on the uninitialised content of its array, and
    is the inverse of [active_cell_node]: the node of cell [k] is mapped
    back to [k], every perimeter node to [BAD_INDEX_VALUE]. *)
Theorem node_active_cell_inverse (junk : Z) (shape : shape_t) :
  2 <= nrows shape -> 2 <= ncols shape ->
  exists table cells,
    node_active_cell junk shape = Some table /\
    active_cell_node shape = Some cells /\
    Z.of_nat (length table) = node_count shape /\
    (forall k n, nth_error cells k = Some n ->
       nth_error table (Z.to_nat n) = Some (Z.of_nat k)) /\
    (forall n, 0 <= n < node_count shape ->
       is_perimeter_node shape n = true ->
       nth_error table (Z.to_nat n) = Some BAD_INDEX_VALUE).
Proof.
  intros Hr Hc.
  destruct (interior_nodes_In shape) as [li [Ei Hi]]; [lia |].
  destruct (boundary_nodes_In shape) as [lb [Eb Hb]]; [lia | lia |].
  unfold node_active_cell, active_cell_node.
  rewrite cell_node_index_interior, Eb, Ei by assumption. cbn [bind].
  set (N := Z.to_nat (node_count shape)).
  assert (HN : node_count shape = Z.of_nat N).
  { unfold N, node_count. rewrite Z2Nat.id; nia. }
  destruct (fill_at_total (repeat junk N) lb BAD_INDEX_VALUE) as [s1 E1].
  { intros i Hin. rewrite repeat_length, <- HN. now apply Hb. }
  rewrite E1. cbn [bind].
  destruct (fill_at_nth _ _ _ _ E1) as [L1 F1]. rewrite repeat_length in L1, F1.
  destruct (put_array_arange s1 li (interior_node_count shape))
    as [table [Et [Lt [G1 G2]]]].
  - pose proof (interior_nodes_length shape li) as Hl.
    rewrite <- Nat2Z.id. f_equal. rewrite Hl; [| lia | exact Ei].
    unfold cell_count, interior_node_count.
    destruct (Z.ltb_spec 2 (Z.min (nrows shape) (ncols shape))); nia.
  - intros i Hin. rewrite L1, <- HN. now apply Hi.
  - apply sorted_NoDup. apply (interior_nodes_sorted shape); [lia | exact Ei].
  - exists table, li. split; [exact Et |]. split; [reflexivity |].
    split; [lia |]. split; [exact G1 |].
    intros n Hn Hp. rewrite G2.
    + apply (F1 (Z.to_nat n)). exists n. split; [now apply Hb |].
      apply position_nonneg; [lia |]. split; lia.
    + rewrite Z2Nat.id by lia. intros Hin. apply Hi in Hin as [_ Hin].
      rewrite interior_xor_perimeter in Hin by lia.
      rewrite Hp in Hin. discriminate.
Qed.

Lemma node_active_cell_inverse_witness :
  exists table cells,
    node_active_cell 7 (3%nat, 4%nat) = Some table /\
    active_cell_node (3%nat, 4%nat) = Some cells /\
    Z.of_nat (length table) = node_count (3%nat, 4%nat) /\
    (forall k n, nth_error cells k = Some n ->
       nth_error table (Z.to_nat n) = Some (Z.of_nat k)) /\
    (forall n, 0 <= n < node_count (3%nat, 4%nat) ->
       is_perimeter_node (3%nat, 4%nat) n = true ->
       nth_error table (Z.to_nat n) = Some BAD_INDEX_VALUE).
Proof.
  apply node_active_cell_inverse; unfold nrows, ncols; simpl; lia.
Defined.

(** X11: for a list of distinct link ids, [link_faces] numbers the listed
    links in the order of the list and gives [BAD_INDEX_VALUE] to every
    other link. *)
Theorem link_faces_inverse (junk : Z) (shape : shape_t) (actives : list Z) :
  0 <= link_count shape ->
  (forall i, In i actives -> 0 <= i < link_count shape) ->
  NoDup actives ->
  exists faces,
    link_faces junk shape (Some actives) = Some faces /\
    Z.of_nat (length faces) = link_count shape /\
    (forall k i, nth_error actives k = Some i ->
       nth_error faces (Z.to_nat i) = Some (Z.of_nat k)) /\
    (forall i, 0 <= i < link_count shape -> ~ In i actives ->
       nth_error faces (Z.to_nat i) = Some BAD_INDEX_VALUE).
Proof.
  intros Hcount Hrange Hnd. unfold link_faces. cbn [bind].
  replace (link_count shape <? 0) with false
    by (symmetry; apply Z.ltb_ge; exact Hcount).
  destruct (put_array_arange
              (repeat BAD_INDEX_VALUE (Z.to_nat (link_count shape)))
              actives (Z.of_nat (length actives)))
    as [faces [Ef [Lf [G1 G2]]]].
  - apply Nat2Z.id.
  - intros i Hin. rewrite repeat_length, Z2Nat.id by exact Hcount.
    now apply Hrange.
  - exact Hnd.
  - exists faces. split; [exact Ef |]. rewrite repeat_length in Lf.
    split; [lia |]. split; [exact G1 |].
    intros i Hi Hnot. rewrite G2 by (rewrite Z2Nat.id by lia; exact Hnot).
    apply nth_error_repeat. lia.
Qed.

Lemma link_faces_inverse_witness :
  exists faces,
    link_faces 7 (3%nat, 4%nat) (Some [5; 1; 12]) = Some faces /\
    Z.of_nat (length faces) = link_count (3%nat, 4%nat) /\
    (forall k i, nth_error [5; 1; 12] k = Some i ->
       nth_error faces (Z.to_nat i) = Some (Z.of_nat k)) /\
    (forall i, 0 <= i < link_count (3%nat, 4%nat) -> ~ In i [5; 1; 12] ->
       nth_error faces (Z.to_nat i) = Some BAD_INDEX_VALUE).
Proof.
  apply link_faces_inverse.
  - vm_compute. discriminate.
  - intros i [<- | [<- | [<- | []]]]; vm_compute; split; congruence.
  - repeat constructor; simpl; intuition discriminate.
Defined.

Lemma concat_reshape {A : Type} (rows cols : nat) (l : list A) :
  length l = (rows * cols)%nat -> concat (reshape rows cols l) = l.
Proof.
  revert l. induction rows as [|r IH]; intros l H; cbn [reshape concat].
  - destruct l; [reflexivity | discriminate].
  - rewrite IH by (rewrite length_skipn; lia). apply firstn_skipn.
Qed.

(** X12: [reshape_array] accepts an array of exactly rows x columns entries
    and cuts it into rows of equal length whose concatenation is the array;
    with [flip_vertically] the same rows come in reverse order. Any other
    size raises. *)
Theorem reshape_array_spec {A : Type} (shape : shape_t) (u : list A) :
  length u = (fst shape * snd shape)%nat ->
  exists m,
    reshape_array shape u false = Some m /\
    reshape_array shape u true = Some (rev m) /\
    flat m = u /\
    length m = fst shape /\
    Forall (fun row => length row = snd shape) m.
Proof.
  intros H. unfold reshape_array. rewrite H, Nat.eqb_refl.
  exists (reshape (fst shape) (snd shape) u).
  split; [reflexivity |]. split; [reflexivity |].
  split; [now apply concat_reshape |].
  apply reshape_rows. lia.
Qed.

Lemma reshape_array_spec_witness :
  exists m,
    reshape_array (2%nat, 3%nat) [10; 11; 12; 13; 14; 15] false = Some m /\
    reshape_array (2%nat, 3%nat) [10; 11; 12; 13; 14; 15] true
    = Some (rev m) /\
    flat m = [10; 11; 12; 13; 14; 15] /\
    length m = fst (2%nat, 3%nat) /\
    Forall (fun row => length row = snd (2%nat, 3%nat)) m.
Proof. apply reshape_array_spec. reflexivity. Defined.

End CellTables.

(** ** Boundary neighbours *)

Section BoundaryNeighbours.

Import Py structured_grid.
Open Scope Z_scope.

(** X14: on four neighbours and four diagonals [has_boundary_neighbor_slow]
    never raises and answers whether the sentinel occurs among the
    neighbours or among the diagonals. *)
Theorem has_boundary_neighbor_slow_iff (neighbors diagonals : list Z)
    (out_of_bounds : Z) :
  length neighbors = 4%nat -> length diagonals = 4%nat ->
  has_boundary_neighbor_slow neighbors diagonals out_of_bounds
  = Some (contains out_of_bounds neighbors
          || contains out_of_bounds diagonals).
Proof.
  intros Hn Hd.
  destruct neighbors as [|n0 [|n1 [|n2 [|n3 [|]]]]]; try discriminate.
  destruct diagonals as [|d0 [|d1 [|d2 [|d3 [|]]]]]; try discriminate.
  unfold has_boundary_neighbor_slow.
  destruct (scan4_four n0 n1 n2 n3 out_of_bounds) as [i [-> Hi]].
  destruct (scan4_four d0 d1 d2 d3 out_of_bounds) as [r [-> Hr]].
  cbn [bind]. rewrite Hi, Hr.
  destruct (contains out_of_bounds [n0; n1; n2; n3]); cbn [orb];
    [reflexivity |].
  now destruct (contains out_of_bounds [d0; d1; d2; d3]).
Qed.

Lemma has_boundary_neighbor_slow_iff_witness :
  has_boundary_neighbor_slow [-1; 1; 2; 3] [4; 5; 6; 7] (-1)
  = Some (contains (-1) [-1; 1; 2; 3] || contains (-1) [4; 5; 6; 7]).
Proof. apply has_boundary_neighbor_slow_iff; reflexivity. Defined.

(** X15: when the sentinel is found among the neighbours the slow version
    answers without reading the diagonals: they may be missing. When it is
    not found, fewer than four diagonals without the sentinel raise. *)
Theorem has_boundary_neighbor_slow_short (neighbors diagonals : list Z)
    (out_of_bounds : Z) :
  length neighbors = 4%nat ->
  (contains out_of_bounds neighbors = true ->
   has_boundary_neighbor_slow neighbors diagonals out_of_bounds = Some true)
  /\
  (contains out_of_bounds neighbors = false ->
   (length diagonals < 4)%nat ->
   contains out_of_bounds diagonals = false ->
   has_boundary_neighbor_slow neighbors diagonals out_of_bounds = None).
Proof.
  intros Hn.
  destruct neighbors as [|n0 [|n1 [|n2 [|n3 [|]]]]]; try discriminate.
  unfold has_boundary_neighbor_slow.
  destruct (scan4_four n0 n1 n2 n3 out_of_bounds) as [i [-> Hi]].
  cbn [bind]. rewrite Hi. split; intros Hc; rewrite Hc; [reflexivity |].
  intros Hlen Hd. unfold contains in Hd.
  destruct diagonals as [|d0 [|d1 [|d2 [|d3 [|]]]]]; simpl in Hlen;
    try lia; simpl in Hd; unfold item, position; simpl;
    repeat match type of Hd with
           | (?a || ?b)%bool = false =>
               apply orb_false_iff in Hd; destruct Hd as [? Hd]
           end;
    repeat match goal with
           | H : (out_of_bounds =? ?d) = false |- _ =>
               rewrite Z.eqb_sym in H; rewrite H; clear H; simpl
           end;
    reflexivity.
Qed.

Lemma has_boundary_neighbor_slow_short_witness :
  (contains (-1) [0; -1; 2; 3] = true ->
   has_boundary_neighbor_slow [0; -1; 2; 3] [] (-1) = Some true)
  /\
  (contains (-1) [0; -1; 2; 3] = false ->
   (length (@nil Z) < 4)%nat ->
   contains (-1) [] = false ->
   has_boundary_neighbor_slow [0; -1; 2; 3] [] (-1) = None).
Proof. apply has_boundary_neighbor_slow_short. reflexivity. Defined.

Lemma contains_repeat (x : Z) (n : nat) :
  contains x (repeat x (S n)) = true.
Proof. unfold contains. simpl. now rewrite Z.eqb_refl. Qed.

Lemma map_const_repeat {A B : Type} (f : A -> B) (y : B) (l : list A) :
  Forall (fun x => f x = y) l -> map f l = repeat y (length l).
Proof.
  induction 1 as [|x l Hx _ IH]; simpl; [reflexivity |]. now rewrite Hx, IH.
Qed.

Lemma contains_array_repeat (x : Z) (a : list Z) :
  contains_array (repeat x (length a)) a = Some (contains x a).
Proof.
  assert (H : map2 Z.eqb a (repeat x (length a))
              = Some (map (fun y => y =? x) a)).
  { induction a as [|y a IH]; cbn [length repeat map2 map]; [reflexivity |].
    now rewrite IH. }
  unfold contains_array, contains.
  rewrite broadcast2_same by now rewrite repeat_length.
  rewrite H. cbn [bind]. f_equal.
  clear H. induction a as [|y a IH]; cbn [map existsb]; [reflexivity |].
  now rewrite IH, (Z.eqb_sym x y).
Qed.

Lemma lor_ones (n : Z) (k : Z) :
  0 <= k -> 0 <= n < 2 ^ k -> Z.lor n (Z.ones k) = Z.ones k.
Proof.
  intros Hk Hn. apply Z.bits_inj'. intros i Hi.
  rewrite Z.lor_spec. destruct (Z.ltb_spec i k) as [Hlt | Hge].
  - rewrite (Z.ones_spec_low k i) by lia. apply orb_true_r.
  - rewrite (Z.ones_spec_high k i) by lia. rewrite orb_false_r.
    destruct (Z.eq_dec n 0) as [-> | Hn0]; [apply Z.bits_0 |].
    apply Z.bits_above_log2; [lia |].
    apply Z.lt_le_trans with k; [| exact Hge].
    apply Z.log2_lt_pow2; lia.
Qed.

Lemma lor_sentinel (n out_of_bounds : Z) :
  out_of_bounds = -1 \/
  (out_of_bounds = BAD_INDEX_VALUE /\ 0 <= n <= BAD_INDEX_VALUE) ->
  Z.lor n out_of_bounds = out_of_bounds.
Proof.
  intros [-> | [-> Hn]]; [apply Z.lor_m1_r |].
  change BAD_INDEX_VALUE with (Z.ones 63) in *.
  apply lor_ones; [lia |]. rewrite Z.ones_equiv in Hn. lia.
Qed.

(** When or-ing the sentinel into a neighbour always gives the sentinel,
    the chained comparison of [has_boundary_neighbor] only looks for the
    sentinel among the diagonals. *)
Lemma has_boundary_neighbor_lor (neighbors diagonals : list Z)
    (out_of_bounds : Z) :
  neighbors <> [] ->
  length neighbors = length diagonals ->
  Forall (fun n => Z.lor n out_of_bounds = out_of_bounds) neighbors ->
  has_boundary_neighbor neighbors diagonals out_of_bounds
  = Some (contains out_of_bounds diagonals).
Proof.
  intros Hne Hlen Hlor. unfold has_boundary_neighbor.
  rewrite (map_const_repeat _ out_of_bounds) by exact Hlor.
  destruct neighbors as [|n0 neighbors]; [congruence |].
  cbn [length]. rewrite contains_repeat.
  cbn [length] in Hlen. rewrite Hlen. apply contains_array_repeat.
Qed.

(** X16: with the sentinel [-1], or with the default sentinel and
    non-negative node ids, [has_boundary_neighbor] ignores the neighbours:
    it answers whether the sentinel occurs among the diagonals. *)
Theorem has_boundary_neighbor_reads_diagonals (neighbors diagonals : list Z)
    (out_of_bounds : Z) :
  neighbors <> [] ->
  length neighbors = length diagonals ->
  out_of_bounds = -1 \/
  (out_of_bounds = BAD_INDEX_VALUE /\
   Forall (fun n => 0 <= n <= BAD_INDEX_VALUE) neighbors) ->
  has_boundary_neighbor neighbors diagonals out_of_bounds
  = Some (contains out_of_bounds diagonals).
Proof.
  intros Hne Hlen Hoob. apply has_boundary_neighbor_lor; try assumption.
  apply Forall_forall. intros n Hn. apply lor_sentinel.
  destruct Hoob as [-> | [-> Hall]]; [now left | right].
  split; [reflexivity |]. rewrite Forall_forall in Hall. now apply Hall.
Qed.

Lemma has_boundary_neighbor_reads_diagonals_witness :
  has_boundary_neighbor [-1; 1; 2; 3] [4; 5; 6; 7] (-1)
  = Some (contains (-1) [4; 5; 6; 7]).
Proof.
  apply has_boundary_neighbor_reads_diagonals;
    [discriminate | reflexivity | now left].
Defined.

(** X17: under the same conditions the two versions agree exactly when the
    sentinel occurs among the diagonals or does not occur among the
    neighbours. *)
Theorem has_boundary_neighbor_agreement (neighbors diagonals : list Z)
    (out_of_bounds : Z) :
  length neighbors = 4%nat -> length diagonals = 4%nat ->
  out_of_bounds = -1 \/
  (out_of_bounds = BAD_INDEX_VALUE /\
   Forall (fun n => 0 <= n <= BAD_INDEX_VALUE) neighbors) ->
  (has_boundary_neighbor neighbors diagonals out_of_bounds
   = has_boundary_neighbor_slow neighbors diagonals out_of_bounds
   <-> contains out_of_bounds diagonals = true \/
       contains out_of_bounds neighbors = false).
Proof.
  intros Hn Hd Hoob.
  assert (Hfast : has_boundary_neighbor neighbors diagonals out_of_bounds
                  = Some (contains out_of_bounds diagonals)).
  { apply has_boundary_neighbor_lor.
    - intros ->. discriminate.
    - congruence.
    - apply Forall_forall. intros n Hin. apply lor_sentinel.
      destruct Hoob as [-> | [-> Hall]]; [now left | right].
      split; [reflexivity |]. rewrite Forall_forall in Hall. now apply Hall. }
  assert (Hslow : has_boundary_neighbor_slow neighbors diagonals out_of_bounds
                  = Some (contains out_of_bounds neighbors
                          || contains out_of_bounds diagonals)).
  { destruct neighbors as [|n0 [|n1 [|n2 [|n3 [|]]]]]; try discriminate.
    destruct diagonals as [|d0 [|d1 [|d2 [|d3 [|]]]]]; try discriminate.
    apply has_boundary_neighbor_slow_spec. }
  rewrite Hfast, Hslow.
  destruct (contains out_of_bounds neighbors),
    (contains out_of_bounds diagonals); cbn [orb]; split; intros H;
    try reflexivity; try discriminate; auto;
    destruct H as [H | H]; discriminate.
Qed.

Lemma has_boundary_neighbor_agreement_witness :
  has_boundary_neighbor [-1; 1; 2; 3] [4; 5; 6; 7] (-1)
  = has_boundary_neighbor_slow [-1; 1; 2; 3] [4; 5; 6; 7] (-1)
  <-> contains (-1) [4; 5; 6; 7] = true \/
      contains (-1) [-1; 1; 2; 3] = false.
Proof.
  apply has_boundary_neighbor_agreement; [reflexivity | reflexivity |].
  now left.
Defined.

End BoundaryNeighbours.

(** ** The loop of [diagonal_array_slow] *)

Section DiagonalSlow.

Import Py structured_grid.
Open Scope Z_scope.

Lemma upd_upd {A : Type} (l : list A) (p : nat) (x y : A) :
  upd (upd l p x) p y = upd l p y.
Proof.
  revert p. induction l as [|h t IH]; intros [|p]; simpl; try reflexivity.
  now rewrite IH.
Qed.

Lemma setitem2_spec (d : list (list Z)) (i j x : Z) (row : list Z) :
  0 <= i < Z.of_nat (length d) ->
  nth_error d (Z.to_nat i) = Some row ->
  0 <= j < Z.of_nat (length row) ->
  setitem2 d i j x
  = Some (upd d (Z.to_nat i) (upd row (Z.to_nat j) x)).
Proof.
  intros Hi Hrow Hj. unfold setitem2, item, setitem.
  rewrite (position_in_range _ _ Hi). cbn [bind]. rewrite Hrow. cbn [bind].
  rewrite (position_in_range _ _ Hj). cbn [bind]. reflexivity.
Qed.

Lemma upd_same_nth {A : Type} (l : list A) (p : nat) (x : A) :
  (p < length l)%nat -> nth_error (upd l p x) p = Some x.
Proof.
  intros H. rewrite upd_nth, Nat.eqb_refl.
  now replace (p <? length l)%nat with true by (symmetry; apply Nat.ltb_lt; lia).
Qed.

(** One pass of the loop body overwrites row [cell_id] with the four
    diagonal ids. *)
Lemma diagonal_slow_body_spec (ncols r c : Z) (d : list (list Z))
    (row : list Z) :
  0 <= r * ncols + c < Z.of_nat (length d) ->
  nth_error d (Z.to_nat (r * ncols + c)) = Some row ->
  length row = 4%nat ->
  diagonal_slow_body ncols r c d
  = Some (upd d (Z.to_nat (r * ncols + c))
            [r * ncols + c + ncols + 1; r * ncols + c + ncols - 1;
             r * ncols + c - ncols - 1; r * ncols + c - ncols + 1]).
Proof.
  intros Hid Hrow Hlen. unfold diagonal_slow_body.
  set (id := r * ncols + c) in *.
  assert (Hp : (Z.to_nat id < length d)%nat) by lia.
  destruct row as [|a0 [|a1 [|a2 [|a3 [|]]]]]; try discriminate.
  rewrite (setitem2_spec d id 2 (id - ncols - 1) [a0; a1; a2; a3]);
    [| lia | exact Hrow | simpl; lia].
  cbn [bind].
  change (upd [a0; a1; a2; a3] (Z.to_nat 2) (id - ncols - 1))
    with [a0; a1; id - ncols - 1; a3].
  rewrite (setitem2_spec _ id 0 (id + ncols + 1)
             [a0; a1; id - ncols - 1; a3]);
    [| rewrite upd_length; lia | now apply upd_same_nth | simpl; lia].
  cbn [bind]. rewrite upd_upd.
  change (upd [a0; a1; id - ncols - 1; a3] (Z.to_nat 0) (id + ncols + 1))
    with [id + ncols + 1; a1; id - ncols - 1; a3].
  rewrite (setitem2_spec _ id 3 (id - ncols + 1)
             [id + ncols + 1; a1; id - ncols - 1; a3]);
    [| rewrite upd_length; lia | now apply upd_same_nth | simpl; lia].
  cbn [bind]. rewrite upd_upd.
  change (upd [id + ncols + 1; a1; id - ncols - 1; a3] (Z.to_nat 3)
            (id - ncols + 1))
    with [id + ncols + 1; a1; id - ncols - 1; id - ncols + 1].
  rewrite (setitem2_spec _ id 1 (id + ncols - 1)
             [id + ncols + 1; a1; id - ncols - 1; id - ncols + 1]);
    [| rewrite upd_length; lia | now apply upd_same_nth | simpl; lia].
  rewrite upd_upd. reflexivity.
Qed.

(** A table given by a function on the node ids. *)
Lemma upd_table {A : Type} (f : Z -> A) (N p : nat) (y : A) :
  upd (map f (arange (Z.of_nat N))) p y
  = map (fun n => if n =? Z.of_nat p then y else f n) (arange (Z.of_nat N)).
Proof.
  apply nth_error_ext. intros k. rewrite upd_nth, length_map, arange_length.
  destruct (Nat.lt_ge_cases k N) as [Hk | Hk].
  - rewrite !nth_error_map, nth_error_arange by exact Hk. cbn [option_map].
    destruct (Nat.eqb_spec k p) as [-> | Hne].
    + rewrite Z.eqb_refl.
      now replace (p <? N)%nat with true by (symmetry; apply Nat.ltb_lt; lia).
    + cbn [andb]. destruct (Z.eqb_spec (Z.of_nat k) (Z.of_nat p)); [lia |].
      reflexivity.
  - assert (E1 : nth_error (map f (arange (Z.of_nat N))) k = None)
      by (apply nth_error_None; rewrite length_map, arange_length; lia).
    assert (E2 : nth_error
                   (map (fun n => if n =? Z.of_nat p then y else f n)
                        (arange (Z.of_nat N))) k = None)
      by (apply nth_error_None; rewrite length_map, arange_length; lia).
    rewrite E1, E2.
    destruct (Nat.eqb_spec k p) as [-> | Hne]; [| reflexivity].
    now replace (p <? N)%nat with false by (symmetry; apply Nat.ltb_ge; lia).
Qed.

Lemma table_ext {A : Type} (f g : Z -> A) (N : nat) :
  (forall n, 0 <= n < Z.of_nat N -> f n = g n) ->
  map f (arange (Z.of_nat N)) = map g (arange (Z.of_nat N)).
Proof.
  intros H. apply map_ext_in. intros n Hn. apply H.
  unfold arange in Hn. apply xrange_In in Hn. lia.
Qed.

(** A loop whose body for [x] overwrites the rows selected by [sel x] with
    their value under [g]; [Pr] is what the body needs of the rows. *)
Lemma for_each_tables {A : Type} (N : nat) (Pr : A -> Prop) (g : Z -> A)
    (sel : Z -> Z -> bool) (body : Z -> list A -> option (list A))
    (xs : list Z) :
  (forall n, Pr (g n)) ->
  (forall x f, In x xs -> (forall n, Pr (f n)) ->
     body x (map f (arange (Z.of_nat N)))
     = Some (map (fun n => if sel x n then g n else f n)
               (arange (Z.of_nat N)))) ->
  forall f, (forall n, Pr (f n)) ->
    for_each xs body (map f (arange (Z.of_nat N)))
    = Some (map (fun n => if existsb (fun x => sel x n) xs then g n else f n)
              (arange (Z.of_nat N))).
Proof.
  intros Hg. induction xs as [|x xs IH]; intros Hbody f Hf;
    cbn [for_each existsb]; [reflexivity |].
  rewrite Hbody by (auto; now left). cbn [bind].
  rewrite IH.
  - f_equal. apply table_ext. intros n _.
    destruct (sel x n); cbn [orb]; [| reflexivity].
    now destruct (existsb _ xs).
  - intros y f' Hy. apply Hbody. now right.
  - intros n. destruct (sel x n); auto.
Qed.

Lemma interior_by_loops (shape : shape_t) (n : Z) :
  0 <= n < node_count shape ->
  existsb (fun r => existsb (fun c => n =? r * ncols shape + c)
                      (xrange 1 (ncols shape - 1)))
          (xrange 1 (nrows shape - 1))
  = is_interior_node shape n.
Proof.
  intros Hn. unfold node_count in Hn.
  assert (Hc : 0 < ncols shape) by (unfold nrows, ncols in *; nia).
  destruct (node_of_row_col (ncols shape) n Hc) as [En Hm].
  unfold is_interior_node, node_row, node_col.
  set (C := ncols shape) in *. set (R := nrows shape) in *.
  apply eq_true_iff_eq. rewrite existsb_exists, !andb_true_iff, !Z.leb_le.
  split.
  - intros [r [Hr Hex]]. apply existsb_exists in Hex as [c [Hcin Heq]].
    apply xrange_In in Hr, Hcin. apply Z.eqb_eq in Heq.
    destruct (row_col_of C r c) as [E1 E2]; [lia |].
    rewrite Heq, E1, E2. lia.
  - intros [[[H1 H2] H3] H4]. exists (n / C). split.
    + apply xrange_In_iff. lia.
    + apply existsb_exists. exists (n mod C). split.
      * apply xrange_In_iff. lia.
      * apply Z.eqb_eq. exact En.
Qed.

Lemma diagonal_array_slow_explicit (shape : shape_t) (out_of_bounds : Z) :
  diagonal_array_slow shape out_of_bounds
  = Some (map (fun n =>
                 if is_interior_node shape n
                 then [n + ncols shape + 1; n + ncols shape - 1;
                       n - ncols shape - 1; n - ncols shape + 1]
                 else [-1; -1; -1; -1])
              (arange (node_count shape))).
Proof.
  unfold diagonal_array_slow.
  set (C := ncols shape). set (R := nrows shape).
  set (N := Z.to_nat (R * C)).
  assert (HN : R * C = Z.of_nat N)
    by (unfold N, R, C, nrows, ncols; rewrite Z2Nat.id; nia).
  assert (Hinit : repeat (repeat (-1) 4) N
                  = map (fun _ : Z => [-1; -1; -1; -1]) (arange (Z.of_nat N))).
  { rewrite (map_const_repeat _ [-1; -1; -1; -1]).
    - now rewrite arange_length.
    - apply Forall_forall. reflexivity. }
  rewrite Hinit.
  rewrite (for_each_tables N (fun row => length row = 4%nat)
             (fun n => [n + C + 1; n + C - 1; n - C - 1; n - C + 1])
             (fun r n => existsb (fun c => n =? r * C + c) (xrange 1 (C - 1)))).
  - f_equal. unfold node_count. fold R C. rewrite HN.
    apply table_ext. intros n Hn.
    rewrite <- (interior_by_loops shape n)
      by (unfold node_count; fold R C; lia).
    reflexivity.
  - reflexivity.
  - intros r f Hr Hf. apply xrange_In in Hr.
    apply (for_each_tables N (fun row => length row = 4%nat)
             (fun n => [n + C + 1; n + C - 1; n - C - 1; n - C + 1])
             (fun c n => n =? r * C + c)); [reflexivity | | exact Hf].
    intros c f' Hcin Hf'. apply xrange_In in Hcin.
    assert (Hid : 0 <= r * C + c < Z.of_nat N).
    { rewrite <- HN.
      assert (0 <= r * C) by (apply Z.mul_nonneg_nonneg; lia).
      assert ((r + 1) * C <= (R - 1) * C)
        by (apply Z.mul_le_mono_nonneg_r; lia).
      lia. }
    rewrite (diagonal_slow_body_spec C r c _ (f' (r * C + c))).
    + rewrite upd_table, Z2Nat.id by lia. f_equal.
      apply table_ext. intros n _.
      destruct (Z.eqb_spec n (r * C + c)) as [-> | Hne]; reflexivity.
    + now rewrite length_map, arange_length.
    + rewrite nth_error_map, nth_error_arange by lia. cbn [option_map].
      now rewrite Z2Nat.id by lia.
    + apply Hf'.
  - reflexivity.
Qed.

(** X18: [diagonal_array_slow] never raises and never reads [out_of_bounds]:
    the row of a node strictly inside the grid holds its top-right,
    top-left, bottom-left and bottom-right neighbours, in this order, and
    the row of every other node holds four [-1]. *)
Theorem diagonal_array_slow_spec (shape : shape_t) (out_of_bounds : Z) :
  diagonal_array_slow shape out_of_bounds
  = Some (map (fun n =>
                 if is_interior_node shape n
                 then [n + ncols shape + 1; n + ncols shape - 1;
                       n - ncols shape - 1; n - ncols shape + 1]
                 else [-1; -1; -1; -1])
              (arange (node_count shape))).
Proof. apply diagonal_array_slow_explicit. Qed.

End DiagonalSlow.

(** ** The halo table and the neighbour tables *)

Section HaloTables.

Import Py structured_grid.
Open Scope Z_scope.

Lemma list_eq_map_arange_gen {A : Type} (l : list A) (f : Z -> A) (n : nat) :
  length l = n ->
  (forall k, (k < n)%nat -> nth_error l k = Some (f (Z.of_nat k))) ->
  l = map f (arange (Z.of_nat n)).
Proof.
  intros Hlen H. apply nth_error_ext. intros k.
  destruct (Nat.lt_ge_cases k n) as [Hlt | Hge].
  - now rewrite (H k Hlt), nth_error_map, nth_error_arange.
  - transitivity (@None A); [| symmetry]; apply nth_error_None.
    + lia.
    + rewrite length_map, arange_length. lia.
Qed.

(** A slice with bounds inside the array, on a table over [arange]. *)
Lemma slice_map_arange {A : Type} (f : Z -> A) (len : Z) (lo hi : option Z) :
  let a := match lo with None => 0 | Some i => i end in
  let b := match hi with None => len | Some i => i end in
  0 <= a <= b -> b <= len ->
  slice lo hi (map f (arange len)) = map f (xrange a b).
Proof.
  intros a b Hab Hb. unfold slice.
  rewrite length_map, arange_length_Z, Z2Nat.id by lia.
  assert (Ea : match lo with None => 0 | Some i => clamp len i end = a).
  { unfold a. destruct lo as [i |]; [| reflexivity]. unfold clamp.
    subst a. destruct (Z.ltb_spec i 0); lia. }
  assert (Eb : match hi with None => len | Some i => clamp len i end = b).
  { unfold b. destruct hi as [i |]; [| reflexivity]. unfold clamp.
    subst b. destruct (Z.ltb_spec i 0); lia. }
  rewrite Ea, Eb, skipn_map, firstn_map. f_equal. unfold arange.
  rewrite skipn_xrange, firstn_xrange. f_equal; lia.
Qed.

Lemma reshape_map {A B : Type} (f : A -> B) (rows cols : nat) (l : list A) :
  reshape rows cols (map f l) = map (map f) (reshape rows cols l).
Proof.
  revert l. induction rows as [|r IH]; intros l; cbn [reshape map];
    [reflexivity |].
  now rewrite firstn_map, skipn_map, IH.
Qed.

Lemma arange_seq (n : nat) : arange (Z.of_nat n) = map Z.of_nat (seq 0 n).
Proof.
  unfold arange, xrange. rewrite Z.sub_0_r, Nat2Z.id. apply map_ext.
  intros k. lia.
Qed.

(** The rows of a table over the node ids. *)
Lemma reshape_table {A : Type} (F : Z -> A) (r c : nat) :
  reshape r c (map F (arange (Z.of_nat r * Z.of_nat c)))
  = map (fun i => map (fun j => F (i * Z.of_nat c + j)) (arange (Z.of_nat c)))
        (arange (Z.of_nat r)).
Proof.
  rewrite reshape_map. unfold arange at 1. rewrite reshape_xrange by lia.
  rewrite (arange_seq r), !map_map. apply map_ext. intros i.
  rewrite Z.add_0_l.
  replace (Z.of_nat i * Z.of_nat c + Z.of_nat c)
    with (Z.of_nat c + Z.of_nat i * Z.of_nat c) by lia.
  rewrite <- (Z.add_0_l (Z.of_nat i * Z.of_nat c)) at 1.
  rewrite xrange_shift, map_map. apply map_ext. intros j. f_equal. lia.
Qed.

(** Flattening a block of a two-dimensional table. *)
Lemma flat_block {A : Type} (g : Z -> Z -> A) (rl cl : Z) (r c : nat) :
  concat (map (fun i => map (g i) (xrange cl (cl + Z.of_nat c)))
              (xrange rl (rl + Z.of_nat r)))
  = map (fun n => g (rl + n / Z.of_nat c) (cl + n mod Z.of_nat c))
        (arange (Z.of_nat (r * c))).
Proof.
  apply list_eq_map_arange_gen.
  - unfold xrange at 2. rewrite map_map.
    rewrite (length_concat_uniform_seq _ c).
    + f_equal. lia.
    + intros i. rewrite length_map, xrange_length. lia.
  - intros k Hk. unfold xrange at 2. rewrite map_map.
    replace (Z.to_nat (rl + Z.of_nat r - rl)) with r by lia.
    assert (Hc : (0 < c)%nat) by (destruct c; lia).
    pose proof (Nat.div_mod_eq k c) as Hdm.
    pose proof (Nat.mod_upper_bound k c ltac:(lia)) as Hmod.
    assert (Hdiv : (k / c < r)%nat) by (apply Nat.Div0.div_lt_upper_bound; lia).
    replace k with ((k / c) * c + k mod c)%nat at 1 by lia.
    rewrite (nth_concat_uniform _ c).
    + rewrite nth_error_map, xrange_nth by lia. cbn [option_map Nat.add].
      f_equal. f_equal.
      * rewrite Nat2Z.inj_div. reflexivity.
      * rewrite Nat2Z.inj_mod. reflexivity.
    + intros i. rewrite length_map, xrange_length. lia.
    + exact Hdiv.
    + exact Hmod.
Qed.

Lemma vstack4_T_map {A B : Type} (f0 f1 f2 f3 : A -> B) (l : list A) :
  vstack4_T (map f0 l) (map f1 l) (map f2 l) (map f3 l)
  = Some (map (fun x => [f0 x; f1 x; f2 x; f3 x]) l).
Proof.
  induction l as [|x l IH]; cbn [map vstack4_T]; [reflexivity |].
  now rewrite IH.
Qed.

Lemma interior_nodes_explicit (shape : shape_t) :
  2 <= nrows shape -> 2 <= ncols shape ->
  interior_nodes shape
  = Some (concat
            (map (fun k => xrange (ncols shape + 1 + Z.of_nat k * ncols shape)
                             (ncols shape + 1 + Z.of_nat k * ncols shape
                              + (ncols shape - 2)))
                 (seq 0 (fst shape - 2)))).
Proof.
  intros Hr Hc. unfold interior_nodes, interior_iter.
  rewrite xrange3_pos by lia. cbn [bind]. rewrite flat_map_concat_map, map_map.
  assert (Ecnt : Z.to_nat ((ncols shape * (nrows shape - 1) - (ncols shape + 1)
                            + ncols shape - 1) / ncols shape)
                 = (fst shape - 2)%nat).
  { replace ((ncols shape * (nrows shape - 1) - (ncols shape + 1)
              + ncols shape - 1) / ncols shape) with (nrows shape - 2).
    - unfold nrows. lia.
    - apply Z.div_unique with (r := ncols shape - 2); lia. }
  rewrite Ecnt. reflexivity.
Qed.

Lemma put_as_put_array {A : Type} (a : list A) (idx : list Z) (vals : list A) :
  length vals = length idx -> put a idx vals = put_array a idx vals.
Proof. intros H. unfold put_array. now rewrite H, Nat.eqb_refl. Qed.

(** The halo table as a flat array. *)
Lemma node_index_with_halo_flat (junk : Z) (shape : shape_t) (halo : Z) :
  let H : shape_t := (fst shape + 2, snd shape + 2)%nat in
  - 2 ^ 63 <= halo < 2 ^ 63 ->
  node_index_with_halo junk shape halo
  = Some (reshape (fst H) (snd H)
            (map (fun n => if is_interior_node H n
                           then (n / ncols H - 1) * ncols shape
                                + (n mod ncols H - 1)
                           else halo)
                 (arange (node_count H)))).
Proof.
  intros H Hfits. unfold node_index_with_halo. fold H.
  assert (HR : nrows H = nrows shape + 2) by (unfold nrows, H; simpl; lia).
  assert (HC : ncols H = ncols shape + 2) by (unfold ncols, H; simpl; lia).
  assert (Hr0 : 0 <= nrows shape) by (unfold nrows; lia).
  assert (Hc0 : 0 <= ncols shape) by (unfold ncols; lia).
  destruct (interior_nodes_In H) as [li [Ei Hi]]; [lia |].
  destruct (boundary_nodes_In H) as [lb [Eb Hb]]; [lia | lia |].
  rewrite Ei, Eb. cbn [bind].
  set (N := Z.to_nat (node_count H)).
  assert (HN : node_count H = Z.of_nat N).
  { unfold N, node_count. rewrite Z2Nat.id; nia. }
  assert (Hcount : interior_node_count H = nrows shape * ncols shape).
  { unfold interior_node_count. rewrite HR, HC. ring. }
  assert (Hlen : Z.to_nat (interior_node_count H) = length li).
  { pose proof (interior_nodes_length H li) as Hl.
    rewrite <- (Nat2Z.id (length li)). f_equal.
    rewrite Hl; [| lia | exact Ei]. unfold cell_count. rewrite HR, HC.
    destruct (Z.ltb_spec 2 (Z.min (nrows shape + 2) (ncols shape + 2)))
      as [Hm | Hm].
    - rewrite Hcount. ring.
    - rewrite Hcount.
      assert (nrows shape = 0 \/ ncols shape = 0) as [-> | ->] by lia; ring. }
  change (xrange 0 (interior_node_count H))
    with (arange (interior_node_count H)).
  rewrite put_as_put_array by (rewrite arange_length_Z; exact Hlen).
  destruct (put_array_arange (repeat junk N) li (interior_node_count H))
    as [s1 [E1 [L1 [G1 G2]]]].
  { exact Hlen. }
  { intros i Hin. rewrite repeat_length, <- HN. now apply Hi. }
  { apply sorted_NoDup. apply (interior_nodes_sorted H); [lia | exact Ei]. }
  rewrite E1. cbn [bind]. rewrite (int64_fits _ Hfits). cbn [bind].
  rewrite repeat_length in L1.
  destruct (fill_at_total s1 lb halo) as [s2 E2].
  { intros i Hin. rewrite L1, <- HN. now apply Hb. }
  rewrite E2. cbn [bind]. do 2 f_equal.
  destruct (fill_at_nth _ _ _ _ E2) as [L2 F2]. rewrite L1 in L2, F2.
  rewrite HN. apply list_eq_map_arange; [exact L2 |].
  intros k Hk.
  assert (Hrange : 0 <= Z.of_nat k < node_count H) by lia.
  pose proof (interior_xor_perimeter H (Z.of_nat k) ltac:(lia) Hrange) as Hx.
  destruct (is_perimeter_node H (Z.of_nat k)) eqn:Ep; simpl in Hx; rewrite Hx.
  - apply (F2 k). exists (Z.of_nat k). split.
    + apply Hb. now split.
    + now apply position_self.
  - destruct (F2 k) as [_ ->].
    2:{ intros Hex. apply In_position in Hex.
        - apply Hb in Hex. destruct Hex as [_ Hex]. congruence.
        - intros i Hin. now apply Hb. }
    (* the interior node [k] is entry (row - 1) * cols + (col - 1) of the
       list of interior nodes *)
    unfold is_interior_node, node_row, node_col in Hx.
    rewrite !andb_true_iff, !Z.leb_le in Hx.
    destruct Hx as [[[H1 H2] H3] H4].
    destruct (node_of_row_col (ncols H) (Z.of_nat k) ltac:(lia)) as [En Hm].
    set (i := Z.of_nat k / ncols H) in *.
    set (j := Z.of_nat k mod ncols H) in *.
    assert (Hnth : nth_error li (Z.to_nat (i - 1) * snd shape + Z.to_nat (j - 1))
                   = Some (Z.of_nat k)).
    { rewrite (interior_nodes_explicit H) in Ei by lia.
      injection Ei as <-.
      rewrite (nth_concat_uniform _ (snd shape)).
      - rewrite xrange_nth by lia.
        f_equal. cbn [Nat.add]. rewrite !Z2Nat.id by lia. lia.
      - intros i'. rewrite xrange_length. rewrite HC. unfold ncols. lia.
      - unfold H, nrows in *. cbn [fst] in *. lia.
      - unfold ncols in *. lia. }
    specialize (G1 _ _ Hnth). rewrite Nat2Z.id in G1. rewrite G1. f_equal.
    rewrite Nat2Z.inj_add, Nat2Z.inj_mul, !Z2Nat.id by lia.
    unfold ncols. reflexivity.
Qed.

Lemma reshape_halo {A : Type} (F : Z -> A) (shape : shape_t) :
  reshape (fst shape + 2) (snd shape + 2)
    (map F (arange (Z.of_nat (fst shape + 2) * Z.of_nat (snd shape + 2))))
  = map (fun i => map (fun j => F (i * (ncols shape + 2) + j))
                      (arange (ncols shape + 2)))
        (arange (nrows shape + 2)).
Proof.
  rewrite reshape_table. unfold nrows, ncols.
  replace (Z.of_nat (fst shape + 2)) with (Z.of_nat (fst shape) + 2) by lia.
  replace (Z.of_nat (snd shape + 2)) with (Z.of_nat (snd shape) + 2) by lia.
  reflexivity.
Qed.

(** A sentinel that does not fit the 64-bit integers of the halo table
    raises. *)
Lemma node_index_with_halo_overflow (junk : Z) (shape : shape_t)
    (halo_indices : Z) :
  int64 halo_indices = None ->
  node_index_with_halo junk shape halo_indices = None.
Proof.
  intros E. unfold node_index_with_halo.
  destruct (interior_nodes _); [| reflexivity]. cbn [bind].
  destruct (boundary_nodes _); [| reflexivity]. cbn [bind].
  destruct (put _ _ _); [| reflexivity]. cbn [bind].
  now rewrite E.
Qed.

Lemma node_index_with_halo_explicit (junk : Z) (shape : shape_t)
    (halo_indices : Z) :
  - 2 ^ 63 <= halo_indices < 2 ^ 63 ->
  node_index_with_halo junk shape halo_indices
  = Some (map (fun i =>
                 map (fun j =>
                        if (1 <=? i) && (i <=? nrows shape)
                           && (1 <=? j) && (j <=? ncols shape)
                        then (i - 1) * ncols shape + (j - 1)
                        else halo_indices)
                     (arange (ncols shape + 2)))
              (arange (nrows shape + 2))).
Proof.
  intros Hfits.
  rewrite node_index_with_halo_flat by exact Hfits. cbv zeta. f_equal.
  cbn [fst snd].
  assert (HR : nrows ((fst shape + 2)%nat, (snd shape + 2)%nat)
               = nrows shape + 2) by (unfold nrows; simpl; lia).
  assert (HC : ncols ((fst shape + 2)%nat, (snd shape + 2)%nat)
               = ncols shape + 2) by (unfold ncols; simpl; lia).
  change (node_count ((fst shape + 2)%nat, (snd shape + 2)%nat))
    with (Z.of_nat (fst shape + 2) * Z.of_nat (snd shape + 2)).
  rewrite reshape_halo.
  apply map_ext_in. intros i Hi. apply map_ext_in. intros j Hj.
  unfold arange in Hi, Hj. apply xrange_In in Hi, Hj.
  unfold is_interior_node, node_row, node_col. rewrite HR, HC.
  destruct (row_col_of (ncols shape + 2) i j) as [-> ->]; [lia |].
  replace (nrows shape + 2 - 2) with (nrows shape) by lia.
  replace (ncols shape + 2 - 2) with (ncols shape) by lia.
  reflexivity.
Qed.

(** X19: with a sentinel that fits the 64-bit integers of the table,
    [node_index_with_halo] does not raise and does not depend on the
    uninitialised content of its array: inside a frame of [halo_indices]
    one entry wide it holds the node ids, row by row. *)
Theorem node_index_with_halo_spec (junk : Z) (shape : shape_t)
    (halo_indices : Z) :
  - 2 ^ 63 <= halo_indices < 2 ^ 63 ->
  node_index_with_halo junk shape halo_indices
  = Some (map (fun i =>
                 map (fun j =>
                        if (1 <=? i) && (i <=? nrows shape)
                           && (1 <=? j) && (j <=? ncols shape)
                        then (i - 1) * ncols shape + (j - 1)
                        else halo_indices)
                     (arange (ncols shape + 2)))
              (arange (nrows shape + 2))).
Proof. apply node_index_with_halo_explicit. Qed.

Lemma node_index_with_halo_spec_witness :
  node_index_with_halo 7 (2%nat, 3%nat) (-1)
  = Some (map (fun i =>
                 map (fun j =>
                        if (1 <=? i) && (i <=? nrows (2%nat, 3%nat))
                           && (1 <=? j) && (j <=? ncols (2%nat, 3%nat))
                        then (i - 1) * ncols (2%nat, 3%nat) + (j - 1)
                        else -1)
                     (arange (ncols (2%nat, 3%nat) + 2)))
              (arange (nrows (2%nat, 3%nat) + 2))).
Proof. apply node_index_with_halo_spec. lia. Defined.

Lemma slice2_table {A : Type} (G : Z -> Z -> A) (R C : Z)
    (rlo rhi clo chi : option Z) :
  let ra := match rlo with None => 0 | Some i => i end in
  let rb := match rhi with None => R | Some i => i end in
  let ca := match clo with None => 0 | Some i => i end in
  let cb := match chi with None => C | Some i => i end in
  0 <= ra <= rb -> rb <= R -> 0 <= ca <= cb -> cb <= C ->
  slice2 rlo rhi clo chi (map (fun i => map (G i) (arange C)) (arange R))
  = map (fun i => map (G i) (xrange ca cb)) (xrange ra rb).
Proof.
  intros ra rb ca cb Hr1 Hr2 Hc1 Hc2. unfold slice2.
  rewrite (slice_map_arange _ R rlo rhi) by assumption.
  rewrite map_map. apply map_ext. intros i.
  now rewrite (slice_map_arange _ C clo chi) by assumption.
Qed.

(** A block of the halo table with as many rows and columns as the grid,
    read row by row. *)
Lemma halo_block {A : Type} (G : Z -> Z -> A) (shape : shape_t)
    (rlo rhi clo chi : option Z) (rl cl : Z) :
  match rlo with None => 0 | Some i => i end = rl ->
  match rhi with None => nrows shape + 2 | Some i => i end
  = rl + nrows shape ->
  match clo with None => 0 | Some i => i end = cl ->
  match chi with None => ncols shape + 2 | Some i => i end
  = cl + ncols shape ->
  0 <= rl <= 2 -> 0 <= cl <= 2 ->
  flat (slice2 rlo rhi clo chi
          (map (fun i => map (G i) (arange (ncols shape + 2)))
               (arange (nrows shape + 2))))
  = map (fun n => G (rl + n / ncols shape) (cl + n mod ncols shape))
        (arange (node_count shape)).
Proof.
  intros Era Erb Eca Ecb Hrl Hcl.
  assert (Hr0 : 0 <= nrows shape) by (unfold nrows; lia).
  assert (Hc0 : 0 <= ncols shape) by (unfold ncols; lia).
  rewrite slice2_table by lia. rewrite Era, Erb, Eca, Ecb.
  unfold flat, node_count, nrows, ncols.
  rewrite flat_block. now rewrite Nat2Z.inj_mul.
Qed.

Ltac halo_entry :=
  repeat match goal with
         | |- context [?a <=? ?b] => destruct (Z.leb_spec a b)
         end;
  cbn [andb]; first [reflexivity | lia | f_equal; lia].

Lemma neighbor_array_explicit (junk : Z) (shape : shape_t) (out_of_bounds : Z) :
  - 2 ^ 63 <= out_of_bounds < 2 ^ 63 ->
  neighbor_array junk shape out_of_bounds
  = Some (map (fun n =>
                 [if 1 <=? node_col shape n then n - 1 else out_of_bounds;
                  if 1 <=? node_row shape n then n - ncols shape
                  else out_of_bounds;
                  if node_col shape n <=? ncols shape - 2 then n + 1
                  else out_of_bounds;
                  if node_row shape n <=? nrows shape - 2
                  then n + ncols shape else out_of_bounds])
              (arange (node_count shape))).
Proof.
  intros Hfits. unfold neighbor_array.
  rewrite node_index_with_halo_explicit by exact Hfits. cbn [bind].
  rewrite (halo_block _ shape _ _ _ _ 1 0) by (reflexivity || lia).
  rewrite (halo_block _ shape _ _ _ _ 0 1) by (reflexivity || lia).
  rewrite (halo_block _ shape _ _ _ _ 1 2) by (reflexivity || lia).
  rewrite (halo_block _ shape _ _ _ _ 2 1) by (reflexivity || lia).
  rewrite vstack4_T_map. f_equal. apply map_ext_in. intros n Hn.
  unfold arange in Hn. apply xrange_In in Hn. unfold node_count in Hn.
  assert (Hc : 0 < ncols shape) by (unfold nrows, ncols in *; nia).
  destruct (node_of_row_col (ncols shape) n Hc) as [En Hm].
  assert (Hrow : 0 <= n / ncols shape < nrows shape)
    by (apply row_bounds; lia).
  unfold node_row, node_col.
  set (i := n / ncols shape) in *. set (j := n mod ncols shape) in *.
  f_equal; [| f_equal; [| f_equal; [| f_equal]]]; halo_entry.
Qed.

Lemma diagonal_array_explicit (junk : Z) (shape : shape_t) (out_of_bounds : Z) :
  - 2 ^ 63 <= out_of_bounds < 2 ^ 63 ->
  diagonal_array junk shape out_of_bounds
  = Some (map (fun n =>
                 [if (1 <=? node_row shape n) && (1 <=? node_col shape n)
                  then n - ncols shape - 1 else out_of_bounds;
                  if (1 <=? node_row shape n)
                     && (node_col shape n <=? ncols shape - 2)
                  then n - ncols shape + 1 else out_of_bounds;
                  if (node_row shape n <=? nrows shape - 2)
                     && (node_col shape n <=? ncols shape - 2)
                  then n + ncols shape + 1 else out_of_bounds;
                  if (node_row shape n <=? nrows shape - 2)
                     && (1 <=? node_col shape n)
                  then n + ncols shape - 1 else out_of_bounds])
              (arange (node_count shape))).
Proof.
  intros Hfits. unfold diagonal_array.
  rewrite node_index_with_halo_explicit by exact Hfits. cbn [bind].
  rewrite (halo_block _ shape _ _ _ _ 0 0) by (reflexivity || lia).
  rewrite (halo_block _ shape _ _ _ _ 0 2) by (reflexivity || lia).
  rewrite (halo_block _ shape _ _ _ _ 2 2) by (reflexivity || lia).
  rewrite (halo_block _ shape _ _ _ _ 2 0) by (reflexivity || lia).
  rewrite vstack4_T_map. f_equal. apply map_ext_in. intros n Hn.
  unfold arange in Hn. apply xrange_In in Hn. unfold node_count in Hn.
  assert (Hc : 0 < ncols shape) by (unfold nrows, ncols in *; nia).
  destruct (node_of_row_col (ncols shape) n Hc) as [En Hm].
  assert (Hrow : 0 <= n / ncols shape < nrows shape)
    by (apply row_bounds; lia).
  unfold node_row, node_col.
  set (i := n / ncols shape) in *. set (j := n mod ncols shape) in *.
  f_equal; [| f_equal; [| f_equal; [| f_equal]]]; halo_entry.
Qed.

End HaloTables.

(** ** The neighbour tables *)

Section NeighbourTables.

Import Py structured_grid.
Open Scope Z_scope.

(** X20: with a sentinel that fits the 64-bit integers of the halo table,
    [neighbor_array] does not raise and does not depend on the
    uninitialised content of the halo table: the row of node [n] holds its
    left, lower, right and upper neighbours, in this order, and
    [out_of_bounds] where the grid ends. *)
Theorem neighbor_array_spec (junk : Z) (shape : shape_t) (out_of_bounds : Z) :
  - 2 ^ 63 <= out_of_bounds < 2 ^ 63 ->
  neighbor_array junk shape out_of_bounds
  = Some (map (fun n =>
                 [if 1 <=? node_col shape n then n - 1 else out_of_bounds;
                  if 1 <=? node_row shape n then n - ncols shape
                  else out_of_bounds;
                  if node_col shape n <=? ncols shape - 2 then n + 1
                  else out_of_bounds;
                  if node_row shape n <=? nrows shape - 2
                  then n + ncols shape else out_of_bounds])
              (arange (node_count shape))).
Proof. apply neighbor_array_explicit. Qed.

Lemma neighbor_array_spec_witness :
  neighbor_array 7 (2%nat, 3%nat) (-1)
  = Some (map (fun n =>
                 [if 1 <=? node_col (2%nat, 3%nat) n then n - 1 else -1;
                  if 1 <=? node_row (2%nat, 3%nat) n
                  then n - ncols (2%nat, 3%nat) else -1;
                  if node_col (2%nat, 3%nat) n <=? ncols (2%nat, 3%nat) - 2
                  then n + 1 else -1;
                  if node_row (2%nat, 3%nat) n <=? nrows (2%nat, 3%nat) - 2
                  then n + ncols (2%nat, 3%nat) else -1])
              (arange (node_count (2%nat, 3%nat)))).
Proof. apply neighbor_array_spec. lia. Defined.

(** X21: with a sentinel that fits the 64-bit integers of the halo table,
    [diagonal_array] does not raise: the row of node [n] holds its
    bottom-left, bottom-right, top-right and top-left neighbours, in this
    order, for every node of the grid, and [out_of_bounds] where the
    diagonal leaves the grid. *)
Theorem diagonal_array_spec (junk : Z) (shape : shape_t) (out_of_bounds : Z) :
  - 2 ^ 63 <= out_of_bounds < 2 ^ 63 ->
  diagonal_array junk shape out_of_bounds
  = Some (map (fun n =>
                 [if (1 <=? node_row shape n) && (1 <=? node_col shape n)
                  then n - ncols shape - 1 else out_of_bounds;
                  if (1 <=? node_row shape n)
                     && (node_col shape n <=? ncols shape - 2)
                  then n - ncols shape + 1 else out_of_bounds;
                  if (node_row shape n <=? nrows shape - 2)
                     && (node_col shape n <=? ncols shape - 2)
                  then n + ncols shape + 1 else out_of_bounds;
                  if (node_row shape n <=? nrows shape - 2)
                     && (1 <=? node_col shape n)
                  then n + ncols shape - 1 else out_of_bounds])
              (arange (node_count shape))).
Proof. apply diagonal_array_explicit. Qed.

Lemma diagonal_array_spec_witness :
  diagonal_array 7 (2%nat, 3%nat) (-1)
  = Some (map (fun n =>
                 [if (1 <=? node_row (2%nat, 3%nat) n)
                     && (1 <=? node_col (2%nat, 3%nat) n)
                  then n - ncols (2%nat, 3%nat) - 1 else -1;
                  if (1 <=? node_row (2%nat, 3%nat) n)
                     && (node_col (2%nat, 3%nat) n
                         <=? ncols (2%nat, 3%nat) - 2)
                  then n - ncols (2%nat, 3%nat) + 1 else -1;
                  if (node_row (2%nat, 3%nat) n <=? nrows (2%nat, 3%nat) - 2)
                     && (node_col (2%nat, 3%nat) n
                         <=? ncols (2%nat, 3%nat) - 2)
                  then n + ncols (2%nat, 3%nat) + 1 else -1;
                  if (node_row (2%nat, 3%nat) n <=? nrows (2%nat, 3%nat) - 2)
                     && (1 <=? node_col (2%nat, 3%nat) n)
                  then n + ncols (2%nat, 3%nat) - 1 else -1])
              (arange (node_count (2%nat, 3%nat)))).
Proof. apply diagonal_array_spec. lia. Defined.

Lemma table_nth {A : Type} (F : Z -> A) (N n : Z) :
  0 <= n < N -> nth_error (map F (arange N)) (Z.to_nat n) = Some (F n).
Proof.
  intros H. rewrite nth_error_map. unfold arange.
  rewrite xrange_nth by lia. cbn [option_map].
  now rewrite Z.add_0_l, Z2Nat.id by lia.
Qed.

(** X22: on a grid with at least two rows and two columns [diagonal_array]
    and [diagonal_array_slow] never return the same table, whatever the
    sentinel: the slow version leaves the row of the corner node 0 at
    [-1], the fast one records its top-right neighbour (or raises, on a
    sentinel that does not fit the halo table). *)
Theorem diagonal_arrays_differ (junk : Z) (shape : shape_t)
    (out_of_bounds : Z) :
  2 <= nrows shape -> 2 <= ncols shape ->
  diagonal_array junk shape out_of_bounds
  <> diagonal_array_slow shape out_of_bounds.
Proof.
  intros Hr Hc. rewrite diagonal_array_slow_explicit.
  destruct (int64 out_of_bounds) as [x |] eqn:Efits.
  2:{ unfold diagonal_array.
      rewrite node_index_with_halo_overflow by exact Efits. discriminate. }
  apply int64_iff in Efits as [_ Hfits].
  rewrite diagonal_array_explicit by exact Hfits.
  intros [= H].
  apply (f_equal (fun t => nth_error t (Z.to_nat 0))) in H.
  rewrite !table_nth in H by (unfold node_count; nia).
  unfold is_interior_node, node_row, node_col in H.
  rewrite Z.div_0_l, Z.mod_0_l in H by lia.
  change (1 <=? 0) with false in H. cbn [andb] in H.
  replace (0 <=? nrows shape - 2) with true in H
    by (symmetry; apply Z.leb_le; lia).
  replace (0 <=? ncols shape - 2) with true in H
    by (symmetry; apply Z.leb_le; lia).
  cbn [andb] in H. injection H as _ H. lia.
Qed.

Lemma diagonal_arrays_differ_witness :
  diagonal_array 7 (3%nat, 3%nat) (-1)
  <> diagonal_array_slow (3%nat, 3%nat) (-1).
Proof.
  apply diagonal_arrays_differ; unfold nrows, ncols; simpl; lia.
Defined.

(** X23: with a sentinel that fits the 64-bit integers of the halo table,
    on a node strictly inside the grid the row of [diagonal_array] is the
    row of [diagonal_array_slow] rotated by two places: both hold the four
    diagonal neighbours, the fast table starts at the bottom left, the slow
    one at the top right. *)
Theorem diagonal_arrays_rotated (junk : Z) (shape : shape_t)
    (out_of_bounds n : Z) :
  - 2 ^ 63 <= out_of_bounds < 2 ^ 63 ->
  0 <= n < node_count shape -> is_interior_node shape n = true ->
  exists fast slow s0 s1 s2 s3,
    diagonal_array junk shape out_of_bounds = Some fast /\
    diagonal_array_slow shape out_of_bounds = Some slow /\
    nth_error slow (Z.to_nat n) = Some [s0; s1; s2; s3] /\
    nth_error fast (Z.to_nat n) = Some [s2; s3; s0; s1].
Proof.
  intros Hfits Hn Hint.
  rewrite diagonal_array_explicit by exact Hfits.
  rewrite diagonal_array_slow_explicit.
  do 2 eexists.
  exists (n + ncols shape + 1), (n + ncols shape - 1),
    (n - ncols shape - 1), (n - ncols shape + 1).
  split; [reflexivity |]. split; [reflexivity |].
  rewrite !table_nth by exact Hn. rewrite Hint. split; [reflexivity |].
  unfold is_interior_node in Hint.
  apply andb_true_iff in Hint as [Hint H4].
  apply andb_true_iff in Hint as [Hint H3].
  apply andb_true_iff in Hint as [H1 H2].
  now rewrite H1, H2, H3, H4.
Qed.

Lemma diagonal_arrays_rotated_witness :
  exists fast slow s0 s1 s2 s3,
    diagonal_array 7 (3%nat, 3%nat) (-1) = Some fast /\
    diagonal_array_slow (3%nat, 3%nat) (-1) = Some slow /\
    nth_error slow (Z.to_nat 4) = Some [s0; s1; s2; s3] /\
    nth_error fast (Z.to_nat 4) = Some [s2; s3; s0; s1].
Proof.
  apply diagonal_arrays_rotated;
    [lia | unfold node_count; simpl; lia | reflexivity].
Defined.

End NeighbourTables.

(** ** Active links and faces with the default arguments *)

Section DefaultLinks.

Import Py structured_grid.
Open Scope Z_scope.

Lemma where_from_sorted (mask : list bool) (k0 : Z) :
  StronglySorted Z.lt (where_from k0 mask).
Proof.
  revert k0. induction mask as [|b mask IH]; intros k0; cbn [where_from];
    [constructor |].
  destruct b; [| apply IH]. constructor; [apply IH |].
  apply Forall_forall. intros k Hk. apply where_from_In in Hk. lia.
Qed.

Lemma active_links_sorted (junk : Z) (shape : shape_t)
    (node_status_array : option (list Z))
    (link_nodes : option (list Z * list Z)) (act : list Z) :
  active_links junk shape node_status_array link_nodes = Some act ->
  StronglySorted Z.lt act.
Proof.
  unfold active_links. intros H.
  apply bind_Some in H as [st [_ H]].
  destruct (match link_nodes with Some p => p | None => _ end) as [lf lt].
  apply bind_Some in H as [fs [_ H]].
  apply bind_Some in H as [ts [_ H]].
  apply bind_Some in H as [mask [_ H]]. injection H as <-.
  apply where_from_sorted.
Qed.

Lemma default_status_item (shape : shape_t) (n : Z) :
  0 <= n < node_count shape ->
  item (map (fun n => if is_interior_node shape n then INTERIOR_NODE
                      else FIXED_VALUE_BOUNDARY)
            (arange (node_count shape))) n
  = Some (if is_interior_node shape n then INTERIOR_NODE
          else FIXED_VALUE_BOUNDARY).
Proof.
  intros H. unfold item.
  rewrite position_in_range
    by (rewrite length_map, arange_length_Z; lia).
  cbn [bind]. now apply table_nth.
Qed.

Lemma active_links_default_explicit (junk : Z) (shape : shape_t) :
  0 < nrows shape -> 0 < ncols shape ->
  exists act,
    active_links junk shape None None = Some act /\
    StronglySorted Z.lt act /\
    (forall k, In k act -> 0 <= k < link_count shape) /\
    forall (k : nat) (tail head : Z),
      nth_error (fst (node_link_index shape)) k = Some tail ->
      nth_error (snd (node_link_index shape)) k = Some head ->
      (In (Z.of_nat k) act <->
       is_interior_node shape tail = true \/
       is_interior_node shape head = true).
Proof.
  intros Hr Hc.
  set (status := map (fun n => if is_interior_node shape n then INTERIOR_NODE
                               else FIXED_VALUE_BOUNDARY)
                     (arange (node_count shape))).
  assert (Hlen : Z.of_nat (length status) = node_count shape).
  { unfold status. rewrite length_map, arange_length_Z.
    unfold node_count. rewrite Z2Nat.id; nia. }
  assert (Heq : active_links junk shape None None
                = active_links junk shape (Some status)
                    (Some (fst (node_link_index shape),
                           snd (node_link_index shape)))).
  { unfold active_links.
    rewrite (node_status_explicit junk shape FIXED_VALUE_BOUNDARY Hr Hc)
      by (unfold FIXED_VALUE_BOUNDARY; lia).
    reflexivity. }
  destruct (active_links_total junk shape status
              (fst (node_link_index shape)) (snd (node_link_index shape)))
    as [act Hact].
  { intros i Hi. rewrite Hlen. now apply from_node_links_range. }
  { intros i Hi. rewrite Hlen. now apply to_node_links_range. }
  { apply node_link_index_lengths. }
  exists act. rewrite Heq. split; [exact Hact |]. split; [| split].
  - now apply active_links_sorted in Hact.
  - intros k Hk. rewrite <- node_link_index_length by assumption.
    eapply active_links_ids; [apply node_link_index_lengths | exact Hact |
                              exact Hk].
  - intros k tail head Ht Hh.
    destruct (active_links_tables _ _ _ _ _ _ Hact k tail head Ht Hh)
      as [st [sh [Hst [Hsh Hiff]]]].
    rewrite Hiff.
    unfold status in Hst, Hsh.
    rewrite default_status_item in Hst
      by (apply from_node_links_range; eapply nth_error_In; eauto).
    rewrite default_status_item in Hsh
      by (apply to_node_links_range; eapply nth_error_In; eauto).
    injection Hst as <-. injection Hsh as <-.
    destruct (is_interior_node shape tail), (is_interior_node shape head);
      cbn; split; intros H; try discriminate; auto;
      destruct H as [H | H]; discriminate.
Qed.

(** X24: with the default arguments, on a grid with at least one row and one
    column, [active_links] does not depend on the uninitialised content of
    the status array: it returns, in increasing order, exactly the links
    with an end node strictly inside the grid. *)
Theorem active_links_default (junk : Z) (shape : shape_t) :
  0 < nrows shape -> 0 < ncols shape ->
  exists act,
    active_links junk shape None None = Some act /\
    StronglySorted Z.lt act /\
    (forall k, In k act -> 0 <= k < link_count shape) /\
    forall (k : nat) (tail head : Z),
      nth_error (fst (node_link_index shape)) k = Some tail ->
      nth_error (snd (node_link_index shape)) k = Some head ->
      (In (Z.of_nat k) act <->
       is_interior_node shape tail = true \/
       is_interior_node shape head = true).
Proof. apply active_links_default_explicit. Qed.

Lemma active_links_default_witness :
  exists act,
    active_links 7 (3%nat, 4%nat) None None = Some act /\
    StronglySorted Z.lt act /\
    (forall k, In k act -> 0 <= k < link_count (3%nat, 4%nat)) /\
    forall (k : nat) (tail head : Z),
      nth_error (fst (node_link_index (3%nat, 4%nat))) k = Some tail ->
      nth_error (snd (node_link_index (3%nat, 4%nat))) k = Some head ->
      (In (Z.of_nat k) act <->
       is_interior_node (3%nat, 4%nat) tail = true \/
       is_interior_node (3%nat, 4%nat) head = true).
Proof. apply active_links_default; reflexivity. Defined.

(** X25: with the default arguments, on a grid with at least one row and one
    column, [link_faces] numbers the active links in increasing order of
    their id and gives [BAD_INDEX_VALUE] to every other link. *)
Theorem link_faces_default (junk : Z) (shape : shape_t) :
  0 < nrows shape -> 0 < ncols shape ->
  exists act faces,
    active_links junk shape None None = Some act /\
    link_faces junk shape None = Some faces /\
    Z.of_nat (length faces) = link_count shape /\
    (forall k i, nth_error act k = Some i ->
       nth_error faces (Z.to_nat i) = Some (Z.of_nat k)) /\
    (forall i, 0 <= i < link_count shape -> ~ In i act ->
       nth_error faces (Z.to_nat i) = Some BAD_INDEX_VALUE).
Proof.
  intros Hr Hc.
  destruct (active_links_default_explicit junk shape Hr Hc)
    as [act [Hact [Hsorted [Hrange _]]]].
  assert (Hcount : 0 <= link_count shape).
  { rewrite <- node_link_index_length by assumption. lia. }
  exists act. unfold link_faces. rewrite Hact. cbn [bind].
  replace (link_count shape <? 0) with false
    by (symmetry; apply Z.ltb_ge; exact Hcount).
  destruct (put_array_arange
              (repeat BAD_INDEX_VALUE (Z.to_nat (link_count shape)))
              act (Z.of_nat (length act)))
    as [faces [Ef [Lf [G1 G2]]]].
  - apply Nat2Z.id.
  - intros i Hin. rewrite repeat_length, Z2Nat.id by exact Hcount.
    now apply Hrange.
  - now apply sorted_NoDup.
  - exists faces. split; [reflexivity |]. split; [exact Ef |].
    rewrite repeat_length in Lf. split; [lia |]. split; [exact G1 |].
    intros i Hi Hnot. rewrite G2 by (rewrite Z2Nat.id by lia; exact Hnot).
    apply nth_error_repeat. lia.
Qed.

Lemma link_faces_default_witness :
  exists act faces,
    active_links 7 (3%nat, 4%nat) None None = Some act /\
    link_faces 7 (3%nat, 4%nat) None = Some faces /\
    Z.of_nat (length faces) = link_count (3%nat, 4%nat) /\
    (forall k i, nth_error act k = Some i ->
       nth_error faces (Z.to_nat i) = Some (Z.of_nat k)) /\
    (forall i, 0 <= i < link_count (3%nat, 4%nat) -> ~ In i act ->
       nth_error faces (Z.to_nat i) = Some BAD_INDEX_VALUE).
Proof. apply link_faces_default; reflexivity. Defined.

End DefaultLinks.

(** * More of [flow_director_d8.py] *)

(** ** What [direct_flow] keeps and what it saves *)

Section DirectFlowFrame.

Import Py structured_grid flow_director stages scenario.
Open Scope Z_scope.

Lemma direct_flow_inv (w w' : World) (r : list Z) :
  direct_flow w = Ok (w', r) ->
  exists w0 receiver steepest_slope sink_ recvr_link,
    check_bcs w = Ok w0 /\
    publish w0 (receiver, steepest_slope, sink_, recvr_link) = Ok (w', r).
Proof.
  rewrite direct_flow_stages. intros H.
  apply obind_Ok in H as [w0 [H0 H]].
  apply obind_Ok in H as [[[[rc sl] sk] lk] [_ H]].
  exists w0, rc, sl, sk, lk. split; assumption.
Qed.

(** X26: a call of [direct_flow] that returns leaves the class of the grid,
    the node statuses, the boundary version, the link tables and the
    elevations as they were, keeps the length of each of the four output
    arrays, and leaves the component with the boundary version of the grid
    on record; when the version on record was already that of the grid,
    the link tables kept by the component are not touched either. *)
Theorem direct_flow_frame (w w' : World) (r : list Z) :
  direct_flow w = Ok (w', r) ->
  class_of (grid w') = class_of (grid w) /\
  status_at_node (grid w') = status_at_node (grid w) /\
  bc_set_code (grid w') = bc_set_code (grid w) /\
  d8_link_tail (grid w') = d8_link_tail (grid w) /\
  d8_link_head (grid w') = d8_link_head (grid w) /\
  d8_link_length (grid w') = d8_link_length (grid w) /\
  elevs w' = elevs w /\
  length (flow__receiver_node (at_node (grid w')))
  = length (flow__receiver_node (at_node (grid w))) /\
  length (topographic__steepest_slope (at_node (grid w')))
  = length (topographic__steepest_slope (at_node (grid w))) /\
  length (flow__link_to_receiver_node (at_node (grid w')))
  = length (flow__link_to_receiver_node (at_node (grid w))) /\
  length (flow__sink_flag (at_node (grid w')))
  = length (flow__sink_flag (at_node (grid w))) /\
  _bc_set_code (self w') = Some (bc_set_code (grid w)) /\
  (bc_set_code_differs w = false ->
   _active_links (self w') = _active_links (self w) /\
   _activelink_tail (self w') = _activelink_tail (self w) /\
   _activelink_head (self w') = _activelink_head (self w)).
Proof.
  intros H.
  destruct (direct_flow_inv _ _ _ H) as (w0 & rc & sl & sk & lk & H0 & Hp).
  pose proof (check_bcs_grid _ _ H0) as Hg.
  pose proof (check_bcs_synced _ _ H0) as Hsync.
  destruct (publish_self _ _ _ _ Hp) as (S1 & S2 & S3 & S4 & S5 & _).
  apply publish_inv in Hp
    as (f1 & f2 & f3 & z & f4 & H1 & H2 & H3 & H4 & H5 & -> & ->).
  unfold elevs.
  cbn [grid self at_node class_of status_at_node bc_set_code d8_link_tail
       d8_link_head d8_link_length topographic__elevation
       flow__receiver_node topographic__steepest_slope
       flow__link_to_receiver_node flow__sink_flag _bc_set_code
       _active_links _activelink_tail _activelink_head] in *.
  rewrite Hg in *.
  apply assign_all_length in H1, H2, H3, H4.
  apply fill_at_length in H5.
  repeat (split; [first [reflexivity | assumption | congruence] |]).
  split.
  - unfold bc_set_code_differs in Hsync. rewrite Hg in Hsync.
    destruct (_bc_set_code (self w0)) as [c |]; [| discriminate].
    apply negb_false_iff, Z.eqb_eq in Hsync. now subst c.
  - intros Hsame. rewrite (check_bcs_keeps _ Hsame) in H0.
    injection H0 as <-. repeat split.
Qed.

Lemma direct_flow_frame_witness :
  exists w' r,
    direct_flow doctest_start = Ok (w', r) /\
    class_of (grid w') = class_of (grid doctest_start) /\
    status_at_node (grid w') = status_at_node (grid doctest_start) /\
    bc_set_code (grid w') = bc_set_code (grid doctest_start) /\
    d8_link_tail (grid w') = d8_link_tail (grid doctest_start) /\
    d8_link_head (grid w') = d8_link_head (grid doctest_start) /\
    d8_link_length (grid w') = d8_link_length (grid doctest_start) /\
    elevs w' = elevs doctest_start /\
    length (flow__receiver_node (at_node (grid w')))
    = length (flow__receiver_node (at_node (grid doctest_start))) /\
    length (topographic__steepest_slope (at_node (grid w')))
    = length (topographic__steepest_slope (at_node (grid doctest_start))) /\
    length (flow__link_to_receiver_node (at_node (grid w')))
    = length (flow__link_to_receiver_node (at_node (grid doctest_start))) /\
    length (flow__sink_flag (at_node (grid w')))
    = length (flow__sink_flag (at_node (grid doctest_start))) /\
    _bc_set_code (self w') = Some (bc_set_code (grid doctest_start)) /\
    (bc_set_code_differs doctest_start = false ->
     _active_links (self w') = _active_links (self doctest_start) /\
     _activelink_tail (self w') = _activelink_tail (self doctest_start) /\
     _activelink_head (self w') = _activelink_head (self doctest_start)).
Proof.
  destruct doctest_first_step as (w' & r & Hrun & _). exists w', r.
  split; [exact Hrun |]. exact (direct_flow_frame doctest_start w' r Hrun).
Defined.

Lemma assign_all_false (field : list bool) (n : nat) (zeros : list bool) :
  assign_all field (repeat false n) = Ok zeros ->
  zeros = repeat false (length field).
Proof.
  unfold assign_all. rewrite repeat_length.
  destruct (Nat.eqb_spec n (length field)) as [-> | Hne].
  - now intros [= <-].
  - destruct n as [|[|n]]; cbn [repeat]; try discriminate.
    now intros [= <-].
Qed.

(** X27: after a call of [direct_flow] that returns, [flow__sink_flag] is the
    mask of the sink list kept in [self.sink]: entry [n] is true exactly
    when some index of the list designates position [n] (numpy counts a
    negative index from the end of the array), and it is false otherwise. *)
Theorem direct_flow_sink_mask (w w' : World) (r : list Z) (n : nat) :
  direct_flow w = Ok (w', r) ->
  (n < length (flow__sink_flag (at_node (grid w))))%nat ->
  exists flag,
    nth_error (flow__sink_flag (at_node (grid w'))) n = Some flag /\
    (flag = true <->
     exists i, In i (sink (self w')) /\
               position (length (flow__sink_flag (at_node (grid w)))) i
               = Some n).
Proof.
  intros H Hn.
  destruct (direct_flow_inv _ _ _ H) as (w0 & rc & sl & sk & lk & H0 & Hp).
  pose proof (check_bcs_grid _ _ H0) as Hg.
  apply publish_inv in Hp
    as (f1 & f2 & f3 & z & f4 & H1 & H2 & H3 & H4 & H5 & -> & ->).
  cbn [grid self at_node flow__sink_flag sink]. rewrite Hg in *.
  rewrite (map_const_repeat _ false) in H4
    by (apply Forall_forall; reflexivity).
  apply assign_all_false in H4. subst z.
  destruct (fill_at_nth _ _ _ _ H5) as [L5 F5]. rewrite repeat_length in F5.
  destruct (Classical_Prop.classic
              (exists i, In i sk /\
                 position (length (flow__sink_flag (at_node (grid w)))) i
                 = Some n)) as [Hex | Hno].
  - exists true. split; [now apply F5 |]. tauto.
  - exists false. split.
    + destruct (F5 n) as [_ F]. rewrite (F Hno).
      now apply nth_error_repeat.
    + split; [discriminate | tauto].
Qed.

Lemma doctest_start_flags (n : nat) :
  (n < 9)%nat ->
  (n < length (flow__sink_flag (at_node (grid doctest_start))))%nat.
Proof. intros H. exact H. Qed.

Lemma direct_flow_sink_mask_witness :
  exists w' r,
    direct_flow doctest_start = Ok (w', r) /\
    exists flag,
      nth_error (flow__sink_flag (at_node (grid w'))) 1 = Some flag /\
      (flag = true <->
       exists i, In i (sink (self w')) /\
                 position
                   (length (flow__sink_flag (at_node (grid doctest_start)))) i
                 = Some 1%nat).
Proof.
  destruct doctest_first_step as (w' & r & Hrun & _). exists w', r.
  split; [exact Hrun |].
  apply (direct_flow_sink_mask doctest_start w' r 1 Hrun).
  apply (doctest_start_flags 1). lia.
Defined.

End DirectFlowFrame.

(** * The tables together *)

(** ** Boundary neighbours on the rows of the neighbour tables *)

Section TablesTogether.

Import Py structured_grid.
Open Scope Z_scope.

(** An entry of a neighbour table: a node id, or the sentinel. *)
Lemma entry_facts (out_of_bounds N v : Z) (x : bool) :
  out_of_bounds = -1 \/
  (out_of_bounds = BAD_INDEX_VALUE /\ N <= BAD_INDEX_VALUE) ->
  (x = true -> 0 <= v < N) ->
  (out_of_bounds =? (if x then v else out_of_bounds)) = negb x /\
  Z.lor (if x then v else out_of_bounds) out_of_bounds = out_of_bounds.
Proof.
  intros Hoob Hv. destruct x; cbn [negb].
  - specialize (Hv eq_refl). split.
    + apply Z.eqb_neq. destruct Hoob as [-> | [-> H]]; lia.
    + apply lor_sentinel. destruct Hoob as [-> | [-> H]]; [now left | right].
      split; [reflexivity | lia].
  - split; [apply Z.eqb_refl | apply Z.lor_diag].
Qed.

Lemma perimeter_by_tests (shape : shape_t) (n : Z) :
  0 <= node_row shape n < nrows shape ->
  0 <= node_col shape n < ncols shape ->
  is_perimeter_node shape n
  = negb ((1 <=? node_row shape n) && (node_row shape n <=? nrows shape - 2)
          && (1 <=? node_col shape n)
          && (node_col shape n <=? ncols shape - 2)).
Proof.
  intros Hi Hj. unfold is_perimeter_node.
  destruct (Z.eqb_spec (node_row shape n) 0),
    (Z.eqb_spec (node_row shape n) (nrows shape - 1)),
    (Z.eqb_spec (node_col shape n) 0),
    (Z.eqb_spec (node_col shape n) (ncols shape - 1)),
    (Z.leb_spec 1 (node_row shape n)),
    (Z.leb_spec (node_row shape n) (nrows shape - 2)),
    (Z.leb_spec 1 (node_col shape n)),
    (Z.leb_spec (node_col shape n) (ncols shape - 2));
    cbn; try reflexivity; lia.
Qed.

(** X28: on the rows that [neighbor_array] and [diagonal_array] build for a
    node, with the sentinel [-1] or the default sentinel, both
    [has_boundary_neighbor_slow] and [has_boundary_neighbor] answer whether
    the node lies on the perimeter of the grid: whenever a neighbour of the
    node is missing, a diagonal neighbour is missing as well, so that
    reading the diagonals alone is enough. *)
Theorem boundary_neighbor_on_tables (junk : Z) (shape : shape_t)
    (out_of_bounds n : Z) :
  0 <= n < node_count shape ->
  out_of_bounds = -1 \/
  (out_of_bounds = BAD_INDEX_VALUE /\ node_count shape <= BAD_INDEX_VALUE) ->
  exists neighbors diagonals nbrs diags,
    neighbor_array junk shape out_of_bounds = Some neighbors /\
    diagonal_array junk shape out_of_bounds = Some diagonals /\
    nth_error neighbors (Z.to_nat n) = Some nbrs /\
    nth_error diagonals (Z.to_nat n) = Some diags /\
    has_boundary_neighbor_slow nbrs diags out_of_bounds
    = Some (is_perimeter_node shape n) /\
    has_boundary_neighbor nbrs diags out_of_bounds
    = Some (is_perimeter_node shape n).
Proof.
  intros Hn Hoob.
  assert (Hfits : - 2 ^ 63 <= out_of_bounds < 2 ^ 63)
    by (destruct Hoob as [-> | [-> _]]; unfold BAD_INDEX_VALUE; lia).
  rewrite neighbor_array_explicit, diagonal_array_explicit by exact Hfits.
  do 4 eexists. split; [reflexivity |]. split; [reflexivity |].
  rewrite !table_nth by exact Hn.
  split; [reflexivity |]. split; [reflexivity |].
  pose proof Hn as Hn'. unfold node_count in Hn'.
  assert (Hc : 0 < ncols shape) by (unfold nrows, ncols in *; nia).
  destruct (node_of_row_col (ncols shape) n Hc) as [En Hm].
  assert (Hrow : 0 <= n / ncols shape < nrows shape)
    by (apply row_bounds; lia).
  rewrite (perimeter_by_tests shape n Hrow Hm).
  unfold node_row, node_col.
  set (i := n / ncols shape) in *. set (j := n mod ncols shape) in *.
  set (C := ncols shape) in *. set (R := nrows shape) in *.
  set (N := node_count shape) in *.
  assert (P1 : 1 <= i -> 1 * C <= i * C)
    by (intros; apply Z.mul_le_mono_nonneg_r; lia).
  assert (P2 : i <= R - 2 -> (i + 2) * C <= R * C)
    by (intros; apply Z.mul_le_mono_nonneg_r; lia).
  assert (P0 : 0 <= i * C) by (apply Z.mul_nonneg_nonneg; lia).
  assert (P3 : (i + 1) * C <= R * C)
    by (apply Z.mul_le_mono_nonneg_r; lia).
  assert (HN : N = R * C) by reflexivity.
  clearbody i j C R N. clear Hn' Hc.
  assert (V1 : (1 <=? j) = true -> 0 <= n - 1 < N)
    by (intros H; apply Z.leb_le in H; lia).
  assert (V2 : (1 <=? i) = true -> 0 <= n - C < N)
    by (intros H; apply Z.leb_le in H; specialize (P1 H); lia).
  assert (V3 : (j <=? C - 2) = true -> 0 <= n + 1 < N)
    by (intros H; apply Z.leb_le in H; lia).
  assert (V4 : (i <=? R - 2) = true -> 0 <= n + C < N)
    by (intros H; apply Z.leb_le in H; specialize (P2 H); lia).
  assert (V5 : (1 <=? i) && (1 <=? j) = true -> 0 <= n - C - 1 < N).
  { intros H. apply andb_true_iff in H as [H1 H2].
    apply Z.leb_le in H1, H2. specialize (P1 H1). lia. }
  assert (V6 : (1 <=? i) && (j <=? C - 2) = true -> 0 <= n - C + 1 < N).
  { intros H. apply andb_true_iff in H as [H1 H2].
    apply Z.leb_le in H1, H2. specialize (P1 H1). lia. }
  assert (V7 : (i <=? R - 2) && (j <=? C - 2) = true -> 0 <= n + C + 1 < N).
  { intros H. apply andb_true_iff in H as [H1 H2].
    apply Z.leb_le in H1, H2. specialize (P2 H1). lia. }
  assert (V8 : (i <=? R - 2) && (1 <=? j) = true -> 0 <= n + C - 1 < N).
  { intros H. apply andb_true_iff in H as [H1 H2].
    apply Z.leb_le in H1, H2. specialize (P2 H1). lia. }
  (* the eight entries *)
  destruct (entry_facts out_of_bounds N _ _ Hoob V1) as [W1 W2].
  destruct (entry_facts out_of_bounds N _ _ Hoob V2) as [S1 S2].
  destruct (entry_facts out_of_bounds N _ _ Hoob V3) as [E1 E2].
  destruct (entry_facts out_of_bounds N _ _ Hoob V4) as [N1 N2].
  destruct (entry_facts out_of_bounds N _ _ Hoob V5) as [SW1 _].
  destruct (entry_facts out_of_bounds N _ _ Hoob V6) as [SE1 _].
  destruct (entry_facts out_of_bounds N _ _ Hoob V7) as [NE1 _].
  destruct (entry_facts out_of_bounds N _ _ Hoob V8) as [NW1 _].
  split.
  - rewrite has_boundary_neighbor_slow_spec. unfold contains.
    cbn [existsb]. rewrite W1, S1, E1, N1, SW1, SE1, NE1, NW1. f_equal.
    destruct (1 <=? i), (i <=? R - 2), (1 <=? j), (j <=? C - 2); reflexivity.
  - rewrite has_boundary_neighbor_lor.
    + unfold contains. cbn [existsb]. rewrite SW1, SE1, NE1, NW1. f_equal.
      destruct (1 <=? i), (i <=? R - 2), (1 <=? j), (j <=? C - 2);
        reflexivity.
    + discriminate.
    + reflexivity.
    + repeat constructor; assumption.
Qed.

Lemma boundary_neighbor_on_tables_witness :
  exists neighbors diagonals nbrs diags,
    neighbor_array 7 (3%nat, 4%nat) (-1) = Some neighbors /\
    diagonal_array 7 (3%nat, 4%nat) (-1) = Some diagonals /\
    nth_error neighbors (Z.to_nat 5) = Some nbrs /\
    nth_error diagonals (Z.to_nat 5) = Some diags /\
    has_boundary_neighbor_slow nbrs diags (-1)
    = Some (is_perimeter_node (3%nat, 4%nat) 5) /\
    has_boundary_neighbor nbrs diags (-1)
    = Some (is_perimeter_node (3%nat, 4%nat) 5).
Proof.
  apply boundary_neighbor_on_tables; [unfold node_count; simpl; lia |].
  now left.
Defined.

End TablesTogether.

(** ** Counting the active links *)

Section ActiveLinkCount.

Import Py structured_grid.
Open Scope Z_scope.

Lemma NoDup_same_length {A : Type} (l1 l2 : list A) :
  NoDup l1 -> NoDup l2 -> (forall x, In x l1 <-> In x l2) ->
  length l1 = length l2.
Proof.
  intros H1 H2 H. apply Nat.le_antisymm; apply NoDup_incl_length;
    try assumption; intros x Hx; now apply H.
Qed.

Lemma interior_iff (shape : shape_t) (i j n : Z) :
  n = i * ncols shape + j -> 0 <= j < ncols shape ->
  (is_interior_node shape n = true <->
   1 <= i <= nrows shape - 2 /\ 1 <= j <= ncols shape - 2).
Proof.
  intros -> Hj. unfold is_interior_node, node_row, node_col.
  destruct (row_col_of (ncols shape) i j Hj) as [-> ->].
  rewrite !andb_true_iff, !Z.leb_le. tauto.
Qed.

Lemma interior_link_ids_sorted (shape : shape_t) :
  3 <= nrows shape -> 3 <= ncols shape ->
  StronglySorted Z.lt (interior_link_ids shape).
Proof.
  intros Hr Hc. unfold interior_link_ids.
  set (C := ncols shape) in *. set (R := nrows shape) in *.
  assert (HV : forall i, 0 <= i -> 0 <= i * C)
    by (intros; apply Z.mul_nonneg_nonneg; lia).
  apply sorted_app.
  - apply sorted_flat_map; [| intros; apply xrange_sorted].
    unfold xrange at 2. apply sorted_map_seq.
    intros i j Hij _ x y Hx Hy. apply xrange_In in Hx, Hy.
    assert ((0 + Z.of_nat i + 1) * C <= (0 + Z.of_nat j) * C)
      by (apply Z.mul_le_mono_nonneg_r; lia).
    lia.
  - apply sorted_flat_map; [| intros; apply xrange_sorted].
    unfold xrange at 2. apply sorted_map_seq.
    intros i j Hij _ x y Hx Hy. apply xrange_In in Hx, Hy.
    assert ((1 + Z.of_nat i + 1) * (C - 1) <= (1 + Z.of_nat j) * (C - 1))
      by (apply Z.mul_le_mono_nonneg_r; lia).
    lia.
  - intros x y Hx Hy.
    apply in_flat_map in Hx as [i [Hi Hx]].
    apply in_flat_map in Hy as [i' [Hi' Hy]].
    apply xrange_In in Hi, Hi', Hx, Hy.
    assert ((i + 1) * C <= (R - 1) * C)
      by (apply Z.mul_le_mono_nonneg_r; lia).
    assert (0 <= i' * (C - 1)) by (apply Z.mul_nonneg_nonneg; lia).
    lia.
Qed.

Lemma interior_link_ids_length (shape : shape_t) :
  3 <= nrows shape -> 3 <= ncols shape ->
  Z.of_nat (length (interior_link_ids shape)) = active_link_count shape.
Proof.
  intros Hr Hc. unfold interior_link_ids, active_link_count, link_count.
  set (C := ncols shape) in *. set (R := nrows shape) in *.
  rewrite length_app.
  rewrite (flat_map_length_uniform _ _ (Z.to_nat (C - 2)))
    by (intros i _; rewrite xrange_length; f_equal; lia).
  rewrite (flat_map_length_uniform _ _ (Z.to_nat (C - 1)))
    by (intros i _; rewrite xrange_length; f_equal; lia).
  rewrite !xrange_length, Nat2Z.inj_add, !Nat2Z.inj_mul, !Z2Nat.id by lia.
  ring.
Qed.

Lemma active_link_ids (junk : Z) (shape : shape_t) (act : list Z) :
  3 <= nrows shape -> 3 <= ncols shape ->
  active_links junk shape None None = Some act ->
  forall k, In k act <-> In k (interior_link_ids shape).
Proof.
  intros Hr Hc Hact k.
  destruct (active_links_default_explicit junk shape)
    as [act' [Ha [_ [Hrange Hmem]]]]; [lia | lia |].
  rewrite Hact in Ha. injection Ha as <-.
  unfold interior_link_ids. rewrite in_app_iff, !in_flat_map.
  set (C := ncols shape) in *. set (R := nrows shape) in *.
  split.
  - intros Hk. pose proof (Hrange k Hk) as Hlt. unfold link_count in Hlt.
    fold C R in Hlt.
    destruct (Z.lt_ge_cases k ((R - 1) * C)) as [Hv | Hh].
    + (* a vertical link *)
      left. destruct (vertical_link_nth shape k) as [Hf Ht]; [lia | lia | lia |].
      apply (Hmem _ _ _ Hf) in Ht. rewrite Z2Nat.id in Ht by lia.
      apply Ht in Hk. clear Ht Hf.
      destruct (node_of_row_col C k ltac:(lia)) as [En Hm].
      assert (Hi : 0 <= k / C < R - 1).
      { split; [apply Z.div_pos; lia |].
        apply Z.div_lt_upper_bound; lia. }
      set (i := k / C) in *. set (j := k mod C) in *.
      assert (Hcol : 1 <= j <= C - 2).
      { destruct Hk as [Hk | Hk].
        - apply (interior_iff shape i j) in Hk; [lia | exact En | exact Hm].
        - apply (interior_iff shape (i + 1) j) in Hk;
            [lia | fold C; lia | exact Hm]. }
      exists i. split; apply xrange_In_iff; lia.
    + (* a horizontal link *)
      right.
      assert (Hm0 : 0 <= k - (R - 1) * C < R * (C - 1)) by lia.
      destruct (node_of_row_col (C - 1) (k - (R - 1) * C) ltac:(lia))
        as [En Hm].
      assert (Hi : 0 <= (k - (R - 1) * C) / (C - 1) < R).
      { split; [apply Z.div_pos; lia |].
        apply Z.div_lt_upper_bound; lia. }
      set (i := (k - (R - 1) * C) / (C - 1)) in *.
      set (j := (k - (R - 1) * C) mod (C - 1)) in *.
      destruct (horizontal_link_nth shape i j) as [Hf Ht];
        [lia | lia | exact Hi | exact Hm |].
      fold C R in Hf, Ht.
      replace ((R - 1) * C + i * (C - 1) + j) with k in Hf, Ht by lia.
      apply (Hmem _ _ _ Hf) in Ht. rewrite Z2Nat.id in Ht by lia.
      apply Ht in Hk. clear Ht Hf.
      assert (Hrow : 1 <= i <= R - 2).
      { destruct Hk as [Hk | Hk].
        - apply (interior_iff shape i j) in Hk;
            [lia | reflexivity | fold C; lia].
        - apply (interior_iff shape i (j + 1)) in Hk;
            [lia | fold C; lia | fold C; lia]. }
      exists i. split; apply xrange_In_iff; lia.
  - intros [[i [Hi Hk]] | [i [Hi Hk]]]; apply xrange_In in Hi, Hk.
    + (* a vertical link *)
      assert (Hlt : (i + 1) * C <= (R - 1) * C)
        by (apply Z.mul_le_mono_nonneg_r; lia).
      assert (H0 : 0 <= i * C) by (apply Z.mul_nonneg_nonneg; lia).
      destruct (vertical_link_nth shape k) as [Hf Ht];
        [lia | lia | fold C R; lia |].
      apply (Hmem _ _ _ Hf) in Ht. rewrite Z2Nat.id in Ht by lia.
      apply Ht. clear Ht Hf.
      destruct (Z.le_gt_cases 1 i) as [Hi1 | Hi0].
      * left. apply (interior_iff shape i (k - i * C));
          [fold C; lia | fold C; lia | fold C R; lia].
      * right. apply (interior_iff shape (i + 1) (k - i * C));
          [fold C; lia | fold C; lia | fold C R; lia].
    + (* a horizontal link *)
      assert (H0 : 0 <= (R - 1) * C) by (apply Z.mul_nonneg_nonneg; lia).
      assert (H1 : 0 <= i * (C - 1)) by (apply Z.mul_nonneg_nonneg; lia).
      destruct (horizontal_link_nth shape i
                  (k - (R - 1) * C - i * (C - 1))) as [Hf Ht];
        [lia | lia | fold R; lia | fold C R; lia |].
      fold C R in Hf, Ht.
      replace ((R - 1) * C + i * (C - 1) + (k - (R - 1) * C - i * (C - 1)))
        with k in Hf, Ht by lia.
      apply (Hmem _ _ _ Hf) in Ht. rewrite Z2Nat.id in Ht by lia.
      apply Ht. clear Ht Hf.
      set (j := k - (R - 1) * C - i * (C - 1)) in *.
      destruct (Z.le_gt_cases 1 j) as [Hj1 | Hj0].
      * left. apply (interior_iff shape i j);
          [reflexivity | fold C; lia | fold C R; lia].
      * right. apply (interior_iff shape i (j + 1));
          [fold C; lia | fold C; lia | fold C R; lia].
Qed.

(** X29: on a grid with at least three rows and three columns the number of
    links that [active_links] returns with its default arguments is
    [active_link_count], which is also [face_count]. *)
Theorem active_link_count_spec (junk : Z) (shape : shape_t) :
  3 <= nrows shape -> 3 <= ncols shape ->
  exists act,
    active_links junk shape None None = Some act /\
    Z.of_nat (length act) = active_link_count shape /\
    active_link_count shape = face_count shape.
Proof.
  intros Hr Hc.
  destruct (active_links_default_explicit junk shape)
    as [act [Ha [Hsorted _]]]; [lia | lia |].
  exists act. split; [exact Ha |]. split.
  - rewrite <- interior_link_ids_length by assumption. f_equal.
    apply NoDup_same_length.
    + now apply sorted_NoDup.
    + apply sorted_NoDup. now apply interior_link_ids_sorted.
    + now apply (active_link_ids junk).
  - unfold active_link_count, link_count, face_count. ring.
Qed.

Lemma active_link_count_spec_witness :
  exists act,
    active_links 7 (3%nat, 4%nat) None None = Some act /\
    Z.of_nat (length act) = active_link_count (3%nat, 4%nat) /\
    active_link_count (3%nat, 4%nat) = face_count (3%nat, 4%nat).
Proof.
  apply active_link_count_spec; unfold nrows, ncols; simpl; lia.
Defined.

(** X30: on a grid without interior node (at most two rows, or at most two
    columns) [active_links] with its default arguments returns no link, but
    [active_link_count] is 0 only when the grid has as many rows as
    columns, that is for the shapes (1, 1) and (2, 2). *)
Theorem active_link_count_thin (junk : Z) (shape : shape_t) :
  0 < nrows shape -> 0 < ncols shape ->
  nrows shape <= 2 \/ ncols shape <= 2 ->
  active_links junk shape None None = Some [] /\
  (active_link_count shape = 0 <-> nrows shape = ncols shape).
Proof.
  intros Hr Hc Hthin. split.
  - destruct (active_links_default_explicit junk shape Hr Hc)
      as [act [Ha [_ [Hrange Hmem]]]].
    rewrite Ha. f_equal. destruct act as [|k act]; [reflexivity | exfalso].
    assert (Hk : In k (k :: act)) by now left.
    pose proof (Hrange k Hk) as Hlt.
    rewrite <- node_link_index_length in Hlt by assumption.
    destruct (nth_error (fst (node_link_index shape)) (Z.to_nat k))
      as [t |] eqn:Ht; [| apply nth_error_None in Ht; lia].
    destruct (nth_error (snd (node_link_index shape)) (Z.to_nat k))
      as [h |] eqn:Hh;
      [| apply nth_error_None in Hh;
         rewrite <- node_link_index_lengths in Hh; lia].
    apply (Hmem _ _ _ Ht) in Hh. rewrite Z2Nat.id in Hh by lia.
    apply Hh in Hk.
    assert (Hnone : forall n, is_interior_node shape n = false).
    { intros n. unfold is_interior_node.
      destruct (Z.leb_spec 1 (node_row shape n));
        destruct (Z.leb_spec (node_row shape n) (nrows shape - 2));
        destruct (Z.leb_spec 1 (node_col shape n));
        destruct (Z.leb_spec (node_col shape n) (ncols shape - 2));
        cbn [andb]; try reflexivity.
      pose proof (Z.mod_pos_bound n (ncols shape) Hc). unfold node_col in *.
      lia. }
    rewrite !Hnone in Hk. destruct Hk; discriminate.
  - unfold active_link_count, link_count.
    assert (Hcases : nrows shape = 1 \/ nrows shape = 2 \/
                     ncols shape = 1 \/ ncols shape = 2) by lia.
    destruct Hcases as [E | [E | [E | E]]]; rewrite E; lia.
Qed.

Lemma active_link_count_thin_witness :
  active_links 7 (2%nat, 5%nat) None None = Some [] /\
  (active_link_count (2%nat, 5%nat) = 0
   <-> nrows (2%nat, 5%nat) = ncols (2%nat, 5%nat)).
Proof.
  apply active_link_count_thin; unfold nrows, ncols; simpl; lia.
Defined.

End ActiveLinkCount.
